(** * CasinoBackend: provably-fair rounds, payout calculation and settlement

    A shallow embedding of the payout calculator ([services/minesPayout.js]),
    the Crash and Slide round machines ([sockets/crash.js], [sockets/slide.js])
    and the Mines session handlers ([routes/mine.js]), with the properties of
    the specification stated over them.

    JavaScript numbers are IEEE-754 binary64 values; they are modelled by the
    primitive floats of the standard library, so that every rounding the
    program performs is performed here as well. *)

From Stdlib Require Import ZArith List Bool Ascii String Lia.
From Stdlib Require Import Floats Uint63.
Import ListNotations.

#[local] Set Warnings "-inexact-float".
#[local] Open Scope Z_scope.
#[local] Open Scope list_scope.

(* ================================================================== *)
(** * Part I: the program *)
(* ================================================================== *)

(** ** JavaScript numbers *)

Module JsNumber.

(** [Number(z)] for an integer [z] with [|z| < 2^63]. *)
Definition ofZ (z : Z) : float :=
  if z <? 0 then PrimFloat.opp (PrimFloat.of_uint63 (Uint63.of_Z (- z)))
  else PrimFloat.of_uint63 (Uint63.of_Z z).

Definition signedMantissa (s : bool) (m : positive) : Z :=
  if s then Z.neg m else Z.pos m.

(** The integer part, rounded towards minus infinity, of a finite number
    ([0] for zeros, infinities and NaN). *)
Definition floorZ (x : float) : Z :=
  match Prim2SF x with
  | S754_finite s m e => Z.shiftl (signedMantissa s m) e
  | _ => 0
  end.

(** [Math.floor]: numbers with a non-negative exponent are integers already;
    zeros, infinities and NaN are returned unchanged. *)
Definition floor (x : float) : float :=
  match Prim2SF x with
  | S754_finite s m e => if 0 <=? e then x else ofZ (floorZ x)
  | _ => x
  end.

(** [Number.isFinite] and [Number.isInteger]. *)
Definition isFinite (x : float) : bool := PrimFloat.is_finite x.

Definition isInteger (x : float) : bool :=
  isFinite x && PrimFloat.eqb (floor x) x.

(** Truthiness of a number: every number but [0], [-0] and [NaN]. *)
Definition truthy (x : float) : bool :=
  negb (PrimFloat.is_nan x || PrimFloat.is_zero x).

(** [Math.min] and [Math.max] of two numbers. *)
Definition min (a b : float) : float :=
  if PrimFloat.is_nan a || PrimFloat.is_nan b then PrimFloat.nan
  else if PrimFloat.ltb a b then a
  else if PrimFloat.ltb b a then b
  else if PrimFloat.get_sign a then a else b.

Definition max (a b : float) : float :=
  if PrimFloat.is_nan a || PrimFloat.is_nan b then PrimFloat.nan
  else if PrimFloat.ltb a b then b
  else if PrimFloat.ltb b a then a
  else if PrimFloat.get_sign a then b else a.

End JsNumber.

(** The integers [lo, lo+1, ..., lo+n-1]. *)
Fixpoint zrange (lo : Z) (n : nat) : list Z :=
  match n with
  | O => []
  | S k => lo :: zrange (lo + 1) k
  end.

(** ** Node's [crypto]: SHA-256 (FIPS 180-4) and HMAC (RFC 2104)

    The digests the program obtains from [crypto.createHash("sha256")] and
    [crypto.createHmac("sha256", key)], over lists of bytes. *)

Module Sha256.

Definition w32 (x : Z) : Z := x mod 4294967296.
Definition add32 (x y : Z) : Z := w32 (x + y).
Definition rotr (n x : Z) : Z := Z.lor (Z.shiftr x n) (w32 (Z.shiftl x (32 - n))).
Definition shr (n x : Z) : Z := Z.shiftr x n.
Definition not32 (x : Z) : Z := Z.lxor x 4294967295.

Definition Ch (x y z : Z) : Z := Z.lxor (Z.land x y) (Z.land (not32 x) z).
Definition Maj (x y z : Z) : Z :=
  Z.lxor (Z.lxor (Z.land x y) (Z.land x z)) (Z.land y z).
Definition bsig0 (x : Z) : Z := Z.lxor (Z.lxor (rotr 2 x) (rotr 13 x)) (rotr 22 x).
Definition bsig1 (x : Z) : Z := Z.lxor (Z.lxor (rotr 6 x) (rotr 11 x)) (rotr 25 x).
Definition ssig0 (x : Z) : Z := Z.lxor (Z.lxor (rotr 7 x) (rotr 18 x)) (shr 3 x).
Definition ssig1 (x : Z) : Z := Z.lxor (Z.lxor (rotr 17 x) (rotr 19 x)) (shr 10 x).

(** The constants are derived as the standard defines them, from the first
    64 primes: the first 32 bits of the fractional parts of their cube roots
    ([K]) and, for the first eight, of their square roots ([H0]). *)
Definition isPrime (p : Z) : bool :=
  forallb (fun d => negb (p mod d =? 0)) (zrange 2 (Z.to_nat (Z.sqrt p - 1))).

Definition primes : list Z := filter isPrime (zrange 2 310).

(** Integer cube root, one bit at a time from the top. *)
Fixpoint cbrtBits (bits : nat) (n acc : Z) : Z :=
  match bits with
  | O => acc
  | S b =>
      let c := acc + 2 ^ Z.of_nat b in
      if c * c * c <=? n then cbrtBits b n c else cbrtBits b n acc
  end.

Definition fracCbrt32 (p : Z) : Z := w32 (cbrtBits 40 (p * 2 ^ 96) 0).
Definition fracSqrt32 (p : Z) : Z := w32 (Z.sqrt (p * 2 ^ 64)).

Definition K : list Z := Eval vm_compute in map fracCbrt32 primes.

Record state : Type := mkState {
  ha : Z; hb : Z; hc : Z; hd : Z; he : Z; hf : Z; hg : Z; hh : Z
}.

Definition H0 : state :=
  Eval vm_compute in
    let h := fun i => fracSqrt32 (nth i primes 0) in
    mkState (h 0%nat) (h 1%nat) (h 2%nat) (h 3%nat)
            (h 4%nat) (h 5%nat) (h 6%nat) (h 7%nat).

(** Big-endian 32-bit words of a list of bytes. *)
Fixpoint wordsOfBytes (bs : list Z) : list Z :=
  match bs with
  | b0 :: b1 :: b2 :: b3 :: rest =>
      (((b0 * 256 + b1) * 256 + b2) * 256 + b3) :: wordsOfBytes rest
  | _ => []
  end.

(** Message schedule: [rev_w] holds W[t-1], W[t-2], ... (newest first). *)
Fixpoint extend (n : nat) (rev_w : list Z) : list Z :=
  match n with
  | O => rev_w
  | S k =>
      let w := add32 (add32 (ssig1 (nth 1 rev_w 0)) (nth 6 rev_w 0))
                     (add32 (ssig0 (nth 14 rev_w 0)) (nth 15 rev_w 0)) in
      extend k (w :: rev_w)
  end.

Definition schedule (block : list Z) : list Z :=
  rev (extend 48 (rev block)).

Definition round (s : state) (kw : Z * Z) : state :=
  let (k, w) := kw in
  let t1 := add32 (add32 (add32 (hh s) (bsig1 (he s))) (Ch (he s) (hf s) (hg s)))
                  (add32 k w) in
  let t2 := add32 (bsig0 (ha s)) (Maj (ha s) (hb s) (hc s)) in
  mkState (add32 t1 t2) (ha s) (hb s) (hc s) (add32 (hd s) t1) (he s) (hf s) (hg s).

Definition compress (s : state) (block : list Z) : state :=
  let r := fold_left round (combine K (schedule block)) s in
  mkState (add32 (ha s) (ha r)) (add32 (hb s) (hb r)) (add32 (hc s) (hc r))
          (add32 (hd s) (hd r)) (add32 (he s) (he r)) (add32 (hf s) (hf r))
          (add32 (hg s) (hg r)) (add32 (hh s) (hh r)).

(** Padding: a 1 bit, zeros up to 56 modulo 64 bytes, the bit length on 64 bits. *)
Definition be64 (n : Z) : list Z :=
  map (fun i => (n / 2 ^ (8 * i)) mod 256) [7; 6; 5; 4; 3; 2; 1; 0].

Definition pad (msg : list Z) : list Z :=
  let len := Z.of_nat (List.length msg) in
  let zeros := Z.to_nat ((55 - len) mod 64) in
  msg ++ 128 :: repeat 0 zeros ++ be64 (8 * len).

Fixpoint blocks (n : nat) (ws : list Z) : list (list Z) :=
  match n with
  | O => []
  | S k => firstn 16 ws :: blocks k (skipn 16 ws)
  end.

Definition hash (msg : list Z) : state :=
  let ws := wordsOfBytes (pad msg) in
  fold_left compress (blocks (List.length ws / 16) ws) H0.

Definition bytesOfWord (w : Z) : list Z :=
  [(w / 16777216) mod 256; (w / 65536) mod 256; (w / 256) mod 256; w mod 256].

Definition digest (s : state) : list Z :=
  bytesOfWord (ha s) ++ bytesOfWord (hb s) ++ bytesOfWord (hc s) ++ bytesOfWord (hd s) ++
  bytesOfWord (he s) ++ bytesOfWord (hf s) ++ bytesOfWord (hg s) ++ bytesOfWord (hh s).

Definition sha256 (msg : list Z) : list Z := digest (hash msg).

(** HMAC (RFC 2104) with SHA-256, block size 64. *)
Definition hmacKey (key : list Z) : list Z :=
  let k := if (64 <? Z.of_nat (List.length key)) then sha256 key else key in
  k ++ repeat 0 (64 - List.length k).

Definition hmac (key msg : list Z) : list Z :=
  let k := hmacKey key in
  let ipad := map (Z.lxor 54) k in
  let opad := map (Z.lxor 92) k in
  digest (hash (opad ++ digest (hash (ipad ++ msg)))).

End Sha256.

Definition bytesOfString (s : string) : list Z :=
  map (fun c => Z.of_N (N_of_ascii c)) (list_ascii_of_string s).

Definition hexChar (n : Z) : ascii :=
  nth (Z.to_nat n) (list_ascii_of_string "0123456789abcdef") "0"%char.

Definition hexOfBytes (bs : list Z) : string :=
  string_of_list_ascii (flat_map (fun b => [hexChar (b / 16); hexChar (b mod 16)]) bs).


(** ** Provably-fair crash point: sockets/crash.js *)

Module CrashPoint.

(** Value of a hexadecimal digit; [None] for any other character. *)
Definition hexValue (c : ascii) : option Z :=
  let n := Z.of_N (N_of_ascii c) in
  if (48 <=? n) && (n <=? 57) then Some (n - 48)
  else if (97 <=? n) && (n <=? 102) then Some (n - 87)
  else if (65 <=? n) && (n <=? 70) then Some (n - 55)
  else None.

Fixpoint parseHexFrom (acc : Z) (s : string) : option Z :=
  match s with
  | EmptyString => Some acc
  | String c rest =>
      match hexValue c with
      | Some d => parseHexFrom (acc * 16 + d) rest
      | None => None
      end
  end.

(** [BigInt("0x" + s)]; [None] stands for the SyntaxError. *)
Definition bigIntOfHex (s : string) : option Z :=
  match s with
  | EmptyString => None
  | _ => parseHexFrom 0 s
  end.

Definition E : Z := Z.shiftl 1 52.
Definition MAX100 : Z := 100000.

(** [crash100]: the multiplier in hundredths, as a BigInt (whose division
    truncates), after the clamp to [MAX100]. *)
Definition crash100 (r : Z) : Z :=
  let c := Z.quot (100 * E - r) (E - r) in
  if MAX100 <? c then MAX100 else c.

(** The conversion of [crash100] to the returned number:
    [Number(crash100) / 100], the guard, [Math.floor(crash * 100) / 100]. *)
Definition crashOfHundredths (c100 : Z) : float :=
  let crash := (JsNumber.ofZ c100 / 100)%float in
  let crash :=
    if negb (JsNumber.isFinite crash) || PrimFloat.ltb crash 1 then 1%float
    else crash in
  (JsNumber.floor (crash * 100) / 100)%float.

(** The digest [h] of [crypto.createHmac("sha256", privateSeed)
    .update(publicSeed).digest("hex")]. *)
Definition hmacHex (publicSeed privateSeed : string) : string :=
  hexOfBytes (Sha256.hmac (bytesOfString privateSeed) (bytesOfString publicSeed)).

(** [crashPointFromSeeds(publicSeed, privateSeed)]. *)
Definition crashPointFromSeeds (publicSeed privateSeed : string) : option float :=
  let h := hmacHex publicSeed privateSeed in
  match bigIntOfHex (substring 0 13 h) with
  | Some r => Some (crashOfHundredths (crash100 r))
  | None => None
  end.

(** The first 52 bits of a digest, as an unsigned integer. *)
Definition first52 (digest : list Z) : Z :=
  fold_left (fun acc b => acc * 256 + b) (firstn 7 digest) 0 / 16.

(** The formula as the specification words it:
    floor((100 * 2^52 - r * 100) / (2^52 - r)), clamped to [100, 100000]. *)
Definition specCrash100 (r : Z) : Z :=
  Z.max 100 (Z.min 100000 ((100 * 2 ^ 52 - r * 100) / (2 ^ 52 - r))).

(** What the conversion of [c] hundredths to a number is checked for: the
    result is [c/100] or, when [crash * 100] rounds below [c], [(c-1)/100];
    it lies between 1 and 1000. *)
Definition crashOfHundredths_check (c : Z) : bool :=
  let res := crashOfHundredths c in
  (PrimFloat.Leibniz.eqb res (JsNumber.ofZ c / 100)%float
   || PrimFloat.Leibniz.eqb res (JsNumber.ofZ (c - 1) / 100)%float)
  && PrimFloat.leb 1 res && PrimFloat.leb res 1000.

(** Two seed pairs of the shape [createNewRound] draws (16 and 32 random
    bytes, in hexadecimal). *)
Definition privateSeed1 : string :=
  "0000000000000000000000000000000000000000000000000000000000000001".
Definition publicSeed2 : string := "00000000000000000000000000000002".
Definition publicSeed1c : string := "0000000000000000000000000000001c".

End CrashPoint.

(** ** Payout calculator: services/minesPayout.js *)

Module MinesPayout.

(** [HOUSE_EDGE = Number(process.env.HOUSE_EDGE ?? 0.025)]: the value used
    when the environment does not set one. *)
Definition HOUSE_EDGE_default : float := 0.025%float.

(** One iteration of the loop of [combination]:
    [result = (result * (n - (k - i))) / i]. *)
Definition combinationStep (n k : float) (result : float) (i : Z) : float :=
  let fi := JsNumber.ofZ i in
  (result * (n - (k - fi)) / fi)%float.

(** [combination(n, k)].  The loop [for (let i = 1; i <= k; i++)] runs for
    [i = 1, ..., floor(k)]. *)
Definition combination (n k : float) : float :=
  if PrimFloat.ltb k 0 || PrimFloat.ltb n k then 0%float
  else if PrimFloat.eqb k 0 || PrimFloat.eqb k n then 1%float
  else
    let k := JsNumber.min k (n - k)%float in
    fold_left (combinationStep n k)
              (zrange 1 (Z.to_nat (JsNumber.floorZ k))) 1%float.

Record Payout : Type := mkPayout {
  payoutAmount : float;
  multiplier : float;
  trueMultiplier : float;
  houseEdge : float
}.

(** [calculateMinesPayout({ mines, revealedGems, betAmount })]. *)
Definition calculateMinesPayout (HOUSE_EDGE : float)
    (mines revealedGems betAmount : float) : Payout :=
  let totalSlots := 25%float in
  let safeSlots := (totalSlots - mines)%float in
  if negb (JsNumber.isInteger revealedGems) || PrimFloat.ltb revealedGems 1
  then mkPayout 0 0 0 HOUSE_EDGE
  else
    let totalComb := combination totalSlots revealedGems in
    let safeComb := combination safeSlots revealedGems in
    let trueMultiplier := (totalComb / safeComb)%float in
    let multiplier := (trueMultiplier * (1 - HOUSE_EDGE))%float in
    let payoutAmount := JsNumber.floor (betAmount * multiplier)%float in
    mkPayout payoutAmount multiplier trueMultiplier HOUSE_EDGE.

End MinesPayout.

(** ** JavaScript values used by the handlers *)

Module Js.

Record Error : Type := mkError { errName : string; errMessage : string }.

(** The error thrown when an identifier that no scope binds is evaluated. *)
Definition ReferenceError (ident : string) : Error :=
  mkError "ReferenceError" (ident ++ " is not defined").

Definition TypeError (message : string) : Error := mkError "TypeError" message.
Definition PlainError (message : string) : Error := mkError "Error" message.

(** [String(e)] for an error object. *)
Definition stringOfError (e : Error) : string :=
  if (errMessage e =? "")%string then errName e
  else (errName e ++ ": " ++ errMessage e)%string.

Definition truthyString (s : string) : bool := negb (s =? "")%string.

(** [a || b] on values that are a string, or null or undefined. *)
Definition orString (a b : option string) : option string :=
  match a with
  | Some s => if truthyString s then a else b
  | None => b
  end.

(** [x || null] on a number that may be null. *)
Definition numberOrNull (x : option float) : option float :=
  match x with
  | Some v => if JsNumber.truthy v then x else None
  | None => None
  end.

(** Identifier resolution: [scope] lists the names bound where the
    expression is evaluated. *)
Definition bound (scope : list string) (ident : string) : bool :=
  existsb (String.eqb ident) scope.

End Js.

(** ** utils/validation.js *)

Module Validation.

Definition isSpace (c : ascii) : bool :=
  let n := Z.of_N (N_of_ascii c) in
  (n =? 32) || ((9 <=? n) && (n <=? 13)).

Fixpoint trimStart (s : string) : string :=
  match s with
  | EmptyString => EmptyString
  | String c rest => if isSpace c then trimStart rest else s
  end.

Definition reverse (s : string) : string :=
  string_of_list_ascii (rev (list_ascii_of_string s)).

Definition trim (s : string) : string :=
  reverse (trimStart (reverse (trimStart s))).

Definition upperChar (c : ascii) : ascii :=
  let n := N_of_ascii c in
  if ((97 <=? n) && (n <=? 122))%N then ascii_of_N (n - 32) else c.

Fixpoint toUpperCase (s : string) : string :=
  match s with
  | EmptyString => EmptyString
  | String c rest => String (upperChar c) (toUpperCase rest)
  end.

Definition isUpperAZ (c : ascii) : bool :=
  let n := N_of_ascii c in ((65 <=? n) && (n <=? 90))%N.

(** [isValidQubicPublicId]: the regular expression [/^[A-Z]{60}$/] on the
    trimmed string. *)
Definition isValidQubicPublicId (publicId : string) : bool :=
  Js.truthyString publicId
  && (let t := trim publicId in
      (Z.of_nat (String.length t) =? 60)
      && forallb isUpperAZ (list_ascii_of_string t)).

(** [normalizeQubicPublicId]; the argument may be undefined. *)
Definition normalizeQubicPublicId (publicId : option string) : string :=
  match publicId with
  | Some s => if Js.truthyString s then toUpperCase (trim s) else ""%string
  | None => ""%string
  end.

End Validation.

(** ** services/qubicPayout.js: the transfer to a player *)

Module QubicPayout.

(** What the network answers to the broadcast of a signed transaction; an
    error stands for any failure of the tick query, of the signature or of
    the broadcast. *)
Inductive Broadcast : Type :=
| BroadcastError (message : string)
| BroadcastResult (txId : string) (targetTick : Z).

(** The environment of the service: a configuration error (seed, public id
    or library classes missing) and the answer of the network to the [n]-th
    transfer. *)
Record Network : Type := mkNetwork {
  configError : option string;
  broadcast : nat -> string -> float -> Broadcast
}.

Record Receipt : Type := mkReceipt { receiptTxId : string; receiptTick : Z }.

(** [payFromCasinoToUser({ toPublicId, amount })], as the [n]-th transfer. *)
Definition payFromCasinoToUser (net : Network) (n : nat)
    (toPublicId : string) (amount : float) : Js.Error + Receipt :=
  match configError net with
  | Some message => inl (Js.PlainError message)
  | None =>
      if negb (JsNumber.isInteger amount) || PrimFloat.leb amount 0
      then inl (Js.PlainError "amount must be positive integer")
      else
        match broadcast net n toPublicId amount with
        | BroadcastError message => inl (Js.PlainError message)
        | BroadcastResult txId targetTick =>
            if Js.truthyString txId then inr (mkReceipt txId targetTick)
            else inl (Js.PlainError "RPC did not return txId")
        end
  end.

End QubicPayout.

(** ** models/Game.js: the Mines sessions table

    Of the two variants of the model kept in the repository, this is the one
    [routes/mine.js] relies on: the table [mine_sessions], which stores the
    layout and the revealed cells as bit masks, keeps the seeds and lets
    [findOne] filter on the payout status (as [/claim] does). *)

Module MineGame.

Inductive MineTag : Type := BOMB | GEM.

(** A cell of [datas]: [{ point, mine, mined }]; [mine] is null in the
    template the layout starts from. *)
Record Cell : Type := mkCell {
  point : Z;
  mine : option MineTag;
  mined : bool
}.

Inductive Status : Type := READY | LIVE | ENDED | EXPIRED.
Inductive PayoutStatus : Type := NONE | PENDING | SENT | FAILED.

Definition statusEqb (a b : Status) : bool :=
  match a, b with
  | READY, READY | LIVE, LIVE | ENDED, ENDED | EXPIRED, EXPIRED => true
  | _, _ => false
  end.

Definition payoutStatusEqb (a b : PayoutStatus) : bool :=
  match a, b with
  | NONE, NONE | PENDING, PENDING | SENT, SENT | FAILED, FAILED => true
  | _, _ => false
  end.

Definition isBomb (c : Cell) : bool :=
  match mine c with Some BOMB => true | _ => false end.

Definition isGem (c : Cell) : bool :=
  match mine c with Some GEM => true | _ => false end.

Definition MINE_CELL_COUNT : Z := 25.

(** [maskHas(mask, index)]: [((mask >>> index) & 1) === 1]. *)
Definition maskHas (mask index : Z) : bool :=
  Z.land (Z.shiftr mask index) 1 =? 1.

(** [buildMasksFromDatas(datas)]. *)
Definition buildMasksFromDatas (datas : list Cell) : Z * Z :=
  fold_left
    (fun (masks : Z * Z) (item : Cell) =>
       let (minesMask, revealedMask) := masks in
       let idx := point item in
       if (idx <? 0) || (MINE_CELL_COUNT <=? idx) then masks
       else
         (if isBomb item then Z.lor minesMask (Z.shiftl 1 idx) else minesMask,
          if mined item then Z.lor revealedMask (Z.shiftl 1 idx) else revealedMask))
    datas (0, 0).

(** [buildDatasFromMasks(minesMask, revealedMask)]. *)
Definition buildDatasFromMasks (minesMask revealedMask : Z) : list Cell :=
  map (fun i => mkCell i (Some (if maskHas minesMask i then BOMB else GEM))
                       (maskHas revealedMask i))
      (zrange 0 (Z.to_nat MINE_CELL_COUNT)).

(** A row of [mine_sessions]. *)
Record Row : Type := mkRow {
  row_id : Z;
  wallet_public_key : string;
  row_status : Status;
  mines_count : Z;
  bet_amount : Z;
  bet_tx_id : option string;
  public_seed : option string;
  private_seed_hash : option string;
  private_seed : option string;
  mines_mask : Z;
  revealed_mask : Z;
  payout_amount : option float;
  payout_tx_id : option string;
  payout_status : PayoutStatus;
  payout_error : option string;
  expires_at : option Z
}.

(** The object [findOne] returns for a row. *)
Record Game : Type := mkGame {
  id : Z;
  publicKey : string;
  status : Status;
  mines : Z;
  amount : Z;
  datas : list Cell;
  txId : option string;
  publicSeed : option string;
  privateSeedHash : option string;
  privateSeed : option string;
  minesMask : Z;
  revealedMask : Z;
  expiresAt : option Z;
  payoutAmount : option float;
  payoutTxId : option string;
  payoutStatus : PayoutStatus;
  payoutError : option string
}.

Definition gameOfRow (r : Row) : Game :=
  mkGame (row_id r) (wallet_public_key r) (row_status r) (mines_count r)
         (bet_amount r)
         (buildDatasFromMasks (mines_mask r) (revealed_mask r))
         (Js.orString (bet_tx_id r) None)
         (Js.orString (public_seed r) None)
         (Js.orString (private_seed_hash r) None)
         (Js.orString (private_seed r) None)
         (mines_mask r) (revealed_mask r) (expires_at r)
         (Js.numberOrNull (payout_amount r))
         (Js.orString (payout_tx_id r) None)
         (payout_status r)
         (Js.orString (payout_error r) None).

(** The filters [findOne] understands; an absent or falsy filter is [None]. *)
Record Filters : Type := mkFilters {
  f_id : option Z;
  f_publicKey : option string;
  f_status : option Status;
  f_payoutStatus : option PayoutStatus;
  f_expiresAfter : option Z
}.

Definition noFilters : Filters := mkFilters None None None None None.

Definition optionMatches {A : Type} (eqb : A -> A -> bool)
    (wanted : option A) (actual : A) : bool :=
  match wanted with
  | Some v => eqb v actual
  | None => true
  end.

Definition rowMatches (filters : Filters) (r : Row) : bool :=
  optionMatches Z.eqb (f_id filters) (row_id r)
  && optionMatches String.eqb (f_publicKey filters) (wallet_public_key r)
  && optionMatches statusEqb (f_status filters) (row_status r)
  && optionMatches payoutStatusEqb (f_payoutStatus filters) (payout_status r)
  && match f_expiresAfter filters with
     | Some now =>
         match expires_at r with
         | Some t => now <? t
         | None => false
         end
     | None => true
     end.

(** [MineGame.findOne(filters)]: the rows are kept most recent first, as the
    query orders them ([ORDER BY created_at DESC LIMIT 1]). *)
Definition findOne (filters : Filters) (rows : list Row) : option Game :=
  option_map gameOfRow (find (rowMatches filters) rows).

(** The fields [findByIdAndUpdate] writes; [None] is an absent
    ([undefined]) field.  [revealedGems] and [multiplier] have no column. *)
Record Updates : Type := mkUpdates {
  u_status : option Status;
  u_datas : option (list Cell);
  u_payoutAmount : option float;
  u_payoutTxId : option (option string);
  u_payoutStatus : option PayoutStatus;
  u_payoutError : option (option string);
  u_revealedGems : option Z
}.

Definition noUpdates : Updates :=
  mkUpdates None None None None None None None.

Definition orKeep {A : Type} (new : option A) (old : A) : A :=
  match new with
  | Some v => v
  | None => old
  end.

Definition applyUpdates (u : Updates) (r : Row) : Row :=
  mkRow (row_id r) (wallet_public_key r)
        (orKeep (u_status u) (row_status r))
        (mines_count r) (bet_amount r) (bet_tx_id r)
        (public_seed r) (private_seed_hash r) (private_seed r)
        (mines_mask r)
        (match u_datas u with
         | Some ds => snd (buildMasksFromDatas ds)
         | None => revealed_mask r
         end)
        (match u_payoutAmount u with
         | Some v => Some v
         | None => payout_amount r
         end)
        (match u_payoutTxId u with
         | Some v => Js.orString v None
         | None => payout_tx_id r
         end)
        (orKeep (u_payoutStatus u) (payout_status r))
        (match u_payoutError u with
         | Some v => Js.orString v None
         | None => payout_error r
         end)
        (expires_at r).

(** [MineGame.findByIdAndUpdate(id, updates)]:
    [UPDATE mine_sessions SET ... WHERE id = ?]. *)
Definition findByIdAndUpdate (gameId : Z) (u : Updates) (rows : list Row)
  : list Row :=
  map (fun r => if row_id r =? gameId then applyUpdates u r else r) rows.

End MineGame.

(** ** routes/mine.js: the Mines session handlers *)

Module MineRoutes.

Import MineGame.

(** *** The mine layout *)

(** The loop that places the mines:
    [while (minePositions.length < mines) { pos = Math.floor(Math.random() * 25);
    if (!minePositions.includes(pos)) minePositions.push(pos); }].
    [draws] are the successive values of [Math.floor(Math.random() * 25)];
    [None] means that the loop is still running when they are exhausted. *)
Fixpoint placeMines (mines : Z) (draws : list Z) (minePositions : list Z)
  : option (list Z) :=
  if Z.of_nat (List.length minePositions) <? mines then
    match draws with
    | [] => None
    | pos :: rest =>
        if existsb (Z.eqb pos) minePositions
        then placeMines mines rest minePositions
        else placeMines mines rest (minePositions ++ [pos])
    end
  else Some minePositions.

(** The template: 25 slots, [{ point: i, mine: null, mined: false }]. *)
Definition initialDatas : list Cell :=
  map (fun i => mkCell i None false) (zrange 0 25).

Definition markMines (minePositions : list Z) (datas : list Cell) : list Cell :=
  map (fun item =>
         mkCell (point item)
                (Some (if existsb (Z.eqb (point item)) minePositions
                       then BOMB else GEM))
                (mined item))
      datas.

(** [buildInitialDatas(mines)], and the same code inlined in [/create]. *)
Definition buildInitialDatas (mines : Z) (draws : list Z) : option (list Cell) :=
  option_map (fun minePositions => markMines minePositions initialDatas)
             (placeMines mines draws []).

(** The [gameData] that [/create] hands to [MineGame.create]. *)
Record GameData : Type := mkGameData {
  gd_publicKey : string;
  gd_status : Status;
  gd_mines : Z;
  gd_amount : Z;
  gd_datas : list Cell;
  gd_txId : option string;
  gd_expiresAt : Z;
  gd_publicSeed : string;
  gd_privateSeed : string;
  gd_privateSeedHash : string
}.

(** [sha256Hex(str)]. *)
Definition sha256Hex (s : string) : string :=
  hexOfBytes (Sha256.sha256 (bytesOfString s)).

(** The body of [/create] once the request is validated: the layout is
    drawn first, from [Math.random]; the two seeds are then read from
    [crypto.randomBytes(32)] ([publicBytes], [privateBytes]). *)
Definition createGameData (wallet : string) (mines amount : Z)
    (txId : option string) (now : Z)
    (draws publicBytes privateBytes : list Z) : option GameData :=
  match placeMines mines draws [] with
  | None => None
  | Some minePositions =>
      let publicSeed := hexOfBytes publicBytes in
      let privateSeed := hexOfBytes privateBytes in
      Some (mkGameData wallet LIVE mines amount
              (markMines minePositions initialDatas)
              txId (now + 5 * 60 * 1000)
              publicSeed privateSeed (sha256Hex privateSeed))
  end.

(** The cells that are mines, by index. *)
Definition minePoints (datas : list Cell) : list Z :=
  map point (filter isBomb datas).

(** [countRevealedGems(datas)]. *)
Definition countRevealedGems (datas : list Cell) : Z :=
  Z.of_nat (List.length (filter (fun d => mined d && isGem d) datas)).

Definition openedPoints (datas : list Cell) : list Z :=
  map point (filter mined datas).

(** *** The world of a handler *)

Record TransferCall : Type := mkTransferCall {
  toPublicId : string;
  transferAmount : float;
  rowsAtCall : list Row
}.

Record Move : Type := mkMove { session_id : Z; cell : Z; hit_mine : bool }.

(** The table, the transfers requested so far (with the table as it was
    when each was requested) and the recorded moves. *)
Record World : Type := mkWorld {
  rows : list Row;
  transfers : list TransferCall;
  moves : list Move
}.

Inductive Outcome (A : Type) : Type :=
| Return (a : A)
| Throw (e : Js.Error).
Arguments Return {A} a.
Arguments Throw {A} e.

Definition M (A : Type) : Type := World -> Outcome A * World.

Definition ret {A : Type} (a : A) : M A := fun w => (Return a, w).
Definition throw {A : Type} (e : Js.Error) : M A := fun w => (Throw e, w).

Definition bind {A B : Type} (m : M A) (k : A -> M B) : M B :=
  fun w =>
    match m w with
    | (Return a, w') => k a w'
    | (Throw e, w') => (Throw e, w')
    end.

Definition tryCatch {A : Type} (m : M A) (handler : Js.Error -> M A) : M A :=
  fun w =>
    match m w with
    | (Return a, w') => (Return a, w')
    | (Throw e, w') => handler e w'
    end.

Notation "x <- m ;; k" := (bind m (fun x => k))
  (at level 61, m at next level, right associativity).
Notation "m ;;; k" := (bind m (fun _ => k))
  (at level 61, right associativity).

Definition dbFindOne (filters : Filters) : M (option Game) :=
  fun w => (Return (findOne filters (rows w)), w).

Definition dbUpdate (gameId : Z) (u : Updates) : M unit :=
  fun w => (Return tt,
            mkWorld (findByIdAndUpdate gameId u (rows w)) (transfers w) (moves w)).

(** [recordMineMove]: a failed insert is only logged. *)
Definition recordMineMove (sessionId cellIndex : Z) (hitMine : bool) : M unit :=
  fun w => (Return tt,
            mkWorld (rows w) (transfers w)
                    (moves w ++ [mkMove sessionId cellIndex hitMine])).

(** Evaluating an identifier in a scope. *)
Definition evalIdent (scope : list string) (ident : string) : M unit :=
  fun w =>
    if Js.bound scope ident then (Return tt, w)
    else (Throw (Js.ReferenceError ident), w).

(** The names bound at the top level of the module: its imports and its
    function declarations. *)
Definition moduleScope : list string :=
  ["require"; "module"; "exports"; "console"; "process";
   "express"; "router"; "MineGame"; "query"; "crypto";
   "isValidQubicPublicId"; "normalizeQubicPublicId";
   "calculateMinesPayout"; "payFromCasinoToUser";
   "sha256Hex"; "recordMineMove"; "buildInitialDatas";
   "parseDatasMaybeString"; "countRevealedGems"; "applyPickToDatas";
   "createMineGameInternal"; "pickMineTileInternal";
   "cashoutMineGameInternal"]%string.

(** A call [await callee({ toPublicId, amount })]: the callee is resolved
    first; the only transfer function of the module is the imported
    [payFromCasinoToUser]. *)
Definition callTransfer (net : QubicPayout.Network) (scope : list string)
    (callee : string) (to : string) (amount : float) : M QubicPayout.Receipt :=
  evalIdent scope callee ;;;
  if (callee =? "payFromCasinoToUser")%string then
    fun w =>
      let w' := mkWorld (rows w)
                        (transfers w ++ [mkTransferCall to amount (rows w)])
                        (moves w) in
      match QubicPayout.payFromCasinoToUser net (List.length (transfers w))
                                            to amount with
      | inr receipt => (Return receipt, w')
      | inl e => (Throw e, w')
      end
  else throw (Js.TypeError (callee ++ " is not a function")).

(** *** Requests and responses *)

Record Request : Type := mkRequest {
  body_gameId : option Z;
  body_publicId : option string;
  body_publicKey : option string;
  body_point : option Z;
  header_publicId : option string;
  now : Z
}.

Inductive Body : Type :=
| ErrorBody (error : string)
| RetryFailedBody (error details : string)
| EndBody (gameId : Z) (opened : list Z) (cells : list Cell)
          (payoutTxId : option string) (payoutAmount : option float)
          (multiplier : option float) (payoutTick : option Z)
| RevealBody (status : string) (cells : list Cell)
| ClaimedBody (gameId : Z) (payoutAmount : option float)
              (payoutTxId : string) (payoutTick : Z).

Record Response : Type := mkResponse { statusCode : Z; body : Body }.

Definition responsePayoutAmount (r : Response) : option float :=
  match body r with
  | EndBody _ _ _ _ a _ _ => a
  | ClaimedBody _ a _ _ => a
  | _ => None
  end.

Definition responsePayoutTxId (r : Response) : option string :=
  match body r with
  | EndBody _ _ _ t _ _ _ => t
  | ClaimedBody _ _ t _ => Some t
  | _ => None
  end.

(** A handler runs to a response; an error that escapes it is answered by
    the global error handler of the server. *)
Definition respond (m : M Response) (w : World) : Response * World :=
  match m w with
  | (Return r, w') => (r, w')
  | (Throw e, w') => (mkResponse 500 (ErrorBody (Js.errMessage e)), w')
  end.

Definition messageOr (e : Js.Error) (fallback : string) : string :=
  if Js.truthyString (Js.errMessage e) then Js.errMessage e else fallback.

(** [String(payoutError?.message || payoutError)]. *)
Definition errorText (e : Js.Error) : string :=
  if Js.truthyString (Js.errMessage e) then Js.errMessage e
  else Js.stringOfError e.

(** *** POST /cashout *)

Definition truthyOption (s : option string) : bool :=
  match s with
  | Some v => Js.truthyString v
  | None => false
  end.

Definition cashoutScope : list string :=
  moduleScope ++ ["req"; "res"; "gameId"; "publicId"; "publicKey"; "wallet";
                  "requesterPublicId"; "gameIdNum"; "game"; "owner"; "datas";
                  "revealedGems"; "payout"; "payoutTx"]%string.

Definition json (b : Body) : M Response := ret (mkResponse 200 b).
Definition jsonStatus (code : Z) (b : Body) : M Response := ret (mkResponse code b).

(** The payout of a session, as [/cashout] computes it. *)
Definition payoutOf (HOUSE_EDGE : float) (game : Game) : MinesPayout.Payout :=
  MinesPayout.calculateMinesPayout HOUSE_EDGE
    (JsNumber.ofZ (mines game))
    (JsNumber.ofZ (countRevealedGems (datas game)))
    (JsNumber.ofZ (amount game)).

(** The handler from [const datas = ...] on: the session is found and the
    requester is its owner. *)
Definition cashoutSettle (HOUSE_EDGE : float) (net : QubicPayout.Network)
    (game : Game) (owner : string) : M Response :=
  let cells := datas game in
  (* Idempotent: if already ended, just return success *)
  if negb (statusEqb (status game) LIVE)
  then jsonStatus 200
         (EndBody (id game) (openedPoints cells) cells
                  (Js.orString (payoutTxId game) None)
                  (Js.numberOrNull (payoutAmount game))
                  None None)
  else
  let revealedGems := countRevealedGems cells in
  let payout := payoutOf HOUSE_EDGE game in
  if PrimFloat.leb (MinesPayout.payoutAmount payout) 0
  then jsonStatus 400 (ErrorBody "Cashout requires at least 1 revealed GEM")
  else
  (* 1) End game in DB first (prevents double cashout) *)
  dbUpdate (id game)
    (mkUpdates (Some ENDED) None (Some (MinesPayout.payoutAmount payout))
               None None None (Some revealedGems)) ;;;
  (* 2) Pay user from casino hot wallet *)
  payoutTx <-
    tryCatch
      (callTransfer net cashoutScope "payFromCasinoToUser" owner
                    (MinesPayout.payoutAmount payout))
      (fun payoutError =>
         (* Revert game status if payout fails *)
         dbUpdate (id game)
           (mkUpdates (Some LIVE) None None None (Some FAILED)
                      (Some (Some (errorText payoutError))) None) ;;;
         throw payoutError) ;;
  (* 3) Store payout txId *)
  dbUpdate (id game)
    (mkUpdates None None None
               (Some (Some (QubicPayout.receiptTxId payoutTx)))
               (Some SENT) (Some None) None) ;;;
  updated <- dbFindOne (mkFilters (Some (id game)) None None None None) ;;
  match updated with
  | None => throw (Js.TypeError "Cannot read properties of null (reading 'datas')")
  | Some updatedGame =>
      json (EndBody (id game) (openedPoints (datas updatedGame))
                    (datas updatedGame)
                    (Some (QubicPayout.receiptTxId payoutTx))
                    (Some (MinesPayout.payoutAmount payout))
                    (Some (MinesPayout.multiplier payout))
                    (Some (QubicPayout.receiptTick payoutTx)))
  end.

(** The wallet a request names: [publicKey || publicId || req.headers['x-public-id']]. *)
Definition requestWallet (req : Request) : option string :=
  Js.orString (Js.orString (body_publicKey req) (body_publicId req))
              (header_publicId req).

Definition cashoutBody (HOUSE_EDGE : float) (net : QubicPayout.Network)
    (req : Request) : M Response :=
  let wallet := requestWallet req in
  match body_gameId req with
  | None => jsonStatus 400 (ErrorBody "gameId and publicKey/publicId are required")
  | Some gameId =>
  if (gameId =? 0) || negb (truthyOption wallet)
  then jsonStatus 400 (ErrorBody "gameId and publicKey/publicId are required")
  else
  let requesterPublicId := Validation.normalizeQubicPublicId wallet in
  if negb (Validation.isValidQubicPublicId requesterPublicId)
  then jsonStatus 400 (ErrorBody "Invalid Qubic publicId/publicKey")
  else
  let gameIdNum := gameId in
  if gameIdNum <=? 0
  then jsonStatus 400 (ErrorBody "gameId is required (integer)")
  else
  found <- dbFindOne (mkFilters (Some gameIdNum) None None None None) ;;
  match found with
  | None => jsonStatus 404 (ErrorBody "Game not found")
  | Some game =>
  let owner := Validation.normalizeQubicPublicId (Some (publicKey game)) in
  if negb (Validation.isValidQubicPublicId owner)
  then jsonStatus 500 (ErrorBody "Game owner public key is missing/invalid in DB")
  else
  (* Block stealing other users' games *)
  if negb (owner =? requesterPublicId)%string
  then jsonStatus 403 (ErrorBody "Forbidden: not your game")
  else cashoutSettle HOUSE_EDGE net game owner
  end
  end.

Definition cashout (HOUSE_EDGE : float) (net : QubicPayout.Network)
    (req : Request) : World -> Response * World :=
  respond
    (tryCatch (cashoutBody HOUSE_EDGE net req)
       (fun error =>
          jsonStatus 500 (ErrorBody (messageOr error "cashout failed")))).

(** *** POST /bet *)

(** [datas.findIndex(d => d.point === point)]; [None] is [-1]. *)
Fixpoint findIndex (p : Z) (cells : list Cell) : option nat :=
  match cells with
  | [] => None
  | c :: rest =>
      if point c =? p then Some O
      else option_map S (findIndex p rest)
  end.

(** [datas[slotIndex].mined = true]. *)
Fixpoint setMined (slotIndex : nat) (cells : list Cell) : list Cell :=
  match cells, slotIndex with
  | [], _ => []
  | c :: rest, O => mkCell (point c) (mine c) true :: rest
  | c :: rest, S k => c :: setMined k rest
  end.

(** The names bound in the handler of [/bet] where the move is recorded. *)
Definition betLocals (point : Z) (slotIndex : nat) : list (string * Z) :=
  [("point", point); ("slotIndex", Z.of_nat slotIndex)]%string.

Definition betScope : list string :=
  moduleScope ++ ["req"; "res"; "point"; "publicId"; "game"; "slotIndex";
                  "isBomb"; "updateData"]%string.

(** Reading a numeric variable. *)
Definition readNumber (scope : list string) (locals : list (string * Z))
    (ident : string) : M Z :=
  evalIdent scope ident ;;;
  match find (fun kv => (fst kv =? ident)%string) locals with
  | Some kv => ret (snd kv)
  | None => throw (Js.TypeError (ident ++ " is not a number"))
  end.

Definition betBody (req : Request) : M Response :=
  let publicId :=
    Validation.normalizeQubicPublicId
      (Js.orString (body_publicId req) (header_publicId req)) in
  if negb (Validation.isValidQubicPublicId publicId)
  then jsonStatus 400 (ErrorBody "Invalid Qubic publicId (identity).")
  else
  match body_point req with
  | None => jsonStatus 400 (ErrorBody "Invalid point (must be integer 0-24)")
  | Some point =>
  if (point <? 0) || (25 <=? point)
  then jsonStatus 400 (ErrorBody "Invalid point (must be integer 0-24)")
  else
  found <- dbFindOne (mkFilters None (Some publicId) (Some LIVE) None
                                (Some (now req))) ;;
  match found with
  | None => jsonStatus 404 (ErrorBody "No active game found")
  | Some game =>
  (* Find and update the slot *)
  match findIndex point (datas game) with
  | None => jsonStatus 400 (ErrorBody "Invalid or already mined slot")
  | Some slotIndex =>
  if match nth_error (datas game) slotIndex with
     | Some c => mined c
     | None => false
     end
  then jsonStatus 400 (ErrorBody "Invalid or already mined slot")
  else
  (* Update the datas array (of the object in memory) *)
  let cells := setMined slotIndex (datas game) in
  let isBombHit :=
    match nth_error cells slotIndex with
    | Some c => isBomb c
    | None => false
    end in
  let locals := betLocals point slotIndex in
  tileIndex <- readNumber betScope locals "tileIndex" ;;
  recordMineMove (id game) tileIndex isBombHit ;;;
  tileIndex' <- readNumber betScope locals "tileIndex" ;;
  recordMineMove (id game) tileIndex' isBombHit ;;;
  point' <- readNumber betScope locals "point" ;;
  recordMineMove (id game) point' isBombHit ;;;
  if isBombHit then
    dbUpdate (id game)
      (mkUpdates (Some ENDED) (Some cells) None None None None None) ;;;
    json (RevealBody "END" cells)
  else
    if forallb mined (filter isGem cells) then
      dbUpdate (id game)
        (mkUpdates (Some ENDED) (Some cells) None None None None None) ;;;
      json (RevealBody "END" cells)
    else
      dbUpdate (id game)
        (mkUpdates None (Some cells) None None None None None) ;;;
      json (RevealBody "BET" cells)
  end
  end
  end.

Definition bet (req : Request) : World -> Response * World :=
  respond
    (tryCatch (betBody req)
       (fun error => jsonStatus 500 (ErrorBody (Js.errMessage error)))).

(** *** POST /claim *)

Definition claimScope : list string :=
  moduleScope ++ ["req"; "res"; "publicIdHeader"; "requesterPublicId";
                  "gameId"; "game"; "hitBomb"; "payoutTx"]%string.

Definition claimBody (net : QubicPayout.Network) (req : Request) : M Response :=
  let requesterPublicId :=
    Validation.normalizeQubicPublicId
      (Js.orString (body_publicId req) (header_publicId req)) in
  if negb (Validation.isValidQubicPublicId requesterPublicId)
  then jsonStatus 400 (ErrorBody "Invalid Qubic publicId")
  else
  let idFilter :=
    match body_gameId req with
    | Some g => if g =? 0 then None else Some g
    | None => None
    end in
  (* Find game owned by requester with FAILED payout *)
  found <- dbFindOne (mkFilters idFilter (Some requesterPublicId) None
                                (Some FAILED) None) ;;
  match found with
  | None => jsonStatus 404 (ErrorBody "No failed payout found for this game")
  | Some game =>
  if negb (publicKey game =? requesterPublicId)%string
  then jsonStatus 403 (ErrorBody "Game does not belong to requester")
  else
  (* Check if game ended safely (no bomb hit) *)
  if existsb (fun d => mined d && isBomb d) (datas game)
  then jsonStatus 400
         (ErrorBody "Cannot claim payout for games where a bomb was hit")
  else
  match payoutAmount game with
  | None => jsonStatus 400 (ErrorBody "Invalid payout amount")
  | Some amountDue =>
  if negb (JsNumber.truthy amountDue) || PrimFloat.leb amountDue 0
  then jsonStatus 400 (ErrorBody "Invalid payout amount")
  else
  (* Mark as pending again *)
  dbUpdate (id game)
    (mkUpdates None None None None (Some PENDING) (Some None) None) ;;;
  (* Retry payout transfer *)
  attempt <-
    tryCatch
      (payoutTx <- callTransfer net claimScope "payUserFromCasino"
                                (publicKey game) amountDue ;;
       ret (inr payoutTx))
      (fun e =>
         dbUpdate (id game)
           (mkUpdates None None None None (Some FAILED)
                      (Some (Some (errorText e))) None) ;;;
         ret (inl (mkResponse 502
                     (RetryFailedBody "Payout retry failed" (Js.errMessage e))))) ;;
  match attempt with
  | inl failure => ret failure
  | inr payoutTx =>
      (* Mark as paid *)
      dbUpdate (id game)
        (mkUpdates None None None
                   (Some (Some (QubicPayout.receiptTxId payoutTx)))
                   (Some SENT) (Some None) None) ;;;
      json (ClaimedBody (id game) (payoutAmount game)
                        (QubicPayout.receiptTxId payoutTx)
                        (QubicPayout.receiptTick payoutTx))
  end
  end
  end.

Definition claim (net : QubicPayout.Network) (req : Request)
  : World -> Response * World :=
  respond
    (tryCatch (claimBody net req)
       (fun error => jsonStatus 500 (ErrorBody (Js.errMessage error)))).

End MineRoutes.

(** ** Sessions used as examples *)

(** A session with three mines (cells 0, 1, 2), a stake of 1000 and the five
    safe cells 3 to 7 revealed. *)
Definition row_3_1000_5 : MineGame.Row :=
  MineGame.mkRow 1 "AAAAAAAAAAAAAAAAAAAAAAAAAAAAAAAAAAAAAAAAAAAAAAAAAAAAAAAAAAAA"
    MineGame.LIVE 3 1000 None None None None 7 248 None None MineGame.NONE None
    (Some 1000).

(** Entropy for two [/create] requests: the seeds read from
    [crypto.randomBytes] and two sequences of [Math.random] draws. *)
Definition seedBytesA : list Z := repeat 171 32.
Definition seedBytesB : list Z := repeat 18 32.
Definition drawsA : list Z := [0; 1; 1; 2].
Definition drawsB : list Z := [5; 6; 7].
Definition walletA : string :=
  "AAAAAAAAAAAAAAAAAAAAAAAAAAAAAAAAAAAAAAAAAAAAAAAAAAAAAAAAAAAA".

(** ** Sessions reached by a request *)

Module MineSpec.

Import MineGame MineRoutes.

Definition byId (gameId : Z) : Filters :=
  mkFilters (Some gameId) None None None None.

(** The session a [/cashout] request reaches: the request names a game and a
    valid wallet, the session exists and the wallet is its owner. *)
Definition cashoutTarget (req : Request) (w : World) : option Game :=
  match body_gameId req with
  | None => None
  | Some gameId =>
      let requester := Validation.normalizeQubicPublicId (requestWallet req) in
      if (0 <? gameId) && truthyOption (requestWallet req)
         && Validation.isValidQubicPublicId requester
      then
        match findOne (byId gameId) (rows w) with
        | None => None
        | Some game =>
            let owner := Validation.normalizeQubicPublicId (Some (publicKey game)) in
            if Validation.isValidQubicPublicId owner && (owner =? requester)%string
            then Some game
            else None
        end
      else None
  end.

(** The row of a session in the table. *)
Definition rowOf (gameId : Z) (w : World) : option Row :=
  find (rowMatches (byId gameId)) (rows w).

(** The handler that answers an error escaping [/cashout]. *)
Definition cashoutCatch (error : Js.Error) : M Response :=
  jsonStatus 500 (ErrorBody (messageOr error "cashout failed")).

End MineSpec.

(** A table holding that session, a cashout request of its owner, and two
    networks: one that accepts every transfer, one that fails. *)
Definition world1 : MineRoutes.World := MineRoutes.mkWorld [row_3_1000_5] [] [].

Definition cashoutRequest1 : MineRoutes.Request :=
  MineRoutes.mkRequest (Some 1) (Some walletA) None None None 500.

Definition networkUp : QubicPayout.Network :=
  QubicPayout.mkNetwork None
    (fun _ _ _ => QubicPayout.BroadcastResult "TXID-1" 4242).

Definition networkDown : QubicPayout.Network :=
  QubicPayout.mkNetwork None
    (fun _ _ _ => QubicPayout.BroadcastError "timeout of 20000ms exceeded").

(** The same session after a failed payout: LIVE again, payout status
    FAILED, the amount due recorded. *)
Definition row_failed_payout : MineGame.Row :=
  MineGame.mkRow 1 walletA MineGame.LIVE 3 1000 None None None None 7 248
    (Some 1967%float) None MineGame.FAILED
    (Some "timeout of 20000ms exceeded"%string) (Some 1000).

Definition world_failed_payout : MineRoutes.World :=
  MineRoutes.mkWorld [row_failed_payout] [] [].

Definition claimRequest1 : MineRoutes.Request :=
  MineRoutes.mkRequest (Some 1) (Some walletA) None None None 500.

Definition betRequest1 : MineRoutes.Request :=
  MineRoutes.mkRequest None (Some walletA) None (Some 10) None 500.

(** ** sockets/crash.js: the Crash round machine

    The state is the runtime state of [initCrash]; timers and the clock are
    outside the model: the events that fire ([createNewRound], [startRound],
    a tick, a [join-game] message) are given, a tick with the value of
    [computePayout(Date.now() - startedAtMs)].  Each event runs to its end
    before the next one; the dates stored in the objects are left out. *)

Module Crash.

Inductive GameStatus : Type :=
  NotStarted | Starting | InProgress | Over | Blocking | Refunded.

(** The [status] of a player: ["bet"], ["cashedout"], ["lost"]. *)
Inductive PlayerStatus : Type := Bet | CashedOut | Lost.

Record Player : Type := mkPlayer {
  playerID : string;
  socketId : string;
  publicId : string;
  betAmount : float;
  target : float;
  currencyId : option string;
  txId : string;
  status : PlayerStatus;
  stoppedAt : option float;
  cashoutMultiplier : option float;
  winAmount : option float;
  payoutTxId : option string;
  payoutError : option string
}.

Record Game : Type := mkGame {
  gameId : string;
  gameStatus : GameStatus;
  revealedCrashPoint : option float;
  publicSeed : string;
  privateSeed : string;
  privateHash : string;
  players : list Player
}.

Record HistoryEntry : Type := mkHistoryEntry {
  h_id : string;
  h_crashPoint : float;
  h_publicSeed : string;
  h_privateHash : string
}.

Record Transfer : Type := mkTransfer { toPublicId : string; amount : float }.

(** The variables of the closure, and the transfers requested so far. *)
Record State : Type := mkState {
  currentGame : option Game;
  history : list HistoryEntry;
  ticking : bool;
  currentPayout : float;
  crashPoint : float;
  transfers : list Transfer
}.

Definition initialState : State := mkState None [] false 1 0 [].

Definition isBet (p : Player) : bool :=
  match status p with Bet => true | _ => false end.

Definition withPlayers (g : Game) (ps : list Player) : Game :=
  mkGame (gameId g) (gameStatus g) (revealedCrashPoint g) (publicSeed g)
         (privateSeed g) (privateHash g) ps.

(** [createNewRound()], with the bytes read from [crypto.randomBytes]. *)
Definition createNewRound (publicBytes privateBytes idBytes : list Z)
    (st : State) : State :=
  let publicSeed := hexOfBytes publicBytes in
  let privateSeed := hexOfBytes privateBytes in
  let privateHash := hexOfBytes (Sha256.sha256 (bytesOfString privateSeed)) in
  match CrashPoint.crashPointFromSeeds publicSeed privateSeed with
  | None => st
  | Some cp =>
      mkState (Some (mkGame (hexOfBytes idBytes) Starting None
                            publicSeed privateSeed privateHash []))
              (history st) false 1 cp (transfers st)
  end.

(** [startRound()]: a round without players keeps waiting. *)
Definition startRound (st : State) : State :=
  match currentGame st with
  | None => st
  | Some g =>
      match players g with
      | [] => st
      | _ =>
          mkState (Some (mkGame (gameId g) InProgress (revealedCrashPoint g)
                                (publicSeed g) (privateSeed g) (privateHash g)
                                (players g)))
                  (history st) true (currentPayout st) (crashPoint st)
                  (transfers st)
      end
  end.

(** The body of the loop of the tick for one player: auto-cashout when the
    target is reached, at the current payout. *)
Definition autoCashoutPlayer (net : QubicPayout.Network) (payout : float)
    (p : Player) (log : list Transfer) : Player * list Transfer :=
  if isBet p && JsNumber.truthy (target p) && PrimFloat.leb (target p) payout
  then
    let cashMult := payout in
    let win := JsNumber.floor (betAmount p * cashMult)%float in
    let cashed txid err :=
      mkPlayer (playerID p) (socketId p) (publicId p) (betAmount p) (target p)
               (currencyId p) (txId p) CashedOut (Some cashMult) (Some cashMult)
               (Some win) txid err in
    if PrimFloat.ltb 0 win then
      match QubicPayout.payFromCasinoToUser net (List.length log)
                                            (publicId p) win with
      | inr receipt =>
          (cashed (Some (QubicPayout.receiptTxId receipt)) (payoutError p),
           log ++ [mkTransfer (publicId p) win])
      | inl e =>
          (* Continue anyway - payout error logged but player still cashed out *)
          (cashed (payoutTxId p) (Some (Js.errMessage e)),
           log ++ [mkTransfer (publicId p) win])
      end
    else (cashed (payoutTxId p) (payoutError p), log)
  else (p, log).

(** [for (const p of players) { ... }] of the tick. *)
Fixpoint autoCashout (net : QubicPayout.Network) (payout : float)
    (ps : list Player) (log : list Transfer) : list Player * list Transfer :=
  match ps with
  | [] => ([], log)
  | p :: rest =>
      let (p', log1) := autoCashoutPlayer net payout p log in
      let (rest', log2) := autoCashout net payout rest log1 in
      (p' :: rest', log2)
  end.

Definition markLost (p : Player) : Player :=
  if isBet p then
    mkPlayer (playerID p) (socketId p) (publicId p) (betAmount p) (target p)
             (currencyId p) (txId p) Lost (stoppedAt p) (cashoutMultiplier p)
             (winAmount p) (payoutTxId p) (payoutError p)
  else p.

(** [endRound()]. *)
Definition endRound (st : State) : State :=
  match currentGame st with
  | None => mkState None (history st) false (currentPayout st) (crashPoint st)
                    (transfers st)
  | Some g =>
      let ended :=
        mkGame (gameId g) Over (Some (crashPoint st)) (publicSeed g)
               (privateSeed g) (privateHash g) (map markLost (players g)) in
      mkState (Some ended)
              (firstn 30 (mkHistoryEntry (gameId g) (crashPoint st)
                                         (publicSeed g) (privateHash g)
                          :: history st))
              false (currentPayout st) (crashPoint st) (transfers st)
  end.

(** One tick of the interval, with [payout = computePayout(elapsed)]:
    auto-cashout before the crash check. *)
Definition tick (net : QubicPayout.Network) (payout : float) (st : State)
  : State :=
  match currentGame st with
  | None => st
  | Some g =>
      let (ps, log) := autoCashout net payout (players g) (transfers st) in
      let g' := withPlayers g ps in
      if PrimFloat.leb (crashPoint st) payout then
        endRound (mkState (Some g') (history st) (ticking st) (crashPoint st)
                          (crashPoint st) log)
      else
        mkState (Some g') (history st) (ticking st) payout (crashPoint st) log
  end.

(** The ticks of a round: the interval fires until [endRound] clears it. *)
Fixpoint runTicks (net : QubicPayout.Network) (payouts : list float)
    (st : State) : State :=
  match payouts with
  | [] => st
  | payout :: rest =>
      if ticking st then runTicks net rest (tick net payout st) else st
  end.

(** A connected socket and the payload of [join-game]. *)
Record Socket : Type := mkSocket { socket_id : string; wallet : option string }.

Record Payload : Type := mkPayload {
  p_target : float;
  p_betAmount : float;
  p_currencyId : option string;
  p_txId : option string
}.

Inductive JoinResult : Type :=
| JoinError (message : string)
| JoinSuccess (player : Player).

(** [normalizeWalletId(v)]. *)
Definition normalizeWalletId (v : option string) : string :=
  match v with
  | Some s => if Js.truthyString s then Validation.trim s else ""%string
  | None => ""%string
  end.

(** The handler of [join-game]; [idBytes] are the random bytes of the
    player id. *)
Definition joinGame (socket : Socket) (payload : option Payload)
    (idBytes : list Z) (st : State) : State * JoinResult :=
  match currentGame st with
  | None => (st, JoinError "No game available yet")
  | Some g =>
  match gameStatus g with
  | Starting =>
  match payload with
  | None => (st, JoinError "Invalid payload")
  | Some pl =>
  let target := (p_target pl / 100)%float in
  let betAmount := p_betAmount pl in
  match p_txId pl with
  | None => (st, JoinError "Missing txId (transaction required)")
  | Some txId =>
  if negb (Js.truthyString txId)
  then (st, JoinError "Missing txId (transaction required)")
  else if negb (JsNumber.isFinite target) || PrimFloat.ltb target 1.01
  then (st, JoinError "Invalid target multiplier")
  else if negb (JsNumber.isFinite betAmount) || PrimFloat.leb betAmount 0
  then (st, JoinError "Invalid bet amount")
  else
  let publicId := normalizeWalletId (wallet socket) in
  if negb (Js.truthyString publicId)
  then (st, JoinError "Wallet not connected (missing publicId)")
  else
  (* prevent duplicate bet same round *)
  if existsb (fun p => (Crash.publicId p =? publicId)%string) (players g)
  then (st, JoinError "You already joined this round")
  else
  (* prevent tx replay in same round *)
  if existsb (fun p => (Crash.txId p =? txId)%string) (players g)
  then (st, JoinError "Transaction already used")
  else
  let player :=
    mkPlayer (hexOfBytes idBytes) (socket_id socket) publicId betAmount target
             (Js.orString (p_currencyId pl) None) txId Bet
             None None None None None in
  (mkState (Some (withPlayers g (players g ++ [player])))
           (history st) (ticking st) (currentPayout st) (crashPoint st)
           (transfers st),
   JoinSuccess player)
  end
  end
  | _ => (st, JoinError "Bets are only allowed during Starting phase")
  end
  end.

End Crash.

(** ** sockets/slide.js: the Slide round loop *)

Module Slide.

(** [STATUS]: WAITTING 0, STARTING 1, BETTING 2, PLAYING 3. *)
Inductive GameStatus : Type := WAITTING | STARTING | BETTING | PLAYING.

(** The [status] of a player: ["playing"], ["won"], ["lost"]. *)
Inductive PlayerStatus : Type := Playing | Won | Lost.

(** A participant: the object built by [join-game], with the two
    properties the round loop adds.  It has no payout status and no error. *)
Record Player : Type := mkPlayer {
  playerId : string;
  publicId : string;
  betAmount : float;
  target : float;
  currencyId : string;
  txId : string;
  status : PlayerStatus;
  winAmount : option float;
  payoutTxId : option string
}.

Record Game : Type := mkGame {
  gameStatus : GameStatus;
  crashPoint : float;
  players : list Player
}.

Record Transfer : Type := mkTransfer { toPublicId : string; amount : float }.

(** [currentGame], the elements of the Set [usedTxIds] and the transfers
    requested so far. *)
Record State : Type := mkState {
  currentGame : option Game;
  usedTxIds : list string;
  transfers : list Transfer
}.

Definition isPlaying (p : Player) : bool :=
  match status p with Playing => true | _ => false end.

Definition settled (p : Player) (s : PlayerStatus) (win : float)
    (tx : option string) : Player :=
  mkPlayer (playerId p) (publicId p) (betAmount p) (target p) (currencyId p)
           (txId p) s (Some win) tx.

(** The body of the payout loop for one player. *)
Definition payPlayer (net : QubicPayout.Network) (crashPoint : float)
    (player : Player) (log : list Transfer) : Player * list Transfer :=
  if isPlaying player && Js.truthyString (publicId player) then
    if PrimFloat.leb (target player) crashPoint then
      let win := JsNumber.floor (betAmount player * target player)%float in
      if PrimFloat.ltb 0 win then
        match QubicPayout.payFromCasinoToUser net (List.length log)
                                              (publicId player) win with
        | inr payoutResult =>
            (settled player Won win (Some (QubicPayout.receiptTxId payoutResult)),
             log ++ [mkTransfer (publicId player) win])
        | inl payoutError =>
            (settled player Lost 0 (payoutTxId player),
             log ++ [mkTransfer (publicId player) win])
        end
      else (settled player Lost 0 (payoutTxId player), log)
    else (settled player Lost 0 (payoutTxId player), log)
  else (player, log).

(** [for (const player of players) { ... }]: calculate payouts and pay
    winners. *)
Fixpoint payPlayers (net : QubicPayout.Network) (crashPoint : float)
    (ps : list Player) (log : list Transfer) : list Player * list Transfer :=
  match ps with
  | [] => ([], log)
  | p :: rest =>
      let (p', log1) := payPlayer net crashPoint p log in
      let (rest', log2) := payPlayers net crashPoint rest log1 in
      (p' :: rest', log2)
  end.

(** The end of a round of [startGameCycle]: payouts, then END / WAITING. *)
Definition finishRound (net : QubicPayout.Network) (st : State) : State :=
  match currentGame st with
  | None => st
  | Some g =>
      let (ps, log) := payPlayers net (crashPoint g) (players g) (transfers st) in
      mkState (Some (mkGame WAITTING (crashPoint g) ps)) (usedTxIds st) log
  end.

Record Socket : Type := mkSocket { socket_id : string; wallet : option string }.

Record Payload : Type := mkPayload {
  p_target : float;
  p_betAmount : float;
  p_currencyId : option string;
  p_txId : option string
}.

Inductive JoinResult : Type :=
| JoinError (message : string)
| JoinSuccess (player : Player).

(** The handler of [join-game]. *)
Definition joinGame (socket : Socket) (payload : option Payload) (st : State)
  : State * JoinResult :=
  match currentGame st with
  | None => (st, JoinError "Game not accepting bets")
  | Some g =>
  match gameStatus g with
  | BETTING =>
  match payload with
  | None => (st, JoinError "Invalid payload")
  | Some pl =>
  match p_txId pl with
  | None => (st, JoinError "Missing txId (transaction required)")
  | Some txId =>
  if negb (Js.truthyString txId)
  then (st, JoinError "Missing txId (transaction required)")
  else
  let publicId := Validation.normalizeQubicPublicId (wallet socket) in
  if negb (Js.truthyString publicId)
  then (st, JoinError "Wallet not connected (missing publicId)")
  else
  let targetNum := JsNumber.floor (p_target pl) in
  let betAmountNum := JsNumber.floor (p_betAmount pl) in
  if negb (JsNumber.isFinite targetNum) || PrimFloat.leb targetNum 0
  then (st, JoinError "Invalid target")
  else if negb (JsNumber.isFinite betAmountNum) || PrimFloat.leb betAmountNum 0
  then (st, JoinError "Invalid bet amount")
  else
  (* Prevent duplicate bets in same round *)
  if existsb (fun p => (Slide.publicId p =? publicId)%string) (players g)
  then (st, JoinError "You already joined this round")
  else
  (* Prevent tx replay (within same round) *)
  if existsb (fun p => (Slide.txId p =? txId)%string) (players g)
  then (st, JoinError "Transaction already used in this round")
  else
  (* Prevent tx replay across rounds (global check) *)
  if existsb (String.eqb txId) (usedTxIds st)
  then (st, JoinError "Transaction already used in a previous round")
  else
  let player :=
    mkPlayer (socket_id socket) publicId betAmountNum targetNum
             (match Js.orString (p_currencyId pl) None with
              | Some c => c
              | None => ""%string
              end)
             txId Playing None None in
  (mkState (Some (mkGame (gameStatus g) (crashPoint g) (players g ++ [player])))
           (txId :: usedTxIds st) (transfers st),
   JoinSuccess player)
  end
  end
  | _ => (st, JoinError "Game not accepting bets")
  end
  end.

End Slide.

(** ** The outcome of a Crash round for a player *)

Module CrashSpec.

(** The condition of the auto-cashout of a player at a tick of multiplier
    [m]: [p.target && payout >= p.target]. *)
Definition reached (p : Crash.Player) (m : float) : bool :=
  JsNumber.truthy (Crash.target p) && PrimFloat.leb (Crash.target p) m.

(** How a player [p] of a round ends as [p'], when the ticks of the round
    had the multipliers [payouts] and the crash point is [cp]: a player that
    was betting is cashed out at the multiplier [m] of a tick that reached
    the target, with [floor(stake * m)], or is marked lost, its target being
    above the crash point; a player that was not betting is unchanged. *)
Definition outcome (payouts : list float) (cp : float)
    (p p' : Crash.Player) : Prop :=
  match Crash.status p with
  | Crash.Bet =>
      (Crash.status p' = Crash.CashedOut
       /\ Crash.publicId p' = Crash.publicId p
       /\ Crash.betAmount p' = Crash.betAmount p
       /\ Crash.target p' = Crash.target p
       /\ exists m,
            In m payouts /\ reached p m = true
            /\ Crash.stoppedAt p' = Some m
            /\ Crash.cashoutMultiplier p' = Some m
            /\ Crash.winAmount p'
               = Some (JsNumber.floor (Crash.betAmount p * m)%float))
      \/ (p' = Crash.markLost p
          /\ JsNumber.truthy (Crash.target p)
             && PrimFloat.leb (Crash.target p) cp = false)
  | _ => p' = p
  end.

End CrashSpec.

(** ** A Crash round used as example

    The round is created from the seed pair [publicSeed2], [privateSeed1]
    (crash point 2.08); two players join, with targets 1.50 and 2.09; the
    ticks of the round have the multipliers 1.2, 1.6 and 2.1. *)

Definition walletB : string :=
  "BBBBBBBBBBBBBBBBBBBBBBBBBBBBBBBBBBBBBBBBBBBBBBBBBBBBBBBBBBBB".

Definition crashSocketA : Crash.Socket := Crash.mkSocket "socket-a" (Some walletA).
Definition crashSocketB : Crash.Socket := Crash.mkSocket "socket-b" (Some walletB).

Definition crashPayloadA : Crash.Payload :=
  Crash.mkPayload 150 100 None (Some "tx-1"%string).
Definition crashPayloadB : Crash.Payload :=
  Crash.mkPayload 209 100 None (Some "tx-2"%string).

Definition crashCreated : Crash.State :=
  Crash.createNewRound (repeat 0 15 ++ [2]) (repeat 0 31 ++ [1]) (repeat 7 16)
                       Crash.initialState.

Definition crashPlayerA : Crash.Player :=
  Crash.mkPlayer "0808080808080808" "socket-a" walletA 100 (150 / 100)%float
                 None "tx-1" Crash.Bet None None None None None.

Definition crashPlayerB : Crash.Player :=
  Crash.mkPlayer "0909090909090909" "socket-b" walletB 100 (209 / 100)%float
                 None "tx-2" Crash.Bet None None None None None.

(** The round once the two players have joined and [startRound] has fired. *)
Definition crashStarted : Crash.State :=
  Crash.mkState
    (Some (Crash.mkGame "07070707070707070707070707070707" Crash.InProgress None
             CrashPoint.publicSeed2 CrashPoint.privateSeed1
             "c386d8e8d07342f2e39e189c8e6c57bb205bb373fe4e3a6f69404a8bb767b417"
             [crashPlayerA; crashPlayerB]))
    [] true 1 2.08 [].

Definition crashTicks : list float := [1.2; 1.6; 2.1]%float.

Definition crashEnded : Crash.State :=
  Crash.runTicks networkUp crashTicks crashStarted.

(** The next round, created after the end of that one. *)
Definition crashNextRound : Crash.State :=
  Crash.createNewRound (firstn 16 seedBytesA) seedBytesB (repeat 6 16) crashEnded.

(** ** A Slide round used as example *)

Definition slideSocketA : Slide.Socket := Slide.mkSocket "socket-a" (Some walletA).

Definition slidePayloadA : Slide.Payload :=
  Slide.mkPayload 2 100 None (Some "tx-1"%string).

(** A round that accepts bets, with crash point 3.3, and the next one. *)
Definition slideBetting : Slide.State :=
  Slide.mkState (Some (Slide.mkGame Slide.BETTING 3.3 [])) [] [].

Definition slideJoined : Slide.State :=
  fst (Slide.joinGame slideSocketA (Some slidePayloadA) slideBetting).

Definition slideNextRound (st : Slide.State) : Slide.State :=
  Slide.mkState (Some (Slide.mkGame Slide.BETTING 1.5 []))
                (Slide.usedTxIds st) (Slide.transfers st).

(** ** The guard of the cashout *)

Module PayoutSpec.

(** The multiplier of a session with [mines] mines and [k] revealed safe
    cells exceeds 1 under the default house edge. *)
Definition multiplierAboveOne (mines k : Z) : bool :=
  PrimFloat.ltb 1
    (MinesPayout.multiplier
       (MinesPayout.calculateMinesPayout MinesPayout.HOUSE_EDGE_default
          (JsNumber.ofZ mines) (JsNumber.ofZ k) 1)).

Definition multiplierTable : bool :=
  forallb (fun mines =>
             forallb (multiplierAboveOne mines)
                     (zrange 1 (Z.to_nat (25 - mines))))
          (zrange 1 24).

End PayoutSpec.

(** ** routes/mine.js: revealing a cell ([/pick], [/reveal]) *)

Module MinePick.

Import MineGame MineRoutes.

(** What [applyPickToDatas] returns. *)
Record PickOutcome : Type := mkPickOutcome {
  po_status : string;
  po_hitMine : bool;
  po_opened : list Z;
  po_datas : list Cell
}.

Definition minedAt (cells : list Cell) (slotIndex : nat) : bool :=
  match nth_error cells slotIndex with
  | Some c => mined c
  | None => false
  end.

Definition bombAt (cells : list Cell) (slotIndex : nat) : bool :=
  match nth_error cells slotIndex with
  | Some c => isBomb c
  | None => false
  end.

(** [applyPickToDatas(gameDatas, tileIndex)]; the error carries its
    [statusCode]. *)
Definition applyPickToDatas (gameDatas : list Cell) (tileIndex : Z)
  : (Z * Js.Error) + PickOutcome :=
  match findIndex tileIndex gameDatas with
  | None => inl (400, Js.PlainError "Invalid tile index")
  | Some slotIndex =>
      (* If already opened, just return current state *)
      if minedAt gameDatas slotIndex
      then inr (mkPickOutcome "BET" false (openedPoints gameDatas) gameDatas)
      else
        let cells := setMined slotIndex gameDatas in
        if bombAt cells slotIndex
        then inr (mkPickOutcome "END" true (openedPoints cells) cells)
        else
          (* Check if all safe slots are opened *)
          if forallb mined (filter isGem cells)
          then inr (mkPickOutcome "END" false (openedPoints cells) cells)
          else inr (mkPickOutcome "BET" false (openedPoints cells) cells)
  end.

(** The body of a [/pick] or [/reveal] request: [index] and [point] are
    JSON numbers, or absent. *)
Record PickRequest : Type := mkPickRequest {
  pick_gameId : option Z;
  pick_index : option float;
  pick_point : option float;
  pick_publicId : option string;
  pick_header : option string;
  pick_now : Z
}.

Inductive PickBody : Type :=
| PickError (error : string)
| PickResult (status : string) (gameId : Z) (opened : list Z)
             (hitMine : bool) (cells : list Cell).

Record PickResponse : Type := mkPickResponse {
  pickStatusCode : Z;
  pickBody : PickBody
}.

Definition statusName (s : Status) : string :=
  match s with
  | READY => "READY"
  | LIVE => "LIVE"
  | ENDED => "ENDED"
  | EXPIRED => "EXPIRED"
  end.

(** [normalizeQubicPublicId(publicId || publicIdHeader)]. *)
Definition requester (req : PickRequest) : string :=
  Validation.normalizeQubicPublicId
    (Js.orString (pick_publicId req) (pick_header req)).

(** [requesterPublicId && isValidQubicPublicId(requesterPublicId)]. *)
Definition requesterValid (req : PickRequest) : bool :=
  Js.truthyString (requester req)
  && Validation.isValidQubicPublicId (requester req).

(** The session the request addresses: by [gameId] when it is truthy, else
    the LIVE unexpired session of a valid requester. *)
Definition pickFilters (req : PickRequest) : option Filters :=
  match pick_gameId req with
  | Some gameId =>
      if gameId =? 0
      then if requesterValid req
           then Some (mkFilters None (Some (requester req)) (Some LIVE) None
                                (Some (pick_now req)))
           else None
      else Some (mkFilters (Some gameId) None None None None)
  | None =>
      if requesterValid req
      then Some (mkFilters None (Some (requester req)) (Some LIVE) None
                           (Some (pick_now req)))
      else None
  end.

(** [index !== undefined ? Number(index)
     : (point !== undefined ? Number(point) : null)]. *)
Definition tileIndexOf (req : PickRequest) : option float :=
  match pick_index req with
  | Some i => Some i
  | None => pick_point req
  end.

(** The negation of [!Number.isInteger(tileIndex) || tileIndex < 0 ||
    tileIndex >= 25]. *)
Definition validTile (tileIndex : float) : bool :=
  JsNumber.isInteger tileIndex
  && negb (PrimFloat.ltb tileIndex 0)
  && negb (PrimFloat.leb 25 tileIndex).

Definition answer (code : Z) (b : PickBody) : M PickResponse :=
  ret (mkPickResponse code b).

Definition pickHandlerBody (req : PickRequest) : M PickResponse :=
  match pickFilters req with
  | None => answer 400 (PickError "gameId or valid publicId is required")
  | Some filters =>
  found <- dbFindOne filters ;;
  match found with
  | None => answer 404 (PickError "Game not found")
  | Some game =>
  (* Security: Verify game owner matches requester *)
  if requesterValid req && negb (publicKey game =? requester req)%string
  then answer 403 (PickError "Game does not belong to requester")
  else
  if negb (statusEqb (status game) LIVE)
  then answer 400 (PickError ("Game is " ++ statusName (status game)))
  else
  match tileIndexOf req with
  | None => answer 400 (PickError "Invalid index/point (must be integer 0-24)")
  | Some tile =>
  if negb (validTile tile)
  then answer 400 (PickError "Invalid index/point (must be integer 0-24)")
  else
  let tileIndex := JsNumber.floorZ tile in
  (* Find and update the slot *)
  match findIndex tileIndex (datas game) with
  | None => answer 400 (PickError "Invalid tile index")
  | Some slotIndex =>
  if minedAt (datas game) slotIndex
  then answer 200 (PickResult "BET" (id game) (openedPoints (datas game))
                              false (datas game))
  else
  (* Update the datas array *)
  let cells := setMined slotIndex (datas game) in
  if bombAt cells slotIndex then
    (* Game over - hit a bomb *)
    dbUpdate (id game)
      (mkUpdates (Some ENDED) (Some cells) None None None None None) ;;;
    answer 200 (PickResult "END" (id game) (openedPoints cells) true cells)
  else
    if forallb mined (filter isGem cells) then
      (* Game won - all safe slots mined *)
      dbUpdate (id game)
        (mkUpdates (Some ENDED) (Some cells) None None None None None) ;;;
      answer 200 (PickResult "END" (id game) (openedPoints cells) false cells)
    else
      (* Continue game *)
      dbUpdate (id game)
        (mkUpdates None (Some cells) None None None None None) ;;;
      answer 200 (PickResult "BET" (id game) (openedPoints cells) false cells)
  end
  end
  end
  end.

(** The handler of [/pick]; [/reveal] has the same code. *)
Definition pick (req : PickRequest) (w : World) : PickResponse * World :=
  match tryCatch (pickHandlerBody req)
                 (fun error => answer 500 (PickError (Js.errMessage error))) w with
  | (Return r, w') => (r, w')
  | (Throw e, w') => (mkPickResponse 500 (PickError (Js.errMessage e)), w')
  end.

End MinePick.

(** A cell of the grid, opened. *)
Definition openCell (tileIndex : Z) (c : MineGame.Cell) : MineGame.Cell :=
  if MineGame.point c =? tileIndex
  then MineGame.mkCell (MineGame.point c) (MineGame.mine c) true
  else c.


(** A fresh session (no cell revealed yet) and a request to reveal cell 10
    of the session of [world1], sent without any public id. *)
Definition row_fresh : MineGame.Row :=
  MineGame.mkRow 2 walletA MineGame.LIVE 3 1000 None None None None 7 0
    None None MineGame.NONE None (Some 1000).

Definition world_fresh : MineRoutes.World := MineRoutes.mkWorld [row_fresh] [] [].

Definition cashoutRequestFresh : MineRoutes.Request :=
  MineRoutes.mkRequest (Some 2) (Some walletA) None None None 500.

Definition pickRequest1 : MinePick.PickRequest :=
  MinePick.mkPickRequest (Some 1) (Some 10%float) None None None 500.

(** The same request, sent by another wallet. *)
Definition pickRequestForeign : MinePick.PickRequest :=
  MinePick.mkPickRequest (Some 1) (Some 10%float) None
    (Some "BBBBBBBBBBBBBBBBBBBBBBBBBBBBBBBBBBBBBBBBBBBBBBBBBBBBBBBBBBBB"%string)
    None 500.

(** ** Sequences of requests to the Mines handlers *)

Module MineEvents.

Import MineGame MineRoutes.

(** A request to one of the handlers, with the house edge of the process
    and the network as it answers at that time. *)
Inductive Event : Type :=
| Cashout (HOUSE_EDGE : float) (net : QubicPayout.Network) (req : Request)
| Claim (net : QubicPayout.Network) (req : Request)
| Bet (req : Request)
| Pick (req : MinePick.PickRequest).

Definition step (w : World) (e : Event) : World :=
  match e with
  | Cashout HOUSE_EDGE net req => snd (cashout HOUSE_EDGE net req w)
  | Claim net req => snd (claim net req w)
  | Bet req => snd (bet req w)
  | Pick req => snd (MinePick.pick req w)
  end.

Definition run (events : list Event) (w : World) : World :=
  fold_left step events w.

(** The columns of a session that are written when it is created. *)
Definition createdColumns (r : Row)
  : Z * string * Z * Z * option string
    * (option string * option string * option string) * Z * option Z :=
  (row_id r, wallet_public_key r, mines_count r, bet_amount r, bet_tx_id r,
   (public_seed r, private_seed_hash r, private_seed r),
   mines_mask r, expires_at r).

(** The columns that tell how a session ended. *)
Definition settledColumns (r : Row)
  : Status * Z * option float * option string :=
  (row_status r, revealed_mask r, payout_amount r, payout_tx_id r).

(** The updates that write the payout status and error only. *)
Definition notesOnly (u : Updates) : bool :=
  match u_status u, u_datas u, u_payoutAmount u, u_payoutTxId u with
  | None, None, None, None => true
  | _, _, _, _ => false
  end.

(** What a sequence of requests leaves of a row [r] of the table, as the
    row [r'] at the same place: the created columns; for a session that was
    not LIVE, the settled columns too; all of it when, moreover, its payout
    had not failed. *)
Definition rowStable (r r' : Row) : Prop :=
  createdColumns r' = createdColumns r
  /\ (row_status r <> LIVE ->
      settledColumns r' = settledColumns r
      /\ (payout_status r <> FAILED -> r' = r)).

End MineEvents.

(** A session that ended with its payout sent, and requests that address
    it. *)
Definition row_settled : MineGame.Row :=
  MineGame.mkRow 3 walletA MineGame.ENDED 3 1000 None None None None 7 248
    (Some 1967%float) (Some "TXID-1"%string) MineGame.SENT None (Some 1000).

Definition world_settled : MineRoutes.World :=
  MineRoutes.mkWorld [row_settled; row_3_1000_5] [] [].

Definition requests_settled : list MineEvents.Event :=
  [MineEvents.Pick (MinePick.mkPickRequest (Some 3) (Some 10%float) None None None 500);
   MineEvents.Cashout MinesPayout.HOUSE_EDGE_default networkUp
     (MineRoutes.mkRequest (Some 3) (Some walletA) None None None 500);
   MineEvents.Claim networkUp
     (MineRoutes.mkRequest (Some 3) (Some walletA) None None None 500);
   MineEvents.Cashout MinesPayout.HOUSE_EDGE_default networkUp cashoutRequest1].

(** ** sockets/crash.js: the manual cashout and the events of a round *)

Module CrashRun.

Import Crash.

(** What the handler of [bet-cashout] emits to the socket. *)
Inductive CashoutResult : Type :=
| CashoutError (message : string)
| CashoutSuccess (payoutTxId : option string) (winAmount : float)
                 (multiplier : float).

(** [x.publicId === publicId || x.socketId === socket.id]. *)
Definition ownedBy (publicId : string) (socket : Socket) (x : Player) : bool :=
  (Crash.publicId x =? publicId)%string
  || (socketId x =? socket_id socket)%string.

(** The object [players.find(...)] returns is updated in place. *)
Fixpoint replaceFirst (pred : Player -> bool) (p' : Player) (ps : list Player)
  : list Player :=
  match ps with
  | [] => []
  | x :: rest =>
      if pred x then p' :: rest else x :: replaceFirst pred p' rest
  end.

Definition withGame (st : State) (g : Game) (log : list Transfer) : State :=
  mkState (Some g) (history st) (ticking st) (currentPayout st) (crashPoint st)
          log.

(** The handler of [bet-cashout]. *)
Definition betCashout (net : QubicPayout.Network) (socket : Socket)
    (st : State) : State * CashoutResult :=
  match currentGame st with
  | None => (st, CashoutError "No game available")
  | Some g =>
  match gameStatus g with
  | InProgress =>
  let publicId := normalizeWalletId (wallet socket) in
  if negb (Js.truthyString publicId)
  then (st, CashoutError "Wallet not connected (missing publicId)")
  else
  match find (ownedBy publicId socket) (players g) with
  | None => (st, CashoutError "You have no active bet in this round")
  | Some p =>
  if negb (isBet p)
  then (st, CashoutError "Already cashed out (or already lost)")
  else
  (* if already crashed *)
  if PrimFloat.leb (crashPoint st) (currentPayout st)
  then (st, CashoutError "Too late (crashed)")
  else
  let win := JsNumber.floor (betAmount p * currentPayout st)%float in
  let cashed (s : PlayerStatus) (txid : option string) :=
    mkPlayer (playerID p) (socketId p) (Crash.publicId p) (betAmount p)
             (target p) (currencyId p) (txId p) s
             (Some (currentPayout st)) (Some (currentPayout st)) (Some win)
             txid (payoutError p) in
  let put (p' : Player) :=
    withPlayers g (replaceFirst (ownedBy publicId socket) p' (players g)) in
  if PrimFloat.ltb 0 win then
    let log := transfers st ++ [mkTransfer publicId win] in
    match QubicPayout.payFromCasinoToUser net (List.length (transfers st))
                                          publicId win with
    | inr receipt =>
        let payoutTxId := QubicPayout.receiptTxId receipt in
        (withGame st (put (cashed CashedOut (Some payoutTxId))) log,
         CashoutSuccess (Some payoutTxId) win (currentPayout st))
    | inl payoutError =>
        (* Revert player status if payout fails *)
        (withGame st (put (cashed Bet (payoutTxId p))) log,
         CashoutError
           ("Payout failed: "
            ++ (if Js.truthyString (Js.errMessage payoutError)
                then Js.errMessage payoutError else "Unknown error")))
    end
  else
    (withGame st (put (cashed CashedOut (payoutTxId p))) (transfers st),
     CashoutSuccess None win (currentPayout st))
  end
  | _ => (st, CashoutError "Game is not in progress")
  end
  end.

(** What happens in the namespace: the timers fire and the sockets send
    messages. *)
Inductive Event : Type :=
| NewRound (publicBytes privateBytes idBytes : list Z)
| Join (socket : Socket) (payload : option Payload) (idBytes : list Z)
| Start
| Tick (payout : float)
| ManualCashout (socket : Socket).

Definition step (net : QubicPayout.Network) (st : State) (e : Event) : State :=
  match e with
  | NewRound publicBytes privateBytes idBytes =>
      createNewRound publicBytes privateBytes idBytes st
  | Join socket payload idBytes => fst (joinGame socket payload idBytes st)
  | Start => startRound st
  | Tick payout => if ticking st then tick net payout st else st
  | ManualCashout socket => fst (betCashout net socket st)
  end.

Definition run (net : QubicPayout.Network) (events : list Event) (st : State)
  : State :=
  fold_left (step net) events st.

(** The events that do not open a new round. *)
Definition sameRound (e : Event) : bool :=
  match e with
  | NewRound _ _ _ => false
  | _ => true
  end.

(** What identifies a bet: the wallet, the token, the stake and the target. *)
Definition betOf (p : Player) : string * string * float * float :=
  (Crash.publicId p, txId p, betAmount p, target p).

(** The checks of [join-game] on the numbers of a bet. *)
Definition validBet (p : Player) : bool :=
  JsNumber.isFinite (target p) && negb (PrimFloat.ltb (target p) 1.01)
  && JsNumber.isFinite (betAmount p) && negb (PrimFloat.leb (betAmount p) 0)
  && Js.truthyString (Crash.publicId p).

(** The commitment of a round: the crash point of the closure is the one
    the seeds of the round determine, the hash published is the hash of the
    private seed, and a round that is over reveals that crash point. *)
Definition committed (st : State) : Prop :=
  match currentGame st with
  | None => True
  | Some g =>
      CrashPoint.crashPointFromSeeds (publicSeed g) (privateSeed g)
      = Some (crashPoint st)
      /\ privateHash g
         = hexOfBytes (Sha256.sha256 (bytesOfString (privateSeed g)))
      /\ (gameStatus g = Over -> revealedCrashPoint g = Some (crashPoint st))
  end.

(** The bets of a round: no wallet and no token twice, each bet valid. *)
Definition soundBets (st : State) : Prop :=
  match currentGame st with
  | None => True
  | Some g =>
      NoDup (map Crash.publicId (players g))
      /\ NoDup (map txId (players g))
      /\ forallb validBet (players g) = true
  end.

End CrashRun.

(** The events of the example round. *)
Definition crashEvents : list CrashRun.Event :=
  [CrashRun.NewRound (repeat 0 15 ++ [2]) (repeat 0 31 ++ [1]) (repeat 7 16);
   CrashRun.Join crashSocketA (Some crashPayloadA) (repeat 8 8);
   CrashRun.Join crashSocketB (Some crashPayloadB) (repeat 9 8);
   CrashRun.Start;
   CrashRun.Tick 1.2; CrashRun.Tick 1.6; CrashRun.Tick 2.1].

(** The example round after its first tick. *)
Definition crashFirstTick : Crash.State :=
  Crash.tick networkUp 1.2 crashStarted.

(** ** sockets/slide.js: the events of the game cycle *)

Module SlideRun.

Import Slide.

(** The steps of [startGameCycle] and the [join-game] messages:
    [createNewGame()] with the crash point it drew, an assignment to
    [currentGame.status], the payout loop with the end of the round,
    [currentGame = null]. *)
Inductive Event : Type :=
| CreateGame (crashPoint : float)
| SetStatus (s : GameStatus)
| Finish
| Clear
| Join (socket : Socket) (payload : option Payload).

Definition step (net : QubicPayout.Network) (st : State) (e : Event) : State :=
  match e with
  | CreateGame cp =>
      mkState (Some (mkGame STARTING cp [])) (usedTxIds st) (transfers st)
  | SetStatus s =>
      match currentGame st with
      | Some g =>
          mkState (Some (mkGame s (crashPoint g) (players g)))
                  (usedTxIds st) (transfers st)
      | None => st
      end
  | Finish => finishRound net st
  | Clear => mkState None (usedTxIds st) (transfers st)
  | Join socket payload => fst (joinGame socket payload st)
  end.

Definition run (net : QubicPayout.Network) (events : list Event) (st : State)
  : State :=
  fold_left (step net) events st.

(** The players the payout loop pays, and what it asks for each. *)
Definition eligible (crashPoint : float) (p : Player) : bool :=
  isPlaying p && Js.truthyString (publicId p)
  && PrimFloat.leb (target p) crashPoint
  && PrimFloat.ltb 0 (JsNumber.floor (betAmount p * target p)%float).

Definition transferOf (p : Player) : Transfer :=
  mkTransfer (publicId p) (JsNumber.floor (betAmount p * target p)%float).

(** What identifies a bet. *)
Definition betOf (p : Player) : string * string * float * float :=
  (Slide.publicId p, txId p, betAmount p, target p).

End SlideRun.

(** Two rounds of Slide: a join in the first one, and what follows. *)
Definition slideLater : list SlideRun.Event :=
  [SlideRun.SetStatus Slide.PLAYING; SlideRun.Finish; SlideRun.Clear;
   SlideRun.CreateGame 1.5; SlideRun.SetStatus Slide.BETTING].

(** ** The tables of the payout calculator *)

Module PayoutTables.

Fixpoint factorial (n : nat) : Z :=
  match n with
  | O => 1
  | S n' => Z.of_nat n * factorial n'
  end.

(** The binomial coefficient [n! / (k! (n - k)!)], 0 when [k] exceeds [n]. *)
Definition binomial (n k : nat) : Z :=
  if (n <? k)%nat then 0
  else factorial n / (factorial k * factorial (n - k)).

(** Two numbers with the same finite representation. *)
Definition sameNumber (a b : float) : bool :=
  match Prim2SF a, Prim2SF b with
  | S754_finite s m e, S754_finite s' m' e' =>
      Bool.eqb s s' && (m =? m')%positive && (e =? e')
  | S754_zero s, S754_zero s' => Bool.eqb s s'
  | _, _ => false
  end.

(** [combination(n, k)] is the binomial coefficient, for every [k] from 0
    to 25. *)
Definition combinationRow (n : Z) : bool :=
  forallb (fun k =>
             sameNumber (MinesPayout.combination (JsNumber.ofZ n) (JsNumber.ofZ k))
                        (JsNumber.ofZ (binomial (Z.to_nat n) (Z.to_nat k))))
          (zrange 0 26).

Definition combinationTable : bool := forallb combinationRow (zrange 0 26).

(** The multiplier of a session under the default house edge. *)
Definition multiplierOf (mines k : Z) : float :=
  MinesPayout.multiplier
    (MinesPayout.calculateMinesPayout MinesPayout.HOUSE_EDGE_default
       (JsNumber.ofZ mines) (JsNumber.ofZ k) 1).

(** The multiplier of [k] safe cells is above 1, below the one of [k + 1]
    safe cells, and below the one of [k] safe cells with one more mine. *)
Definition multiplierGrows (mines k : Z) : bool :=
  PrimFloat.ltb 1 (multiplierOf mines k)
  && ((25 - mines <=? k) || PrimFloat.ltb (multiplierOf mines k)
                                         (multiplierOf mines (k + 1)))
  && ((25 - (mines + 1) <? k) || PrimFloat.ltb (multiplierOf mines k)
                                             (multiplierOf (mines + 1) k)).

Definition growthTable : bool :=
  forallb (fun mines =>
             forallb (multiplierGrows mines) (zrange 1 (Z.to_nat (25 - mines))))
          (zrange 1 24).

End PayoutTables.

(** ** routes/mine.js: [/status] *)

Module MineStatus.

Import MineGame MineRoutes.

Record StatusRequest : Type := mkStatusRequest {
  status_publicId : option string;
  status_header : option string;
  status_now : Z
}.

(** [{ success: false, error }], [{ success: true, datas, amount, mines,
    gameId }] and [{ success: false }]. *)
Inductive StatusBody : Type :=
| StatusError (error : string)
| StatusActive (cells : list Cell) (amount mines gameId : Z)
| StatusNone.

Record StatusResponse : Type := mkStatusResponse {
  statusStatusCode : Z;
  statusBody : StatusBody
}.

(** The three characters the source file has between [A] and [Z] in its
    message, as the bytes of the file. *)
Definition dashAsWritten : string :=
  string_of_list_ascii
    (map ascii_of_nat [195; 162; 226; 130; 172; 226; 128; 156]%nat).

Definition invalidPublicId : string :=
  "Invalid Qubic publicId (identity). It must be exactly 60 A"
  ++ dashAsWritten ++ "Z characters.".

(** [normalizeQubicPublicId(req.body.publicId || req.headers['x-public-id'])]. *)
Definition statusRequester (req : StatusRequest) : string :=
  Validation.normalizeQubicPublicId
    (Js.orString (status_publicId req) (status_header req)).

Definition statusAnswer (code : Z) (b : StatusBody) : M StatusResponse :=
  ret (mkStatusResponse code b).

Definition statusHandlerBody (req : StatusRequest) : M StatusResponse :=
  let publicId := statusRequester req in
  if negb (Validation.isValidQubicPublicId publicId)
  then statusAnswer 400 (StatusError invalidPublicId)
  else
    found <- dbFindOne (mkFilters None (Some publicId) (Some LIVE) None
                                  (Some (status_now req))) ;;
    match found with
    | Some game =>
        statusAnswer 200
          (StatusActive (datas game) (amount game) (mines game) (id game))
    | None => statusAnswer 200 StatusNone
    end.

(** The handler of [/status]. *)
Definition checkStatus (req : StatusRequest) (w : World)
  : StatusResponse * World :=
  match tryCatch (statusHandlerBody req)
                 (fun error => statusAnswer 500 (StatusError (Js.errMessage error)))
                 w with
  | (Return r, w') => (r, w')
  | (Throw e, w') => (mkStatusResponse 500 (StatusError (Js.errMessage e)), w')
  end.

End MineStatus.

Definition statusRequest1 : MineStatus.StatusRequest :=
  MineStatus.mkStatusRequest (Some walletA) None 500.

(** ** routes/mine.js: the functions [/autobet] plays a round with *)

Module MineInternal.

Import MineGame MineRoutes.

(** What a function throws: an error, with the [statusCode] it was given,
    if any. *)
Record Thrown : Type := mkThrown {
  thrownStatus : option Z;
  thrownError : Js.Error
}.

Definition withStatus (code : Z) (message : string) : Thrown :=
  mkThrown (Some code) (Js.PlainError message).

(** The filters [{ id: gameId }]: [findOne] ignores a falsy id. *)
Definition idFilter (gameId : Z) : Filters :=
  mkFilters (if gameId =? 0 then None else Some gameId) None None None None.

(** [pickMineTileInternal({ publicId, gameId, index })], for an integer
    [index], at the time [now]; the result is [{ ...result, gameId }]. *)
Definition pickMineTileInternal (now : Z) (publicId : string)
    (gameId index : Z) (w : World)
  : (Thrown + (MinePick.PickOutcome * Z)) * World :=
  match findOne (idFilter gameId) (rows w) with
  | None => (inl (withStatus 404 "Game not found"), w)
  | Some game =>
  if negb (publicKey game =? publicId)%string
  then (inl (withStatus 403 "Not your game"), w)
  else if negb (statusEqb (status game) LIVE)
  then (inl (withStatus 409 "Game is not LIVE"), w)
  else if match expiresAt game with
          | Some t => t <=? now
          | None => false
          end
  then (inl (withStatus 409 "Game expired"), w)
  else
  match MinePick.applyPickToDatas (datas game) index with
  | inl (code, e) => (inl (mkThrown (Some code) e), w)
  | inr result =>
      let updateData :=
        mkUpdates (if (MinePick.po_status result =? "END")%string
                   then Some ENDED else None)
                  (Some (MinePick.po_datas result)) None None None None None in
      let w1 := snd (recordMineMove (id game) index
                                    (MinePick.po_hitMine result) w) in
      let w2 := snd (dbUpdate (id game) updateData w1) in
      (inr (result, id game), w2)
  end
  end.

(** What [cashoutMineGameInternal] returns, with status ["END"]. *)
Record CashoutResult : Type := mkCashoutResult {
  cr_payoutAmount : float;
  cr_payoutTxId : string;
  cr_revealedGems : Z
}.

(** [game.payoutAmount && Number(game.payoutAmount) > 0 && game.payoutTxId]. *)
Definition alreadyPaid (game : Game) : bool :=
  match payoutAmount game with
  | Some a =>
      JsNumber.truthy a && PrimFloat.ltb 0 a && truthyOption (payoutTxId game)
  | None => false
  end.

(** [cashoutMineGameInternal({ publicId, gameId })]. *)
Definition cashoutMineGameInternal (HOUSE_EDGE : float)
    (net : QubicPayout.Network) (publicId : string) (gameId : Z) (w : World)
  : (Thrown + CashoutResult) * World :=
  match findOne (idFilter gameId) (rows w) with
  | None => (inl (withStatus 404 "Game not found"), w)
  | Some game =>
  if negb (publicKey game =? publicId)%string
  then (inl (withStatus 403 "Not your game"), w)
  else
  (* cashout must allow LIVE or END (if not already paid) *)
  if negb (statusEqb (status game) LIVE) && negb (statusEqb (status game) ENDED)
  then (inl (withStatus 409 "Game is not cashout-eligible"), w)
  else
  (* prevent double cashout if already paid *)
  if alreadyPaid game
  then (inl (withStatus 409 "Game already cashed out"), w)
  else
  let revealedGems := countRevealedGems (datas game) in
  let payout := payoutOf HOUSE_EDGE game in
  if PrimFloat.leb (MinesPayout.payoutAmount payout) 0
  then (inl (withStatus 400 "Cashout requires at least 1 revealed GEM"), w)
  else
  (* 1) End game in DB first (prevents double cashout) *)
  let w1 :=
    snd (dbUpdate (id game)
           (mkUpdates (Some ENDED) None (Some (MinesPayout.payoutAmount payout))
                      None None None None) w) in
  (* 2) Pay user from casino hot wallet *)
  match callTransfer net moduleScope "payFromCasinoToUser" publicId
                     (MinesPayout.payoutAmount payout) w1 with
  | (Throw payoutError, w2) =>
      (* Revert game status if payout fails and record failure *)
      let w3 :=
        snd (dbUpdate (id game)
               (mkUpdates (Some LIVE) None None None (Some FAILED)
                          (Some (Some (errorText payoutError))) None) w2) in
      (inl (mkThrown None payoutError), w3)
  | (Return payoutTx, w2) =>
      (* 3) Store payout txId + status *)
      let w3 :=
        snd (dbUpdate (id game)
               (mkUpdates None None None
                          (Some (Some (QubicPayout.receiptTxId payoutTx)))
                          (Some SENT) (Some None) None) w2) in
      (inr (mkCashoutResult (MinesPayout.payoutAmount payout)
                            (QubicPayout.receiptTxId payoutTx) revealedGems),
       w3)
  end
  end.

End MineInternal.

(** ** Strings without surrounding white space *)

Module ValidationSpec.

(** The first character, if any, is no white space. *)
Definition headClean (l : list ascii) : Prop :=
  match l with
  | [] => True
  | c :: _ => Validation.isSpace c = false
  end.

(** Neither the first nor the last character is white space. *)
Definition clean (s : string) : Prop :=
  headClean (list_ascii_of_string s)
  /\ headClean (rev (list_ascii_of_string s)).

End ValidationSpec.

(** A wallet id as a client may send it: lower case, with white space
    around it. *)
Definition walletAsTyped : string :=
  "  aaaaaaaaaaaaaaaaaaaaaaaaaaaaaaaaaaaaaaaaaaaaaaaaaaaaaaaaaaaa ".

(* ================================================================== *)
(** * Part II: properties *)
(* ================================================================== *)

Example combination_25_5 : MinesPayout.combination 25 5 = 53130%float.
Proof. vm_compute. reflexivity. Qed.

Example combination_22_5 : MinesPayout.combination 22 5 = 26334%float.
Proof. vm_compute. reflexivity. Qed.


(** ** Ranges and hexadecimal digits *)

Lemma zrange_In (n : nat) : forall lo c,
  In c (zrange lo n) <-> lo <= c < lo + Z.of_nat n.
Proof.
  induction n as [|n IH]; intros lo c; cbn [zrange In].
  - lia.
  - rewrite IH. lia.
Qed.

Lemma forallb_zrange (p : Z -> bool) (lo : Z) (n : nat) :
  forallb p (zrange lo n) = true ->
  forall c, lo <= c < lo + Z.of_nat n -> p c = true.
Proof.
  intros H c Hc. rewrite forallb_forall in H. apply H, zrange_In, Hc.
Qed.

Lemma hexValue_hexChar (x : Z) :
  0 <= x < 16 -> CrashPoint.hexValue (hexChar x) = Some x.
Proof.
  intros Hx.
  assert (Hcases : x = 0 \/ x = 1 \/ x = 2 \/ x = 3 \/ x = 4 \/ x = 5 \/ x = 6
    \/ x = 7 \/ x = 8 \/ x = 9 \/ x = 10 \/ x = 11 \/ x = 12 \/ x = 13
    \/ x = 14 \/ x = 15) by lia.
  repeat (destruct Hcases as [-> | Hcases]; [reflexivity|]).
  subst x. reflexivity.
Qed.

Lemma byte_hi_nibble (b : Z) : 0 <= b < 256 -> 0 <= b / 16 < 16.
Proof. intros H. split; [apply Z.div_pos; lia | apply Z.div_lt_upper_bound; lia]. Qed.

Lemma byte_lo_nibble (b : Z) : 0 <= b mod 16 < 16.
Proof. apply Z.mod_pos_bound. lia. Qed.

(** Reading the first thirteen hexadecimal characters of a digest yields its
    first 52 bits. *)
Lemma bigIntOfHex_first52 (b0 b1 b2 b3 b4 b5 b6 : Z) (rest : list Z) :
  0 <= b0 < 256 -> 0 <= b1 < 256 -> 0 <= b2 < 256 -> 0 <= b3 < 256 ->
  0 <= b4 < 256 -> 0 <= b5 < 256 -> 0 <= b6 < 256 ->
  let d := b0 :: b1 :: b2 :: b3 :: b4 :: b5 :: b6 :: rest in
  CrashPoint.bigIntOfHex (substring 0 13 (hexOfBytes d))
    = Some (CrashPoint.first52 d)
  /\ 0 <= CrashPoint.first52 d < 2 ^ 52.
Proof.
  intros H0 H1 H2 H3 H4 H5 H6 d. subst d.
  unfold hexOfBytes, CrashPoint.first52.
  cbn [flat_map app string_of_list_ascii substring CrashPoint.bigIntOfHex
       CrashPoint.parseHexFrom firstn fold_left].
  rewrite !hexValue_hexChar by (apply byte_hi_nibble || apply byte_lo_nibble; assumption).
  split.
  - f_equal. Z.div_mod_to_equations. lia.
  - change (2 ^ 52) with 4503599627370496. Z.div_mod_to_equations. lia.
Qed.

(** Every digest is made of 32 bytes, so its first 52 bits are always read
    back from the hexadecimal string. *)
Lemma bigIntOfHex_digest (s : Sha256.state) :
  CrashPoint.bigIntOfHex (substring 0 13 (hexOfBytes (Sha256.digest s)))
    = Some (CrashPoint.first52 (Sha256.digest s))
  /\ 0 <= CrashPoint.first52 (Sha256.digest s) < 2 ^ 52.
Proof.
  unfold Sha256.digest, Sha256.bytesOfWord.
  cbn [app].
  apply bigIntOfHex_first52; apply Z.mod_pos_bound; lia.
Qed.

(** ** The crash point in hundredths *)

Lemma crash100_formula (r : Z) :
  0 <= r < 2 ^ 52 ->
  CrashPoint.crash100 r = Z.min 100000 ((100 * 2 ^ 52 - r) / (2 ^ 52 - r))
  /\ 100 <= CrashPoint.crash100 r <= 100000.
Proof.
  intros Hr. unfold CrashPoint.crash100, CrashPoint.MAX100, CrashPoint.E.
  change (Z.shiftl 1 52) with (2 ^ 52).
  change (2 ^ 52) with 4503599627370496 in *.
  rewrite Z.quot_div_nonneg by lia.
  assert (Hlow : 100 <= (100 * 4503599627370496 - r) / (4503599627370496 - r)).
  { apply Z.div_le_lower_bound; lia. }
  destruct (Z.ltb_spec 100000 ((100 * 4503599627370496 - r) / (4503599627370496 - r))); lia.
Qed.

(** The conversion to a number, on every value the clamp allows. *)
Lemma crashOfHundredths_table :
  forallb CrashPoint.crashOfHundredths_check (zrange 100 (Z.to_nat 99901)) = true.
Proof. vm_compute. reflexivity. Qed.

Lemma crashOfHundredths_range (c : Z) :
  100 <= c <= 100000 ->
  let res := CrashPoint.crashOfHundredths c in
  (res = (JsNumber.ofZ c / 100)%float \/ res = (JsNumber.ofZ (c - 1) / 100)%float)
  /\ PrimFloat.leb 1 res = true /\ PrimFloat.leb res 1000 = true.
Proof.
  intros Hc res.
  pose proof (forallb_zrange _ _ _ crashOfHundredths_table c) as H.
  rewrite Z2Nat.id in H by lia. specialize (H ltac:(lia)).
  unfold CrashPoint.crashOfHundredths_check in H. fold res in H.
  apply andb_prop in H. destruct H as [H Hhi].
  apply andb_prop in H. destruct H as [H Hlo].
  apply orb_prop in H.
  repeat split; try assumption.
  destruct H as [H | H]; apply FloatAxioms.Leibniz.eqb_spec in H; auto.
Qed.

(** Test vectors of the digests (FIPS 180-4, RFC 4231). *)
Example sha256_abc :
  hexOfBytes (Sha256.sha256 (bytesOfString "abc"))
  = "ba7816bf8f01cfea414140de5dae2223b00361a396177a9cb410ff61f20015ad"%string.
Proof. vm_compute. reflexivity. Qed.

Example hmac_rfc4231_2 :
  hexOfBytes (Sha256.hmac (bytesOfString "Jefe")
                          (bytesOfString "what do ya want for nothing?"))
  = "5bdcc146bf60754e6a042426089575c75a003f089d2739839dec58b964ec3843"%string.
Proof. vm_compute. reflexivity. Qed.



(** The specification's formula is constant. *)
Lemma specCrash100_constant (r : Z) :
  0 <= r < 2 ^ 52 -> CrashPoint.specCrash100 r = 100.
Proof.
  intros Hr. unfold CrashPoint.specCrash100.
  change (2 ^ 52) with 4503599627370496 in *.
  replace (100 * 4503599627370496 - r * 100) with (100 * (4503599627370496 - r)) by lia.
  rewrite Z.div_mul by lia. reflexivity.
Qed.

(** The last rounding step loses one hundredth on 4583 of the 99901 values:
    for this seed pair the hundredths are 201 and the number returned is 2. *)
Example crashPoint_rounding_201 :
  CrashPoint.crash100
    (CrashPoint.first52 (Sha256.hmac (bytesOfString CrashPoint.privateSeed1)
                                     (bytesOfString CrashPoint.publicSeed1c))) = 201
  /\ CrashPoint.crashPointFromSeeds CrashPoint.publicSeed1c CrashPoint.privateSeed1
     = Some 2%float.
Proof. split; vm_compute; reflexivity. Qed.

(** ** The payout calculator *)

(** C7 (as amended): for a session with 3 mines and a stake of 1000 from which
    exactly 5 safe cells are revealed, under a house edge of 0.025 the
    multiplier is C(25,5)/C(22,5) * (1 - 0.025) with C(25,5) = 53130 and
    C(22,5) = 26334, and the payout floor(1000 * multiplier) is 1967. *)
Theorem minesPayout_scenario (game : MineGame.Game) :
  MineGame.mines game = 3 ->
  MineGame.amount game = 1000 ->
  MineRoutes.countRevealedGems (MineGame.datas game) = 5 ->
  let payout := MineRoutes.payoutOf MinesPayout.HOUSE_EDGE_default game in
  MinesPayout.combination 25 5 = 53130%float
  /\ MinesPayout.combination 22 5 = 26334%float
  /\ MinesPayout.trueMultiplier payout = (53130 / 26334)%float
  /\ MinesPayout.multiplier payout = (53130 / 26334 * (1 - 0.025))%float
  /\ MinesPayout.payoutAmount payout = JsNumber.floor (1000 * MinesPayout.multiplier payout)
  /\ MinesPayout.payoutAmount payout = 1967%float.
Proof.
  intros Hm Ha Hk payout. subst payout. unfold MineRoutes.payoutOf.
  rewrite Hm, Ha, Hk.
  repeat split; vm_compute; reflexivity.
Qed.

Lemma minesPayout_scenario_witness :
  let game := MineGame.gameOfRow row_3_1000_5 in
  MineGame.mines game = 3 /\ MineGame.amount game = 1000
  /\ MineRoutes.countRevealedGems (MineGame.datas game) = 5
  /\ MinesPayout.payoutAmount
       (MineRoutes.payoutOf MinesPayout.HOUSE_EDGE_default game) = 1967%float.
Proof.
  cbv zeta.
  split; [reflexivity|]. split; [reflexivity|]. split; [vm_compute; reflexivity|].
  apply (minesPayout_scenario (MineGame.gameOfRow row_3_1000_5));
    vm_compute; reflexivity.
Defined.

(** C7 (as stated) fails: the payout of the scenario is not 1966. *)
Lemma minesPayout_scenario_not_1966 :
  let game := MineGame.gameOfRow row_3_1000_5 in
  MineGame.mines game = 3 /\ MineGame.amount game = 1000
  /\ MineRoutes.countRevealedGems (MineGame.datas game) = 5
  /\ MinesPayout.payoutAmount
       (MineRoutes.payoutOf MinesPayout.HOUSE_EDGE_default game) <> 1966%float.
Proof.
  cbv zeta.
  split; [reflexivity|]. split; [reflexivity|]. split; [vm_compute; reflexivity|].
  intros H.
  apply (f_equal (PrimFloat.eqb 1967)) in H.
  vm_compute in H. discriminate H.
Qed.

(** ** The mine layout *)

Lemma existsb_Zeqb_In (p : Z) (l : list Z) :
  existsb (Z.eqb p) l = true <-> In p l.
Proof.
  rewrite existsb_exists. split.
  - intros [x [Hin Heq]]. apply Z.eqb_eq in Heq. now subst.
  - intros Hin. exists p. split; [assumption | apply Z.eqb_refl].
Qed.

Lemma existsb_Zeqb_notIn (p : Z) (l : list Z) :
  existsb (Z.eqb p) l = false <-> ~ In p l.
Proof.
  rewrite <- existsb_Zeqb_In. destruct (existsb (Z.eqb p) l); split; congruence.
Qed.

(** The loop only adds positions that are not placed yet, one at a time, and
    stops as soon as [mines] of them are placed. *)
Lemma placeMines_sound (mines : Z) (draws : list Z) :
  forall acc ps,
    NoDup acc ->
    Z.of_nat (List.length acc) <= mines ->
    MineRoutes.placeMines mines draws acc = Some ps ->
    NoDup ps /\ Z.of_nat (List.length ps) = mines /\ incl ps (acc ++ draws).
Proof.
  induction draws as [|pos rest IH]; intros acc ps Hnd Hlen Hrun;
    cbn [MineRoutes.placeMines] in Hrun;
    destruct (Z.ltb_spec (Z.of_nat (List.length acc)) mines) as [Hlt | Hge].
  - discriminate Hrun.
  - injection Hrun as <-. rewrite app_nil_r.
    split; [assumption|]. split; [lia | apply incl_refl].
  - destruct (existsb (Z.eqb pos) acc) eqn:Hmem.
    + destruct (IH acc ps Hnd Hlen Hrun) as [H1 [H2 H3]].
      split; [assumption|]. split; [assumption|].
      intros x Hx. specialize (H3 x Hx). rewrite in_app_iff in *. cbn. tauto.
    + apply existsb_Zeqb_notIn in Hmem.
      assert (Hnd' : NoDup (acc ++ [pos])).
      { apply NoDup_app; [assumption | repeat constructor; intros [] |].
        intros x Hx [<- | []]. contradiction. }
      assert (Hlen' : Z.of_nat (List.length (acc ++ [pos])) <= mines).
      { rewrite length_app. cbn. lia. }
      destruct (IH _ ps Hnd' Hlen' Hrun) as [H1 [H2 H3]].
      split; [assumption|]. split; [assumption|].
      intros x Hx. specialize (H3 x Hx).
      rewrite !in_app_iff in *. cbn in *. tauto.
  - injection Hrun as <-.
    split; [assumption|]. split; [lia | apply incl_appl, incl_refl].
Qed.

Lemma remove_length_NoDup (x : Z) (l : list Z) :
  NoDup l -> (List.length l <= S (List.length (remove Z.eq_dec x l)))%nat.
Proof.
  induction 1 as [|y l Hy Hnd IH]; cbn; [lia|].
  destruct (Z.eq_dec x y) as [-> | Hne].
  - rewrite notin_remove by assumption. lia.
  - cbn. lia.
Qed.

(** The loop ends as soon as the draws hold enough distinct new values. *)
Lemma placeMines_complete (mines : Z) (draws : list Z) :
  forall acc l,
    NoDup l -> incl l draws -> (forall x, In x l -> ~ In x acc) ->
    mines <= Z.of_nat (List.length acc) + Z.of_nat (List.length l) ->
    exists ps, MineRoutes.placeMines mines draws acc = Some ps.
Proof.
  induction draws as [|pos rest IH]; intros acc l Hnd Hincl Hfresh Hlen;
    cbn [MineRoutes.placeMines];
    destruct (Z.ltb_spec (Z.of_nat (List.length acc)) mines) as [Hlt | Hge];
    try (eexists; reflexivity).
  - destruct l as [|x l]; [cbn in Hlen; lia|].
    exfalso. apply (Hincl x). now left.
  - destruct (existsb (Z.eqb pos) acc) eqn:Hmem.
    + apply existsb_Zeqb_In in Hmem.
      apply (IH acc l); try assumption.
      intros x Hx. destruct (Hincl x Hx) as [<- | Hin]; [|assumption].
      exfalso. exact (Hfresh pos Hx Hmem).
    + apply existsb_Zeqb_notIn in Hmem.
      apply (IH (acc ++ [pos]) (remove Z.eq_dec pos l)).
      * clear -Hnd. induction Hnd as [|y l Hy Hnd IH]; cbn; [constructor|].
        destruct (Z.eq_dec pos y); [assumption|].
        constructor; [|assumption].
        intros Hin. apply in_remove in Hin. tauto.
      * intros x Hx. apply in_remove in Hx. destruct Hx as [Hx Hne].
        destruct (Hincl x Hx) as [<- | Hin]; [congruence | assumption].
      * intros x Hx. apply in_remove in Hx. destruct Hx as [Hx Hne].
        rewrite in_app_iff. cbn. intros [Hacc | [<- | []]];
          [exact (Hfresh x Hx Hacc) | congruence].
      * pose proof (remove_length_NoDup pos l Hnd). rewrite length_app. cbn. lia.
Qed.

Lemma map_point_markMines (ps : list Z) (cells : list MineGame.Cell) :
  map MineGame.point (MineRoutes.markMines ps cells) = map MineGame.point cells.
Proof.
  unfold MineRoutes.markMines. rewrite map_map. reflexivity.
Qed.

Lemma minePoints_markMines (ps : list Z) (cells : list MineGame.Cell) :
  MineRoutes.minePoints (MineRoutes.markMines ps cells)
  = filter (fun i => existsb (Z.eqb i) ps) (map MineGame.point cells).
Proof.
  unfold MineRoutes.minePoints, MineRoutes.markMines.
  induction cells as [|c cells IH]; [reflexivity|].
  cbn [map filter]. unfold MineGame.isBomb at 1. cbn [MineGame.mine MineGame.point].
  destruct (existsb (Z.eqb (MineGame.point c)) ps); cbn [map]; rewrite IH; reflexivity.
Qed.

Lemma NoDup_zrange (n : nat) : forall lo, NoDup (zrange lo n).
Proof.
  induction n as [|n IH]; intros lo; cbn; constructor.
  - rewrite zrange_In. lia.
  - apply IH.
Qed.

(** Marking the cells at distinct positions of the grid marks as many cells
    as there are positions. *)
Lemma minePoints_count (ps : list Z) :
  NoDup ps -> Forall (fun p => 0 <= p < 25) ps ->
  let marked := MineRoutes.minePoints (MineRoutes.markMines ps MineRoutes.initialDatas) in
  NoDup marked /\ List.length marked = List.length ps
  /\ (forall p, In p marked <-> In p ps).
Proof.
  intros Hnd Hrange marked. subst marked.
  rewrite minePoints_markMines.
  unfold MineRoutes.initialDatas. rewrite map_map. cbn [MineGame.point].
  rewrite map_id.
  set (grid := zrange 0 25).
  assert (Hgrid : NoDup grid) by apply NoDup_zrange.
  assert (Hin : forall p, In p grid <-> 0 <= p < 25).
  { intros p. unfold grid. rewrite zrange_In. lia. }
  clearbody grid.
  set (marked := filter (fun i => existsb (Z.eqb i) ps) grid).
  assert (Hiff : forall p, In p marked <-> In p ps).
  { intros p. unfold marked. rewrite filter_In, existsb_Zeqb_In, Hin.
    rewrite Forall_forall in Hrange. split; [tauto|].
    intros Hp. split; [exact (Hrange p Hp) | exact Hp]. }
  assert (Hnd' : NoDup marked) by (apply NoDup_filter, Hgrid).
  clearbody marked.
  split; [exact Hnd'|]. split; [|exact Hiff].
  apply Nat.le_antisymm.
  - apply NoDup_incl_length; [exact Hnd'|].
    intros p Hp. apply (proj1 (Hiff p)). exact Hp.
  - apply NoDup_incl_length; [exact Hnd|].
    intros p Hp. apply (proj2 (Hiff p)). exact Hp.
Qed.




(** ** Numbers: facts used by the handlers *)

Lemma SFeqb_SFleb (a b : spec_float) : SFeqb a b = true -> SFleb a b = true.
Proof.
  unfold SFeqb, SFleb. destruct (SFcompare a b) as [[| |]|]; congruence.
Qed.

Lemma SFltb_SFleb (a b : spec_float) : SFltb a b = true -> SFleb a b = true.
Proof.
  unfold SFltb, SFleb. destruct (SFcompare a b) as [[| |]|]; congruence.
Qed.

(** A number that is not [<= 0] and is an integer is truthy. *)
Lemma positive_integer_truthy (x : float) :
  JsNumber.isInteger x = true -> PrimFloat.leb x 0 = false ->
  JsNumber.truthy x = true.
Proof.
  intros Hint Hpos.
  unfold JsNumber.isInteger, JsNumber.isFinite, PrimFloat.is_finite in Hint.
  apply andb_prop in Hint. destruct Hint as [Hfin _].
  apply negb_true_iff, orb_false_iff in Hfin. destruct Hfin as [Hnan _].
  unfold JsNumber.truthy. rewrite Hnan. cbn [orb].
  apply negb_true_iff. unfold PrimFloat.is_zero.
  destruct (PrimFloat.eqb x PrimFloat.zero) eqn:Hz; [|reflexivity].
  rewrite FloatAxioms.eqb_spec in Hz. apply SFeqb_SFleb in Hz.
  rewrite <- FloatAxioms.leb_spec in Hz.
  change PrimFloat.zero with 0%float in Hz. congruence.
Qed.

(** ** The sessions table *)

Lemma applyUpdates_row_id (u : MineGame.Updates) (r : MineGame.Row) :
  MineGame.row_id (MineGame.applyUpdates u r) = MineGame.row_id r.
Proof. reflexivity. Qed.

Lemma rowMatches_byId (gameId : Z) (r : MineGame.Row) :
  MineGame.rowMatches (MineSpec.byId gameId) r = (gameId =? MineGame.row_id r).
Proof.
  unfold MineGame.rowMatches, MineSpec.byId. cbn.
  rewrite !andb_true_r. reflexivity.
Qed.

(** Updating a session by id updates the row that a lookup by id finds. *)
Lemma find_findByIdAndUpdate (gameId : Z) (u : MineGame.Updates)
    (rows : list MineGame.Row) :
  find (MineGame.rowMatches (MineSpec.byId gameId))
       (MineGame.findByIdAndUpdate gameId u rows)
  = option_map (MineGame.applyUpdates u)
               (find (MineGame.rowMatches (MineSpec.byId gameId)) rows).
Proof.
  unfold MineGame.findByIdAndUpdate.
  induction rows as [|r rows IH]; [reflexivity|].
  cbn [map find]. rewrite !rowMatches_byId.
  destruct (Z.eqb_spec (MineGame.row_id r) gameId) as [Heq | Hne].
  - rewrite applyUpdates_row_id, Heq, Z.eqb_refl. reflexivity.
  - destruct (Z.eqb_spec gameId (MineGame.row_id r)); [congruence|].
    exact IH.
Qed.

Lemma findOne_row (gameId : Z) (rows : list MineGame.Row) (game : MineGame.Game) :
  MineGame.findOne (MineSpec.byId gameId) rows = Some game ->
  exists r, find (MineGame.rowMatches (MineSpec.byId gameId)) rows = Some r
            /\ game = MineGame.gameOfRow r /\ MineGame.row_id r = gameId.
Proof.
  unfold MineGame.findOne. intros H.
  destruct (find (MineGame.rowMatches (MineSpec.byId gameId)) rows) as [r|] eqn:Hfind;
    [|discriminate H].
  injection H as <-. exists r. split; [reflexivity|]. split; [reflexivity|].
  apply find_some in Hfind. destruct Hfind as [_ Hm].
  rewrite rowMatches_byId in Hm. apply Z.eqb_eq in Hm. congruence.
Qed.

(** ** POST /cashout *)

Ltac unfold_handler :=
  cbv beta iota zeta delta
    [MineRoutes.respond MineRoutes.tryCatch MineRoutes.bind MineRoutes.ret
     MineRoutes.throw MineRoutes.json MineRoutes.jsonStatus
     MineRoutes.dbFindOne MineRoutes.dbUpdate MineRoutes.evalIdent
     MineRoutes.recordMineMove MineSpec.cashoutCatch].

(** A request that reaches a session runs the settlement part of the
    handler on it. *)
Lemma cashout_reaches (HOUSE_EDGE : float) (net : QubicPayout.Network)
    (req : MineRoutes.Request) (w : MineRoutes.World) (game : MineGame.Game) :
  MineSpec.cashoutTarget req w = Some game ->
  MineRoutes.cashout HOUSE_EDGE net req w
  = MineRoutes.respond
      (MineRoutes.tryCatch
         (MineRoutes.cashoutSettle HOUSE_EDGE net game
            (Validation.normalizeQubicPublicId (Some (MineGame.publicKey game))))
         MineSpec.cashoutCatch) w.
Proof.
  unfold MineSpec.cashoutTarget, MineRoutes.cashout, MineRoutes.cashoutBody.
  destruct (MineRoutes.body_gameId req) as [gameId|]; [|discriminate].
  destruct (0 <? gameId) eqn:Hpos; [|discriminate]. cbn [andb].
  destruct (MineRoutes.truthyOption (MineRoutes.requestWallet req)); [|discriminate].
  cbn [andb].
  destruct (Validation.isValidQubicPublicId
              (Validation.normalizeQubicPublicId (MineRoutes.requestWallet req)));
    [|discriminate].
  apply Z.ltb_lt in Hpos.
  replace (gameId =? 0) with false by (symmetry; apply Z.eqb_neq; lia).
  replace (gameId <=? 0) with false by (symmetry; apply Z.leb_gt; lia).
  cbn [orb negb].
  unfold_handler. fold (MineSpec.byId gameId).
  destruct (MineGame.findOne (MineSpec.byId gameId) (MineRoutes.rows w)) as [g|];
    [|discriminate].
  destruct (Validation.isValidQubicPublicId
              (Validation.normalizeQubicPublicId (Some (MineGame.publicKey g))));
    [|discriminate].
  cbn [andb negb].
  destruct (String.eqb _ _); [|discriminate].
  intros H. injection H as <-. reflexivity.
Qed.

(** A request that reaches no session is refused and changes nothing. *)
Lemma cashout_refused (HOUSE_EDGE : float) (net : QubicPayout.Network)
    (req : MineRoutes.Request) (w : MineRoutes.World) :
  MineSpec.cashoutTarget req w = None ->
  snd (MineRoutes.cashout HOUSE_EDGE net req w) = w
  /\ MineRoutes.statusCode (fst (MineRoutes.cashout HOUSE_EDGE net req w)) <> 200.
Proof.
  unfold MineSpec.cashoutTarget, MineRoutes.cashout, MineRoutes.cashoutBody.
  destruct (MineRoutes.body_gameId req) as [gameId|];
    [|intros _; split; [reflexivity | cbn; discriminate]].
  destruct (Z.eqb_spec gameId 0) as [-> | Hne];
    [intros _; split; [reflexivity | cbn; discriminate]|].
  cbn [orb].
  destruct (MineRoutes.truthyOption (MineRoutes.requestWallet req));
    [|intros _; split; [reflexivity | cbn; discriminate]].
  cbn [negb andb].
  destruct (Validation.isValidQubicPublicId
              (Validation.normalizeQubicPublicId (MineRoutes.requestWallet req)));
    [|intros _; split; [reflexivity | cbn; discriminate]].
  cbn [negb andb].
  destruct (Z.leb_spec gameId 0) as [Hle | Hgt];
    [intros _; split; [reflexivity | cbn; discriminate]|].
  replace (0 <? gameId) with true by (symmetry; apply Z.ltb_lt; lia).
  cbn [andb].
  unfold_handler. fold (MineSpec.byId gameId).
  destruct (MineGame.findOne (MineSpec.byId gameId) (MineRoutes.rows w)) as [g|];
    [|intros _; split; [reflexivity | cbn; discriminate]].
  destruct (Validation.isValidQubicPublicId
              (Validation.normalizeQubicPublicId (Some (MineGame.publicKey g))));
    [|intros _; split; [reflexivity | cbn; discriminate]].
  cbn [andb negb].
  destruct (String.eqb _ _); [discriminate|].
  intros _; split; [reflexivity | cbn; discriminate].
Qed.

(** The idempotent branch: a session that is not LIVE is answered from the
    recorded state, without any effect. *)
Lemma cashoutSettle_ended (HOUSE_EDGE : float) (net : QubicPayout.Network)
    (game : MineGame.Game) (owner : string) (w : MineRoutes.World) :
  MineGame.status game <> MineGame.LIVE ->
  MineRoutes.respond
    (MineRoutes.tryCatch (MineRoutes.cashoutSettle HOUSE_EDGE net game owner)
                         MineSpec.cashoutCatch) w
  = (MineRoutes.mkResponse 200
       (MineRoutes.EndBody (MineGame.id game)
          (MineRoutes.openedPoints (MineGame.datas game)) (MineGame.datas game)
          (Js.orString (MineGame.payoutTxId game) None)
          (Js.numberOrNull (MineGame.payoutAmount game)) None None), w).
Proof.
  intros Hst. unfold MineRoutes.cashoutSettle.
  destruct (MineGame.status game); try contradiction; reflexivity.
Qed.

(** The imported transfer function is bound in the handler: the call
    requests the transfer and logs it with the table as it is then. *)
Lemma callTransfer_imported (net : QubicPayout.Network) (to : string)
    (amount : float) (w : MineRoutes.World) :
  MineRoutes.callTransfer net MineRoutes.cashoutScope "payFromCasinoToUser"
                          to amount w
  = let w' := MineRoutes.mkWorld (MineRoutes.rows w)
                (MineRoutes.transfers w
                 ++ [MineRoutes.mkTransferCall to amount (MineRoutes.rows w)])
                (MineRoutes.moves w) in
    match QubicPayout.payFromCasinoToUser net
            (List.length (MineRoutes.transfers w)) to amount with
    | inr receipt => (MineRoutes.Return receipt, w')
    | inl e => (MineRoutes.Throw e, w')
    end.
Proof. reflexivity. Qed.

(** The settlement of a LIVE session with a positive payout, step by step. *)
Lemma cashoutSettle_live (HOUSE_EDGE : float) (net : QubicPayout.Network)
    (game : MineGame.Game) (owner : string) (w : MineRoutes.World)
    (r : MineGame.Row) :
  MineGame.status game = MineGame.LIVE ->
  PrimFloat.leb (MinesPayout.payoutAmount (MineRoutes.payoutOf HOUSE_EDGE game)) 0
    = false ->
  MineSpec.rowOf (MineGame.id game) w = Some r ->
  let payout := MineRoutes.payoutOf HOUSE_EDGE game in
  let amount := MinesPayout.payoutAmount payout in
  let ended :=
    MineGame.findByIdAndUpdate (MineGame.id game)
      (MineGame.mkUpdates (Some MineGame.ENDED) None (Some amount) None None None
         (Some (MineRoutes.countRevealedGems (MineGame.datas game))))
      (MineRoutes.rows w) in
  let log := MineRoutes.transfers w ++ [MineRoutes.mkTransferCall owner amount ended] in
  MineRoutes.respond
    (MineRoutes.tryCatch (MineRoutes.cashoutSettle HOUSE_EDGE net game owner)
                         MineSpec.cashoutCatch) w
  = match QubicPayout.payFromCasinoToUser net
            (List.length (MineRoutes.transfers w)) owner amount with
    | inr receipt =>
        let sent :=
          MineGame.findByIdAndUpdate (MineGame.id game)
            (MineGame.mkUpdates None None None
               (Some (Some (QubicPayout.receiptTxId receipt)))
               (Some MineGame.SENT) (Some None) None) ended in
        let updatedGame :=
          MineGame.gameOfRow
            (MineGame.applyUpdates
               (MineGame.mkUpdates None None None
                  (Some (Some (QubicPayout.receiptTxId receipt)))
                  (Some MineGame.SENT) (Some None) None)
               (MineGame.applyUpdates
                  (MineGame.mkUpdates (Some MineGame.ENDED) None (Some amount)
                     None None None
                     (Some (MineRoutes.countRevealedGems (MineGame.datas game))))
                  r)) in
        (MineRoutes.mkResponse 200
           (MineRoutes.EndBody (MineGame.id game)
              (MineRoutes.openedPoints (MineGame.datas updatedGame))
              (MineGame.datas updatedGame)
              (Some (QubicPayout.receiptTxId receipt)) (Some amount)
              (Some (MinesPayout.multiplier payout))
              (Some (QubicPayout.receiptTick receipt))),
         MineRoutes.mkWorld sent log (MineRoutes.moves w))
    | inl e =>
        (MineRoutes.mkResponse 500
           (MineRoutes.ErrorBody (MineRoutes.messageOr e "cashout failed")),
         MineRoutes.mkWorld
           (MineGame.findByIdAndUpdate (MineGame.id game)
              (MineGame.mkUpdates (Some MineGame.LIVE) None None None
                 (Some MineGame.FAILED)
                 (Some (Some (MineRoutes.errorText e))) None) ended)
           log (MineRoutes.moves w))
    end.
Proof.
  intros Hst Hpos Hrow payout amount ended log.
  unfold MineRoutes.cashoutSettle. rewrite Hst. cbn [MineGame.statusEqb negb].
  cbv zeta. rewrite Hpos. fold payout. fold amount.
  unfold_handler. rewrite callTransfer_imported.
  cbv beta iota zeta. cbn [MineRoutes.rows MineRoutes.transfers MineRoutes.moves].
  fold ended. fold log.
  destruct (QubicPayout.payFromCasinoToUser net
              (List.length (MineRoutes.transfers w)) owner amount) as [e | receipt].
  - reflexivity.
  - fold (MineSpec.byId (MineGame.id game)).
    unfold MineGame.findOne. rewrite find_findByIdAndUpdate.
    cbn [MineRoutes.rows]. subst log ended. rewrite find_findByIdAndUpdate.
    unfold MineSpec.rowOf in Hrow. rewrite Hrow. reflexivity.
Qed.

Lemma cashoutSettle_nothing (HOUSE_EDGE : float) (net : QubicPayout.Network)
    (game : MineGame.Game) (owner : string) (w : MineRoutes.World) :
  MineGame.status game = MineGame.LIVE ->
  PrimFloat.leb (MinesPayout.payoutAmount (MineRoutes.payoutOf HOUSE_EDGE game)) 0
    = true ->
  MineRoutes.respond
    (MineRoutes.tryCatch (MineRoutes.cashoutSettle HOUSE_EDGE net game owner)
                         MineSpec.cashoutCatch) w
  = (MineRoutes.mkResponse 400
       (MineRoutes.ErrorBody "Cashout requires at least 1 revealed GEM"), w).
Proof.
  intros Hst Hle. unfold MineRoutes.cashoutSettle.
  rewrite Hst. cbn [MineGame.statusEqb negb]. cbv zeta. rewrite Hle. reflexivity.
Qed.

(** What a transfer that went through guarantees, and how one that did not
    is reported. *)
Lemma payFromCasinoToUser_sent (net : QubicPayout.Network) (n : nat)
    (to : string) (amount : float) (receipt : QubicPayout.Receipt) :
  QubicPayout.payFromCasinoToUser net n to amount = inr receipt ->
  JsNumber.isInteger amount = true /\ PrimFloat.leb amount 0 = false
  /\ Js.truthyString (QubicPayout.receiptTxId receipt) = true.
Proof.
  unfold QubicPayout.payFromCasinoToUser.
  destruct (QubicPayout.configError net); [discriminate|].
  destruct (JsNumber.isInteger amount); [|discriminate].
  destruct (PrimFloat.leb amount 0); [discriminate|]. cbn [negb orb].
  destruct (QubicPayout.broadcast net n to amount) as [m | txId tick];
    [discriminate|].
  destruct (Js.truthyString txId) eqn:Htx; [|discriminate].
  intros H. injection H as <-. cbn. auto.
Qed.

Lemma payFromCasinoToUser_failed (net : QubicPayout.Network) (n : nat)
    (to : string) (amount : float) (e : Js.Error) :
  QubicPayout.payFromCasinoToUser net n to amount = inl e ->
  Js.truthyString (MineRoutes.errorText e) = true.
Proof.
  intros H.
  assert (Hname : Js.errName e = "Error"%string).
  { revert H. unfold QubicPayout.payFromCasinoToUser.
    destruct (QubicPayout.configError net);
      [intros H; injection H as <-; reflexivity|].
    destruct (negb (JsNumber.isInteger amount) || PrimFloat.leb amount 0);
      [intros H; injection H as <-; reflexivity|].
    destruct (QubicPayout.broadcast net n to amount) as [m | txId tick];
      [intros H; injection H as <-; reflexivity|].
    destruct (Js.truthyString txId); [discriminate|].
    intros H; injection H as <-; reflexivity. }
  unfold MineRoutes.errorText.
  destruct (Js.truthyString (Js.errMessage e)) eqn:Hm; [exact Hm|].
  unfold Js.stringOfError. unfold Js.truthyString in Hm.
  apply negb_false_iff in Hm. rewrite Hm, Hname. reflexivity.
Qed.

Lemma orString_truthy (s : string) :
  Js.truthyString s = true -> Js.orString (Some s) None = Some s.
Proof. intros H. unfold Js.orString. rewrite H. reflexivity. Qed.

Lemma ltb_zero_not_leb (x : float) :
  PrimFloat.ltb 0 x = true -> PrimFloat.leb x 0 = false.
Proof.
  rewrite FloatAxioms.ltb_spec, FloatAxioms.leb_spec.
  change (Prim2SF 0) with (S754_zero false).
  destruct (Prim2SF x) as [s | s | | s m e]; try destruct s;
    cbn; congruence.
Qed.

(** The request reaches the session that a lookup by its id finds. *)
Lemma cashoutTarget_found (req : MineRoutes.Request) (w : MineRoutes.World)
    (game : MineGame.Game) :
  MineSpec.cashoutTarget req w = Some game ->
  exists r,
    MineRoutes.body_gameId req = Some (MineGame.id game)
    /\ MineSpec.rowOf (MineGame.id game) w = Some r
    /\ game = MineGame.gameOfRow r.
Proof.
  unfold MineSpec.cashoutTarget.
  destruct (MineRoutes.body_gameId req) as [gameId|]; [|discriminate].
  destruct (_ && _ && _); [|discriminate].
  destruct (MineGame.findOne (MineSpec.byId gameId) (MineRoutes.rows w))
    as [g|] eqn:Hfind; [|discriminate].
  destruct (_ && _); [|discriminate].
  intros H. injection H as <-.
  destruct (findOne_row _ _ _ Hfind) as [r [Hr [Hg Hid]]].
  exists r. subst g. cbn [MineGame.gameOfRow MineGame.id]. rewrite Hid.
  repeat split; try reflexivity. exact Hr.
Qed.

(** Updates by id keep the request on the same session. *)
Lemma cashoutTarget_updated (req : MineRoutes.Request) (w w' : MineRoutes.World)
    (r r' : MineGame.Row) :
  MineSpec.cashoutTarget req w = Some (MineGame.gameOfRow r) ->
  MineSpec.rowOf (MineGame.row_id r) w' = Some r' ->
  MineGame.wallet_public_key r' = MineGame.wallet_public_key r ->
  MineSpec.cashoutTarget req w' = Some (MineGame.gameOfRow r').
Proof.
  intros Ht Hrow Hkey.
  destruct (cashoutTarget_found _ _ _ Ht) as [r0 [Hid _]].
  revert Ht. unfold MineSpec.cashoutTarget. rewrite Hid.
  cbn [MineGame.gameOfRow MineGame.id].
  destruct (_ && _ && _); [|discriminate].
  unfold MineGame.findOne. unfold MineSpec.rowOf in Hrow. rewrite Hrow.
  destruct (find _ (MineRoutes.rows w)) as [r1|]; [|discriminate].
  cbn [option_map MineGame.gameOfRow MineGame.publicKey].
  rewrite Hkey.
  destruct (_ && _) eqn:Hown; [|discriminate].
  intros H.
  pose proof (f_equal (option_map MineGame.publicKey) H) as Hk.
  cbn [option_map MineGame.gameOfRow MineGame.publicKey] in Hk.
  injection Hk as Hk. rewrite <- Hk, Hown.
  reflexivity.
Qed.





(** ** POST /claim *)

(** The identifier the retry calls is bound nowhere in the module. *)
Lemma payUserFromCasino_unbound :
  Js.bound MineRoutes.claimScope "payUserFromCasino" = false
  /\ Js.bound MineRoutes.claimScope "payFromCasinoToUser" = true.
Proof. split; reflexivity. Qed.

Lemma callTransfer_unbound (net : QubicPayout.Network) (to : string)
    (amount : float) (w : MineRoutes.World) :
  MineRoutes.callTransfer net MineRoutes.claimScope "payUserFromCasino"
                          to amount w
  = (MineRoutes.Throw (Js.ReferenceError "payUserFromCasino"), w).
Proof. reflexivity. Qed.

(** No path of the handler reaches the success response: the only one runs
    through the call of the unbound identifier. *)
Lemma claim_never_succeeds (net : QubicPayout.Network)
    (req : MineRoutes.Request) (w : MineRoutes.World) :
  MineRoutes.statusCode (fst (MineRoutes.claim net req w)) <> 200.
Proof.
  unfold MineRoutes.claim, MineRoutes.claimBody.
  destruct (negb (Validation.isValidQubicPublicId _)); [cbn; discriminate|].
  unfold_handler.
  destruct (MineGame.findOne _ (MineRoutes.rows w)) as [g|]; [|cbn; discriminate].
  destruct (negb (String.eqb (MineGame.publicKey g) _)); [cbn; discriminate|].
  destruct (existsb _ (MineGame.datas g)); [cbn; discriminate|].
  destruct (MineGame.payoutAmount g) as [a|]; [|cbn; discriminate].
  destruct (negb (JsNumber.truthy a) || PrimFloat.leb a 0); [cbn; discriminate|].
  rewrite callTransfer_unbound. cbn. discriminate.
Qed.

(** C8: every claim that passes its precondition checks (a session of the
    requester with payout status FAILED, no mined bomb, a positive recorded
    amount) fails at the transfer step, whatever the network: the callee
    [payUserFromCasino] is not bound, no transfer is requested, the session
    ends with payout status FAILED and the response is 502 "Payout retry
    failed"; and no claim at all is ever answered with a success. *)
Theorem claim_always_fails (net : QubicPayout.Network)
    (req : MineRoutes.Request) (w : MineRoutes.World)
    (game : MineGame.Game) (amountDue : float) :
  let requester :=
    Validation.normalizeQubicPublicId
      (Js.orString (MineRoutes.body_publicId req) (MineRoutes.header_publicId req)) in
  Validation.isValidQubicPublicId requester = true ->
  MineGame.findOne
    (MineGame.mkFilters
       (match MineRoutes.body_gameId req with
        | Some g => if g =? 0 then None else Some g
        | None => None
        end)
       (Some requester) None (Some MineGame.FAILED) None)
    (MineRoutes.rows w) = Some game ->
  existsb (fun d => MineGame.mined d && MineGame.isBomb d) (MineGame.datas game)
    = false ->
  MineGame.payoutAmount game = Some amountDue ->
  PrimFloat.ltb 0 amountDue = true ->
  let response := fst (MineRoutes.claim net req w) in
  let w' := snd (MineRoutes.claim net req w) in
  response = MineRoutes.mkResponse 502
               (MineRoutes.RetryFailedBody "Payout retry failed"
                                           "payUserFromCasino is not defined")
  /\ MineRoutes.transfers w' = MineRoutes.transfers w
  /\ MineRoutes.rows w'
     = MineGame.findByIdAndUpdate (MineGame.id game)
         (MineGame.mkUpdates None None None None (Some MineGame.FAILED)
            (Some (Some "payUserFromCasino is not defined"%string)) None)
         (MineGame.findByIdAndUpdate (MineGame.id game)
            (MineGame.mkUpdates None None None None (Some MineGame.PENDING)
               (Some None) None)
            (MineRoutes.rows w))
  /\ (forall r, MineSpec.rowOf (MineGame.id game) w = Some r ->
        exists final,
          MineSpec.rowOf (MineGame.id game) w' = Some final
          /\ MineGame.payout_status final = MineGame.FAILED
          /\ MineGame.payout_error final
             = Some "payUserFromCasino is not defined"%string
          /\ MineGame.payout_tx_id final = MineGame.payout_tx_id r
          /\ MineGame.row_status final = MineGame.row_status r)
  /\ (forall net' req' w0,
        MineRoutes.statusCode (fst (MineRoutes.claim net' req' w0)) <> 200).
Proof.
  intros requester Hvalid Hfind Hbomb Hamount Hpos response w'.
  assert (Hkey : MineGame.publicKey game = requester).
  { unfold MineGame.findOne in Hfind.
    destruct (find _ _) as [r|] eqn:Hr; [|discriminate].
    injection Hfind as <-. apply find_some in Hr. destruct Hr as [_ Hm].
    unfold MineGame.rowMatches in Hm. cbn [MineGame.f_publicKey] in Hm.
    rewrite !andb_true_iff in Hm. destruct Hm as [[[[_ Hm] _] _] _].
    cbn [MineGame.optionMatches] in Hm. apply String.eqb_eq in Hm.
    cbn [MineGame.gameOfRow MineGame.publicKey]. symmetry. exact Hm. }
  assert (Hle : PrimFloat.leb amountDue 0 = false) by (apply ltb_zero_not_leb, Hpos).
  assert (Htruthy : JsNumber.truthy amountDue = true).
  { unfold JsNumber.truthy. apply negb_true_iff, orb_false_iff. split.
    - unfold PrimFloat.is_nan. apply negb_false_iff.
      rewrite FloatAxioms.eqb_spec. rewrite FloatAxioms.ltb_spec in Hpos.
      change (Prim2SF 0) with (S754_zero false) in Hpos.
      destruct (Prim2SF amountDue) as [s | s | | s m e]; try destruct s;
        cbn in *; try congruence.
      + unfold SFeqb, SFcompare. rewrite Z.compare_refl, Pos.compare_cont_refl.
        reflexivity.
    - unfold PrimFloat.is_zero.
      destruct (PrimFloat.eqb amountDue PrimFloat.zero) eqn:Hz; [|reflexivity].
      rewrite FloatAxioms.eqb_spec in Hz. apply SFeqb_SFleb in Hz.
      rewrite <- FloatAxioms.leb_spec in Hz.
      change PrimFloat.zero with 0%float in Hz. congruence. }
  assert (Hrun : MineRoutes.claim net req w
                 = (MineRoutes.mkResponse 502
                      (MineRoutes.RetryFailedBody "Payout retry failed"
                         "payUserFromCasino is not defined"),
                    MineRoutes.mkWorld
                      (MineGame.findByIdAndUpdate (MineGame.id game)
                         (MineGame.mkUpdates None None None None (Some MineGame.FAILED)
                            (Some (Some "payUserFromCasino is not defined"%string))
                            None)
                         (MineGame.findByIdAndUpdate (MineGame.id game)
                            (MineGame.mkUpdates None None None None
                               (Some MineGame.PENDING) (Some None) None)
                            (MineRoutes.rows w)))
                      (MineRoutes.transfers w) (MineRoutes.moves w))).
  { unfold MineRoutes.claim, MineRoutes.claimBody. fold requester.
    rewrite Hvalid. cbn [negb]. unfold_handler. rewrite Hfind.
    rewrite Hkey, String.eqb_refl. cbn [negb]. rewrite Hbomb, Hamount.
    rewrite Htruthy, Hle. cbn [negb orb].
    rewrite callTransfer_unbound. reflexivity. }
  subst response w'. rewrite Hrun. cbn [fst snd MineRoutes.transfers MineRoutes.rows].
  split; [reflexivity|]. split; [reflexivity|]. split; [reflexivity|].
  split; [|exact claim_never_succeeds].
  intros r Hr. unfold MineSpec.rowOf in *. cbn [MineRoutes.rows].
  rewrite !find_findByIdAndUpdate, Hr. cbn [option_map].
  eexists. split; [reflexivity|].
  split; [reflexivity|]. split; [reflexivity|]. split; reflexivity.
Qed.

Lemma claim_always_fails_witness :
  MineRoutes.claim networkUp claimRequest1 world_failed_payout
  = (MineRoutes.mkResponse 502
       (MineRoutes.RetryFailedBody "Payout retry failed"
                                   "payUserFromCasino is not defined"),
     snd (MineRoutes.claim networkUp claimRequest1 world_failed_payout))
  /\ MineRoutes.transfers
       (snd (MineRoutes.claim networkUp claimRequest1 world_failed_payout)) = [].
Proof.
  destruct (claim_always_fails networkUp claimRequest1 world_failed_payout
              (MineGame.gameOfRow row_failed_payout) 1967%float)
    as [Hresp [Htransfers _]];
    try (vm_compute; reflexivity).
  split; [|exact Htransfers].
  rewrite <- Hresp. apply surjective_pairing.
Defined.

(** ** POST /bet *)

(** Where the handler records the move, [tileIndex] is bound by no scope:
    it is a constant of the handlers of [/pick] and [/reveal] only. *)
Lemma tileIndex_unbound :
  Js.bound MineRoutes.betScope "tileIndex" = false
  /\ Js.bound MineRoutes.betScope "point" = true.
Proof. split; reflexivity. Qed.

(** The cells of a stored session are the 25 cells in order, so a cell of
    the grid is always found, at its own index. *)
Lemma findIndex_grid (f : Z -> MineGame.Cell) (p : Z) :
  (forall i, MineGame.point (f i) = i) ->
  forall n lo,
    lo <= p < lo + Z.of_nat n ->
    MineRoutes.findIndex p (map f (zrange lo n)) = Some (Z.to_nat (p - lo))
    /\ nth_error (map f (zrange lo n)) (Z.to_nat (p - lo)) = Some (f p).
Proof.
  intros Hf. induction n as [|n IH]; intros lo Hp; [lia|].
  cbn [zrange map MineRoutes.findIndex]. rewrite Hf.
  destruct (Z.eqb_spec lo p) as [-> | Hne].
  - rewrite Z.sub_diag. split; reflexivity.
  - destruct (IH (lo + 1) ltac:(lia)) as [Hidx Hnth].
    rewrite Hidx. cbn [option_map].
    replace (Z.to_nat (p - lo)) with (S (Z.to_nat (p - (lo + 1)))) by lia.
    split; [reflexivity | exact Hnth].
Qed.

(** C10: every request to [/bet] for a valid, not yet revealed cell of a LIVE
    unexpired session of the requester is answered 500 and persists nothing:
    the handler evaluates the unbound [tileIndex] before any write, so no
    move is recorded and the table is unchanged. *)
Theorem bet_always_fails (req : MineRoutes.Request) (w : MineRoutes.World)
    (game : MineGame.Game) (point : Z) :
  let publicId :=
    Validation.normalizeQubicPublicId
      (Js.orString (MineRoutes.body_publicId req) (MineRoutes.header_publicId req)) in
  Validation.isValidQubicPublicId publicId = true ->
  MineRoutes.body_point req = Some point ->
  0 <= point < 25 ->
  MineGame.findOne
    (MineGame.mkFilters None (Some publicId) (Some MineGame.LIVE) None
                        (Some (MineRoutes.now req)))
    (MineRoutes.rows w) = Some game ->
  MineGame.maskHas (MineGame.revealedMask game) point = false ->
  MineRoutes.bet req w
  = (MineRoutes.mkResponse 500 (MineRoutes.ErrorBody "tileIndex is not defined"), w).
Proof.
  intros publicId Hvalid Hpoint Hrange Hfind Hfresh.
  assert (Hgame : exists r, game = MineGame.gameOfRow r).
  { unfold MineGame.findOne in Hfind. destruct (find _ _) as [r|]; [|discriminate].
    injection Hfind as <-. now exists r. }
  destruct Hgame as [r ->].
  cbn [MineGame.gameOfRow MineGame.revealedMask] in Hfresh.
  destruct (findIndex_grid
              (fun i => MineGame.mkCell i
                 (Some (if MineGame.maskHas (MineGame.mines_mask r) i
                        then MineGame.BOMB else MineGame.GEM))
                 (MineGame.maskHas (MineGame.revealed_mask r) i))
              point (fun i => eq_refl) 25%nat 0 ltac:(lia)) as [Hidx Hnth].
  unfold MineRoutes.bet, MineRoutes.betBody. fold publicId.
  rewrite Hvalid, Hpoint. cbn [negb].
  replace (point <? 0) with false by (symmetry; apply Z.ltb_ge; lia).
  replace (25 <=? point) with false by (symmetry; apply Z.leb_gt; lia).
  cbn [orb]. unfold_handler. rewrite Hfind.
  cbn [MineGame.gameOfRow MineGame.datas].
  unfold MineGame.buildDatasFromMasks.
  change (Z.to_nat MineGame.MINE_CELL_COUNT) with 25%nat.
  rewrite Hidx, Hnth. cbn [MineGame.mined]. rewrite Hfresh.
  reflexivity.
Qed.

Lemma bet_always_fails_witness :
  MineRoutes.bet betRequest1 world1
  = (MineRoutes.mkResponse 500 (MineRoutes.ErrorBody "tileIndex is not defined"),
     world1).
Proof.
  apply (bet_always_fails betRequest1 world1 (MineGame.gameOfRow row_3_1000_5) 10);
    try (vm_compute; reflexivity).
  lia.
Defined.

(** ** Order on numbers *)

(** [<=] on numbers is transitive (no NaN is below or above anything). *)
Lemma SFleb_trans (a b c : spec_float) :
  SFleb a b = true -> SFleb b c = true -> SFleb a c = true.
Proof.
  unfold SFleb, SFcompare.
  destruct a as [sa | sa | | sa ma ea], b as [sb | sb | | sb mb eb],
           c as [sc | sc | | sc mc ec];
    try destruct sa; try destruct sb; try destruct sc;
    try (intros; reflexivity); try (intros; discriminate);
    rewrite ?Pos.compare_cont_spec; cbn [Pos.switch_Eq];
    destruct (Z.compare_spec ea eb), (Z.compare_spec eb ec), (Z.compare_spec ea ec);
    try (intros; reflexivity); try (intros; discriminate); try lia; subst;
    destruct (Pos.compare_spec ma mb), (Pos.compare_spec mb mc),
             (Pos.compare_spec ma mc);
    cbn; try (intros; reflexivity); try (intros; discriminate); lia.
Qed.

Lemma leb_trans (a b c : float) :
  PrimFloat.leb a b = true -> PrimFloat.leb b c = true -> PrimFloat.leb a c = true.
Proof. rewrite !FloatAxioms.leb_spec. apply SFleb_trans. Qed.

(** ** The Crash round *)

Lemma autoCashoutPlayer_settled (net : QubicPayout.Network) (m : float)
    (p : Crash.Player) (log : list Crash.Transfer) :
  Crash.isBet p = false -> Crash.autoCashoutPlayer net m p log = (p, log).
Proof. intros H. unfold Crash.autoCashoutPlayer. rewrite H. reflexivity. Qed.

(** What one pass of the loop does to a player that is still betting. *)
Lemma autoCashoutPlayer_bet (net : QubicPayout.Network) (m : float)
    (p : Crash.Player) (log : list Crash.Transfer) :
  Crash.status p = Crash.Bet ->
  let p' := fst (Crash.autoCashoutPlayer net m p log) in
  (CrashSpec.reached p m = false /\ p' = p)
  \/ (CrashSpec.reached p m = true
      /\ Crash.status p' = Crash.CashedOut
      /\ Crash.publicId p' = Crash.publicId p
      /\ Crash.betAmount p' = Crash.betAmount p
      /\ Crash.target p' = Crash.target p
      /\ Crash.stoppedAt p' = Some m
      /\ Crash.cashoutMultiplier p' = Some m
      /\ Crash.winAmount p' = Some (JsNumber.floor (Crash.betAmount p * m)%float)).
Proof.
  intros Hbet p'. subst p'. unfold Crash.autoCashoutPlayer, Crash.isBet, CrashSpec.reached.
  rewrite Hbet. cbn [andb].
  destruct (JsNumber.truthy (Crash.target p) && PrimFloat.leb (Crash.target p) m);
    [right | left; split; reflexivity].
  split; [reflexivity|].
  destruct (PrimFloat.ltb 0 _); [|cbn; repeat split].
  destruct (QubicPayout.payFromCasinoToUser _ _ _ _); cbn; repeat split.
Qed.

(** The loop treats each player in turn. *)
Lemma autoCashout_nth (net : QubicPayout.Network) (m : float) :
  forall ps log i p,
    nth_error ps i = Some p ->
    exists log_i,
      nth_error (fst (Crash.autoCashout net m ps log)) i
      = Some (fst (Crash.autoCashoutPlayer net m p log_i)).
Proof.
  induction ps as [|q ps IH]; intros log i p Hnth; [destruct i; discriminate|].
  cbn [Crash.autoCashout].
  destruct (Crash.autoCashoutPlayer net m q log) as [q' log1] eqn:Hq.
  destruct (Crash.autoCashout net m ps log1) as [rest' log2] eqn:Hrest.
  destruct i as [|i]; cbn [nth_error fst] in *.
  - injection Hnth as <-. exists log. rewrite Hq. reflexivity.
  - destruct (IH log1 i p Hnth) as [log_i Hi]. rewrite Hrest in Hi.
    exists log_i. exact Hi.
Qed.

Lemma runTicks_stopped (net : QubicPayout.Network) (payouts : list float)
    (st : Crash.State) :
  Crash.ticking st = false -> Crash.runTicks net payouts st = st.
Proof. intros H. destruct payouts; cbn; [|rewrite H]; reflexivity. Qed.

Lemma markLost_not_bet (p : Crash.Player) :
  Crash.status p <> Crash.Bet -> Crash.markLost p = p.
Proof.
  intros H. unfold Crash.markLost, Crash.isBet.
  destruct (Crash.status p); [contradiction | reflexivity | reflexivity].
Qed.

(** The fate of each player of a round that runs to its end. *)
Lemma runTicks_outcome (net : QubicPayout.Network) :
  forall payouts st g g' i p,
    Crash.currentGame st = Some g ->
    Crash.gameStatus g <> Crash.Over ->
    Crash.currentGame (Crash.runTicks net payouts st) = Some g' ->
    Crash.gameStatus g' = Crash.Over ->
    nth_error (Crash.players g) i = Some p ->
    exists p',
      nth_error (Crash.players g') i = Some p'
      /\ CrashSpec.outcome payouts (Crash.crashPoint st) p p'.
Proof.
  induction payouts as [|m rest IH]; intros st g g' i p Hg Hlive Hg' Hover Hnth.
  - cbn in Hg'. rewrite Hg in Hg'. injection Hg' as <-. contradiction.
  - cbn [Crash.runTicks] in Hg'.
    destruct (Crash.ticking st) eqn:Htick;
      [|rewrite Hg in Hg'; injection Hg' as <-; contradiction].
    unfold Crash.tick in Hg'. rewrite Hg in Hg'.
    destruct (autoCashout_nth net m (Crash.players g) (Crash.transfers st) i p Hnth)
      as [log_i Hi].
    destruct (Crash.autoCashout net m (Crash.players g) (Crash.transfers st))
      as [ps log] eqn:Hauto.
    cbn [fst] in Hi.
    destruct (PrimFloat.leb (Crash.crashPoint st) m) eqn:Hcrash.
    + (* the round ends at this tick *)
      rewrite runTicks_stopped in Hg' by reflexivity.
      cbn in Hg'. injection Hg' as <-. cbn [Crash.players].
      exists (Crash.markLost (fst (Crash.autoCashoutPlayer net m p log_i))).
      split; [apply map_nth_error, Hi|].
      unfold CrashSpec.outcome.
      destruct (Crash.status p) eqn:Hst.
      * destruct (autoCashoutPlayer_bet net m p log_i Hst)
          as [[Hno Hsame] | [Hyes [Hs [Hid [Hb [Ht [Hstop [Hm Hw]]]]]]]].
        -- right. rewrite Hsame. split; [reflexivity|].
           destruct (JsNumber.truthy (Crash.target p)) eqn:Htr; [|reflexivity].
           destruct (PrimFloat.leb (Crash.target p) (Crash.crashPoint st)) eqn:Hle;
             [|reflexivity].
           unfold CrashSpec.reached in Hno.
           rewrite Htr, (leb_trans _ _ _ Hle Hcrash) in Hno. discriminate Hno.
        -- left. rewrite markLost_not_bet by (rewrite Hs; discriminate).
           split; [exact Hs|]. split; [exact Hid|]. split; [exact Hb|].
           split; [exact Ht|]. exists m.
           split; [now left|]. split; [exact Hyes|].
           split; [exact Hstop|]. split; [exact Hm | exact Hw].
      * rewrite autoCashoutPlayer_settled
          by (unfold Crash.isBet; rewrite Hst; reflexivity).
        cbn [fst]. apply markLost_not_bet. rewrite Hst. discriminate.
      * rewrite autoCashoutPlayer_settled
          by (unfold Crash.isBet; rewrite Hst; reflexivity).
        cbn [fst]. apply markLost_not_bet. rewrite Hst. discriminate.
    + (* the round goes on *)
      edestruct IH as [p' [Hp' Hout]].
      3: exact Hg'.
      1: reflexivity.
      1: exact Hlive.
      1: exact Hover.
      1: exact Hi.
      cbn [Crash.crashPoint] in Hout.
      exists p'. split; [exact Hp'|].
      unfold CrashSpec.outcome in *.
      destruct (Crash.status p) eqn:Hst.
      * destruct (autoCashoutPlayer_bet net m p log_i Hst)
          as [[Hno Hsame] | [Hyes [Hs [Hid [Hb [Ht [Hstop [Hm Hw]]]]]]]].
        -- rewrite Hsame, Hst in Hout.
           destruct Hout as [[Hs' [Hid' [Hb' [Ht' [m' [Hin Hrest]]]]]] | Hlost].
           ++ left. split; [exact Hs'|]. split; [exact Hid'|].
              split; [exact Hb'|]. split; [exact Ht'|].
              exists m'. split; [now right | exact Hrest].
           ++ right. exact Hlost.
        -- rewrite Hs in Hout. left. rewrite Hout.
           split; [exact Hs|]. split; [exact Hid|]. split; [exact Hb|].
           split; [exact Ht|]. exists m.
           split; [now left|]. split; [exact Hyes|].
           split; [exact Hstop|]. split; [exact Hm | exact Hw].
      * rewrite autoCashoutPlayer_settled in Hout
          by (unfold Crash.isBet; rewrite Hst; reflexivity).
        cbn [fst] in Hout. rewrite Hst in Hout. exact Hout.
      * rewrite autoCashoutPlayer_settled in Hout
          by (unfold Crash.isBet; rewrite Hst; reflexivity).
        cbn [fst] in Hout. rewrite Hst in Hout. exact Hout.
Qed.

(** The example round is the state reached from the initial state by
    [createNewRound], the two [join-game] messages and [startRound]. *)
Example crashStarted_reached :
  Crash.startRound
    (fst (Crash.joinGame crashSocketB (Some crashPayloadB) (repeat 9 8)
            (fst (Crash.joinGame crashSocketA (Some crashPayloadA) (repeat 8 8)
                    crashCreated))))
  = crashStarted.
Proof. vm_compute. reflexivity. Qed.


(** A participant accepted by [join-game] is betting, has a truthy target
    and no payout yet. *)
Lemma joinGame_player (socket : Crash.Socket) (payload : option Crash.Payload)
    (idBytes : list Z) (st : Crash.State) (player : Crash.Player) :
  snd (Crash.joinGame socket payload idBytes st) = Crash.JoinSuccess player ->
  Crash.status player = Crash.Bet
  /\ JsNumber.truthy (Crash.target player) = true
  /\ Crash.winAmount player = None.
Proof.
  unfold Crash.joinGame.
  destruct (Crash.currentGame st) as [g|]; [|discriminate].
  destruct (Crash.gameStatus g); try discriminate.
  destruct payload as [pl|]; [|discriminate].
  destruct (Crash.p_txId pl) as [tx|]; [|discriminate].
  destruct (negb (Js.truthyString tx)); [discriminate|].
  destruct (JsNumber.isFinite (Crash.p_target pl / 100)) eqn:Hfin; [|discriminate].
  destruct (PrimFloat.ltb (Crash.p_target pl / 100) 1.01) eqn:Hlt; [discriminate|].
  cbn [negb orb].
  destruct (negb (JsNumber.isFinite (Crash.p_betAmount pl))
            || PrimFloat.leb (Crash.p_betAmount pl) 0); [discriminate|].
  destruct (negb (Js.truthyString _)); [discriminate|].
  destruct (existsb _ (Crash.players g)); [discriminate|].
  destruct (existsb _ (Crash.players g)); [discriminate|].
  cbn [snd]. intros H. injection H as <-.
  cbn [Crash.status Crash.target Crash.winAmount].
  split; [reflexivity|]. split; [|reflexivity].
  set (t := (Crash.p_target pl / 100)%float) in *.
  unfold JsNumber.isFinite, PrimFloat.is_finite in Hfin.
  apply negb_true_iff, orb_false_iff in Hfin. destruct Hfin as [Hnan _].
  unfold JsNumber.truthy. rewrite Hnan. cbn [orb]. apply negb_true_iff.
  unfold PrimFloat.is_zero.
  rewrite FloatAxioms.eqb_spec. rewrite FloatAxioms.ltb_spec in Hlt.
  change (Prim2SF PrimFloat.zero) with (S754_zero false).
  change (Prim2SF 1.01) with (S754_finite false 4548635623644201 (-52)) in Hlt.
  destruct (Prim2SF t) as [s | s | | s m e].
  - discriminate Hlt.
  - destruct s; reflexivity.
  - reflexivity.
  - destruct s; reflexivity.
Qed.



(** ** Replay of an idempotency token in Crash *)

(** The handler of [join-game] looks at the players of the current round
    only: in a round that is starting and has no player yet, any
    well-formed join is accepted, whatever happened in earlier rounds. *)
Lemma crash_join_fresh_round (socket : Crash.Socket) (pl : Crash.Payload)
    (idBytes : list Z) (st : Crash.State) (g : Crash.Game) (token : string) :
  Crash.currentGame st = Some g ->
  Crash.gameStatus g = Crash.Starting ->
  Crash.players g = [] ->
  Crash.p_txId pl = Some token ->
  Js.truthyString token = true ->
  JsNumber.isFinite (Crash.p_target pl / 100) = true ->
  PrimFloat.ltb (Crash.p_target pl / 100) 1.01 = false ->
  JsNumber.isFinite (Crash.p_betAmount pl) = true ->
  PrimFloat.leb (Crash.p_betAmount pl) 0 = false ->
  Js.truthyString (Crash.normalizeWalletId (Crash.wallet socket)) = true ->
  exists player,
    snd (Crash.joinGame socket (Some pl) idBytes st) = Crash.JoinSuccess player
    /\ Crash.txId player = token.
Proof.
  intros Hg Hst Hps Htx Htok Hft Htl Hfb Hbl Hw.
  unfold Crash.joinGame.
  rewrite Hg, Hst, Htx, Htok, Hft, Htl, Hfb, Hbl, Hw, Hps.
  cbn. eexists. split; reflexivity.
Qed.

(** C5 fails on the code: the token ["tx-1"], consumed by a participant of
    the round that ended, is accepted again by [join-game] in the next
    round. *)
Lemma crash_join_replay_accepted :
  (exists g p, Crash.currentGame crashEnded = Some g
               /\ Crash.gameStatus g = Crash.Over
               /\ In p (Crash.players g) /\ Crash.txId p = "tx-1"%string)
  /\ exists player,
       snd (Crash.joinGame crashSocketA (Some crashPayloadA) (repeat 5 8)
                           crashNextRound) = Crash.JoinSuccess player
       /\ Crash.txId player = "tx-1"%string.
Proof.
  split.
  - destruct (Crash.currentGame crashEnded) as [g|] eqn:Hg;
      [|vm_compute in Hg; discriminate Hg].
    vm_compute in Hg. injection Hg as <-.
    eexists. eexists. split; [reflexivity|]. split; [reflexivity|].
    split; [left; reflexivity | reflexivity].
  - eexists. split; [vm_compute; reflexivity | reflexivity].
Qed.

(** ** The Slide round *)

Lemma payPlayers_nth (net : QubicPayout.Network) (cp : float) :
  forall ps log i p,
    nth_error ps i = Some p ->
    exists log_i,
      nth_error (fst (Slide.payPlayers net cp ps log)) i
      = Some (fst (Slide.payPlayer net cp p log_i)).
Proof.
  induction ps as [|q ps IH]; intros log i p Hnth; [destruct i; discriminate|].
  cbn [Slide.payPlayers].
  destruct (Slide.payPlayer net cp q log) as [q' log1] eqn:Hq.
  destruct (Slide.payPlayers net cp ps log1) as [rest' log2] eqn:Hrest.
  destruct i as [|i]; cbn [nth_error fst] in *.
  - injection Hnth as <-. exists log. rewrite Hq. reflexivity.
  - destruct (IH log1 i p Hnth) as [log_i Hi]. rewrite Hrest in Hi.
    exists log_i. exact Hi.
Qed.

(** C9: in the Slide round loop, a participant whose target is at most the
    crash point and whose transfer of the computed win amount fails is
    recorded with status "lost" and winAmount 0, exactly as a participant
    whose target was above the crash point: nothing else is recorded (no
    transaction id, and the object has neither a payout status nor an error),
    and a later pass of the loop skips the participant, so nothing retries
    the payout. *)
Theorem slide_failed_payout_dropped (net : QubicPayout.Network)
    (st : Slide.State) (g : Slide.Game) (i : nat) (p : Slide.Player) :
  Slide.currentGame st = Some g ->
  nth_error (Slide.players g) i = Some p ->
  Slide.status p = Slide.Playing ->
  Js.truthyString (Slide.publicId p) = true ->
  PrimFloat.leb (Slide.target p) (Slide.crashPoint g) = true ->
  let win := JsNumber.floor (Slide.betAmount p * Slide.target p)%float in
  PrimFloat.ltb 0 win = true ->
  (forall n, exists payoutError,
      QubicPayout.payFromCasinoToUser net n (Slide.publicId p) win
      = inl payoutError) ->
  exists g' p',
    Slide.currentGame (Slide.finishRound net st) = Some g'
    /\ nth_error (Slide.players g') i = Some p'
    /\ Slide.status p' = Slide.Lost
    /\ Slide.winAmount p' = Some 0%float
    /\ Slide.payoutTxId p' = Slide.payoutTxId p
    /\ p' = Slide.settled p Slide.Lost 0 (Slide.payoutTxId p)
    /\ (forall net' cp' log,
          PrimFloat.leb (Slide.target p) cp' = false ->
          fst (Slide.payPlayer net' cp' p log) = p')
    /\ (forall net' cp' log,
          Slide.payPlayer net' cp' p' log = (p', log)).
Proof.
  intros Hg Hnth Hplaying Hid Hle win Hwin Hfail.
  unfold Slide.finishRound. rewrite Hg.
  destruct (payPlayers_nth net (Slide.crashPoint g) (Slide.players g)
              (Slide.transfers st) i p Hnth) as [log_i Hi].
  destruct (Slide.payPlayers net (Slide.crashPoint g) (Slide.players g)
              (Slide.transfers st)) as [ps log] eqn:Hpay.
  cbn [fst] in Hi.
  assert (Hp' : fst (Slide.payPlayer net (Slide.crashPoint g) p log_i)
                = Slide.settled p Slide.Lost 0 (Slide.payoutTxId p)).
  { unfold Slide.payPlayer, Slide.isPlaying.
    rewrite Hplaying, Hid, Hle. cbn [andb]. fold win. rewrite Hwin.
    destruct (Hfail (List.length log_i)) as [e He]. rewrite He. reflexivity. }
  rewrite Hp' in Hi.
  eexists. eexists. split; [reflexivity|]. cbn [Slide.players].
  split; [exact Hi|].
  split; [reflexivity|]. split; [reflexivity|]. split; [reflexivity|].
  split; [reflexivity|].
  split.
  - intros net' cp' log0 Habove. unfold Slide.payPlayer, Slide.isPlaying.
    rewrite Hplaying, Hid, Habove. reflexivity.
  - intros net' cp' log0. reflexivity.
Qed.

Lemma slide_failed_payout_dropped_witness :
  exists g p g' p',
    Slide.currentGame slideJoined = Some g
    /\ nth_error (Slide.players g) 0 = Some p
    /\ Slide.status p = Slide.Playing
    /\ PrimFloat.leb (Slide.target p) (Slide.crashPoint g) = true
    /\ Slide.currentGame (Slide.finishRound networkDown slideJoined) = Some g'
    /\ nth_error (Slide.players g') 0 = Some p'
    /\ Slide.status p' = Slide.Lost
    /\ Slide.winAmount p' = Some 0%float.
Proof.
  destruct (Slide.currentGame slideJoined) as [g|] eqn:Hg;
    [|vm_compute in Hg; discriminate Hg].
  destruct (nth_error (Slide.players g) 0) as [p|] eqn:Hp.
  2:{ vm_compute in Hg. injection Hg as <-. discriminate Hp. }
  assert (Hfacts : Slide.status p = Slide.Playing
                   /\ Js.truthyString (Slide.publicId p) = true
                   /\ PrimFloat.leb (Slide.target p) (Slide.crashPoint g) = true
                   /\ PrimFloat.ltb 0
                        (JsNumber.floor (Slide.betAmount p * Slide.target p)%float)
                      = true
                   /\ forall n, exists payoutError,
                        QubicPayout.payFromCasinoToUser networkDown n
                          (Slide.publicId p)
                          (JsNumber.floor (Slide.betAmount p * Slide.target p)%float)
                        = inl payoutError).
  { vm_compute in Hg. injection Hg as <-. cbn in Hp. injection Hp as <-.
    split; [reflexivity|]. split; [reflexivity|].
    split; [vm_compute; reflexivity|]. split; [vm_compute; reflexivity|].
    intros n. eexists. vm_compute. reflexivity. }
  destruct Hfacts as [H1 [H2 [H3 [H4 H5]]]].
  destruct (slide_failed_payout_dropped networkDown slideJoined g 0 p
              Hg Hp H1 H2 H3 H4 H5) as [g' [p' [Hg' [Hp' [Hs [Hw _]]]]]].
  exists g, p, g', p'.
  split; [reflexivity|]. split; [exact Hp|]. split; [exact H1|].
  split; [exact H3|]. split; [exact Hg'|]. split; [exact Hp'|].
  split; [exact Hs | exact Hw].
Defined.

(** ** Replay of an idempotency token in Slide *)

(** The sibling handler keeps the set of the tokens used in all rounds: a
    token consumed in a round is refused in the next one. *)
Example slide_join_replay_rejected :
  snd (Slide.joinGame slideSocketA (Some slidePayloadA)
         (slideNextRound (Slide.finishRound networkUp slideJoined)))
  = Slide.JoinError "Transaction already used in a previous round".
Proof. vm_compute. reflexivity. Qed.

(** ** Numbers: rounding *)

Example floor_examples :
  JsNumber.floor 1966.9 = 1966%float
  /\ JsNumber.floor (-0.5) = (-1)%float
  /\ JsNumber.floor 0.3 = 0%float
  /\ JsNumber.floor (115 / 100 * 100) = 114%float
  /\ JsNumber.isInteger 1967 = true
  /\ JsNumber.isInteger 1.5 = false
  /\ JsNumber.isInteger PrimFloat.infinity = false.
Proof. repeat split; vm_compute; reflexivity. Qed.

(** 1.15 times 100 is below 115: the hundredths 115 are returned as 1.14. *)
Example crashOfHundredths_115 :
  CrashPoint.crashOfHundredths 115 = (114 / 100)%float
  /\ CrashPoint.crashOfHundredths 208 = 2.08%float.
Proof. split; vm_compute; reflexivity. Qed.

(** ** The guard of the cashout *)

(** A positive payout means that at least one safe cell is revealed: with
    none, the calculator returns 0. *)
Lemma positive_payout_revealed (HOUSE_EDGE mines revealedGems betAmount : float) :
  PrimFloat.ltb 0
    (MinesPayout.payoutAmount
       (MinesPayout.calculateMinesPayout HOUSE_EDGE mines revealedGems betAmount))
  = true ->
  JsNumber.isInteger revealedGems = true
  /\ PrimFloat.ltb revealedGems 1 = false.
Proof.
  unfold MinesPayout.calculateMinesPayout.
  destruct (JsNumber.isInteger revealedGems); cbn [negb orb];
    [|cbn; discriminate].
  destruct (PrimFloat.ltb revealedGems 1); [cbn; discriminate|].
  intros _. split; reflexivity.
Qed.

(** With the default house edge the multiplier is above 1 for every number
    of mines and every number of revealed safe cells of a session. *)
Lemma multiplier_above_one (mines k : Z) :
  1 <= mines <= 24 -> 1 <= k <= 25 - mines ->
  PayoutSpec.multiplierAboveOne mines k = true.
Proof.
  intros Hm Hk.
  assert (Htable : PayoutSpec.multiplierTable = true) by (vm_compute; reflexivity).
  unfold PayoutSpec.multiplierTable in Htable.
  pose proof (forallb_zrange _ _ _ Htable mines ltac:(lia)) as Hrow.
  cbv beta in Hrow.
  apply (forallb_zrange _ _ _ Hrow k). lia.
Qed.

(** ** Numbers: the mantissa of a double *)

Lemma digits2_pos_bound (m : positive) :
  Z.pos m < 2 ^ Z.pos (digits2_pos m).
Proof.
  induction m as [m IH | m IH |]; cbn [digits2_pos].
  - rewrite Pos2Z.inj_succ, Z.pow_succ_r by lia. lia.
  - rewrite Pos2Z.inj_succ, Z.pow_succ_r by lia. lia.
  - reflexivity.
Qed.

(** The mantissa of a finite double has at most 53 bits. *)
Lemma mantissa_bound (x : float) (s : bool) (m : positive) (e : Z) :
  Prim2SF x = S754_finite s m e -> Z.pos m < 2 ^ 53.
Proof.
  intros Hx. pose proof (FloatAxioms.Prim2SF_valid x) as Hv.
  rewrite Hx in Hv. unfold valid_binary, SpecFloat.valid_binary, bounded in Hv.
  apply andb_prop in Hv. destruct Hv as [Hc _].
  unfold canonical_mantissa, fexp in Hc. apply Z.eqb_eq in Hc.
  assert (Hd : Z.pos (digits2_pos m) <= 53).
  { change prec with 53 in Hc. lia. }
  apply Z.lt_le_trans with (2 ^ Z.pos (digits2_pos m));
    [apply digits2_pos_bound|].
  apply Z.pow_le_mono_r; lia.
Qed.

Lemma floorZ_finite_small (m : positive) (e : Z) :
  e < 0 -> Z.shiftl (Z.pos m) e = Z.pos m / 2 ^ (- e).
Proof.
  intros He. rewrite <- Z.shiftr_div_pow2 by lia.
  unfold Z.shiftr. rewrite Z.opp_involutive. reflexivity.
Qed.

(** ** The bit masks of a session *)

Lemma maskHas_testbit (mask index : Z) :
  0 <= index -> MineGame.maskHas mask index = Z.testbit mask index.
Proof.
  intros Hi. unfold MineGame.maskHas.
  rewrite Z.testbit_odd.
  change 1 with (Z.ones 1) at 1. rewrite Z.land_ones by lia.
  change (2 ^ 1) with 2.
  rewrite Zmod_odd. destruct (Z.odd (Z.shiftr mask index)); reflexivity.
Qed.

Lemma testbit_lor_bit (a idx j : Z) :
  0 <= idx -> 0 <= j ->
  Z.testbit (Z.lor a (Z.shiftl 1 idx)) j = Z.testbit a j || (idx =? j).
Proof.
  intros Hi Hj. rewrite Z.lor_spec, Z.shiftl_1_l, Z.pow2_bits_eqb by lia.
  reflexivity.
Qed.

(** The bits of the two masks [buildMasksFromDatas] computes. *)
Lemma buildMasks_bits (cells : list MineGame.Cell) : forall a b j,
  0 <= j ->
  let masks :=
    fold_left
      (fun (masks : Z * Z) (item : MineGame.Cell) =>
         let (minesMask, revealedMask) := masks in
         let idx := MineGame.point item in
         if (idx <? 0) || (MineGame.MINE_CELL_COUNT <=? idx) then masks
         else
           (if MineGame.isBomb item then Z.lor minesMask (Z.shiftl 1 idx)
            else minesMask,
            if MineGame.mined item then Z.lor revealedMask (Z.shiftl 1 idx)
            else revealedMask))
      cells (a, b) in
  Z.testbit (fst masks) j
  = Z.testbit a j
    || existsb (fun c => (MineGame.point c =? j) && (j <? 25) && MineGame.isBomb c)
               cells
  /\ Z.testbit (snd masks) j
     = Z.testbit b j
       || existsb (fun c => (MineGame.point c =? j) && (j <? 25) && MineGame.mined c)
                  cells.
Proof.
  induction cells as [|c cells IH]; intros a b j Hj.
  - cbn. rewrite !orb_false_r. split; reflexivity.
  - cbn [fold_left existsb]. cbv zeta.
    unfold MineGame.MINE_CELL_COUNT.
    destruct (Z.ltb_spec (MineGame.point c) 0) as [Hneg | Hpos]; cbn [orb].
    { destruct (IH a b j Hj) as [H1 H2]. cbv zeta in H1, H2.
      unfold MineGame.MINE_CELL_COUNT in H1, H2. rewrite H1, H2.
      replace (MineGame.point c =? j) with false
        by (symmetry; apply Z.eqb_neq; lia).
      split; reflexivity. }
    destruct (Z.leb_spec 25 (MineGame.point c)) as [Hbig | Hsmall].
    { destruct (IH a b j Hj) as [H1 H2]. cbv zeta in H1, H2.
      unfold MineGame.MINE_CELL_COUNT in H1, H2. rewrite H1, H2.
      destruct (Z.eqb_spec (MineGame.point c) j) as [Heq | Hne];
        [|split; reflexivity].
      replace (j <? 25) with false by (symmetry; apply Z.ltb_ge; lia).
      split; reflexivity. }
    match goal with
    | |- context [fold_left ?f cells (?x, ?y)] =>
        destruct (IH x y j Hj) as [H1 H2]
    end.
    cbv zeta in H1, H2. unfold MineGame.MINE_CELL_COUNT in H1, H2.
    rewrite H1, H2. clear H1 H2 IH.
    destruct (Z.eqb_spec (MineGame.point c) j) as [Heq | Hne].
    + replace (j <? 25) with true by (symmetry; apply Z.ltb_lt; lia).
      cbn [andb]. split.
      * destruct (MineGame.isBomb c); cbn [orb];
          [rewrite testbit_lor_bit by lia; rewrite Heq, Z.eqb_refl|];
          destruct (Z.testbit a j); reflexivity.
      * destruct (MineGame.mined c); cbn [orb];
          [rewrite testbit_lor_bit by lia; rewrite Heq, Z.eqb_refl|];
          destruct (Z.testbit b j); reflexivity.
    + cbn [andb orb]. split.
      * destruct (MineGame.isBomb c); [|reflexivity].
        rewrite testbit_lor_bit by lia.
        replace (MineGame.point c =? j) with false
          by (symmetry; apply Z.eqb_neq; lia).
        rewrite orb_false_r. reflexivity.
      * destruct (MineGame.mined c); [|reflexivity].
        rewrite testbit_lor_bit by lia.
        replace (MineGame.point c =? j) with false
          by (symmetry; apply Z.eqb_neq; lia).
        rewrite orb_false_r. reflexivity.
Qed.

(** On the cells [g lo, g (lo+1), ...] of a grid. *)
Lemma existsb_grid (g : Z -> MineGame.Cell) (p : MineGame.Cell -> bool) (j : Z) :
  (forall i, MineGame.point (g i) = i) ->
  forall n lo,
    existsb (fun c => (MineGame.point c =? j) && (j <? 25) && p c)
            (map g (zrange lo n))
    = (lo <=? j) && (j <? lo + Z.of_nat n) && (j <? 25) && p (g j).
Proof.
  intros Hg. induction n as [|n IH]; intros lo.
  - cbn [zrange map existsb].
    destruct (Z.leb_spec lo j); destruct (Z.ltb_spec j (lo + Z.of_nat 0));
      try reflexivity; lia.
  - cbn [zrange map existsb]. rewrite IH, Hg.
    destruct (Z.eqb_spec lo j) as [-> | Hne].
    + replace (j <=? j) with true by (symmetry; apply Z.leb_le; lia).
      replace (j <? j + Z.of_nat (S n)) with true
        by (symmetry; apply Z.ltb_lt; lia).
      replace (j + 1 <=? j) with false by (symmetry; apply Z.leb_gt; lia).
      cbn [andb]. rewrite orb_false_r. reflexivity.
    + cbn [andb orb].
      replace (lo + 1 + Z.of_nat n) with (lo + Z.of_nat (S n)) by lia.
      destruct (Z.leb_spec lo j); destruct (Z.leb_spec (lo + 1) j);
        try reflexivity; lia.
Qed.

(** The masks of a grid: bit [j] of the mines mask tells whether cell [j]
    is a mine, bit [j] of the revealed mask whether it is opened. *)
Lemma buildMasksFromDatas_grid (g : Z -> MineGame.Cell) (j : Z) :
  (forall i, MineGame.point (g i) = i) ->
  0 <= j ->
  let masks := MineGame.buildMasksFromDatas (map g (zrange 0 25)) in
  Z.testbit (fst masks) j = (j <? 25) && MineGame.isBomb (g j)
  /\ Z.testbit (snd masks) j = (j <? 25) && MineGame.mined (g j).
Proof.
  intros Hg Hj masks.
  destruct (buildMasks_bits (map g (zrange 0 25)) 0 0 j Hj) as [H1 H2].
  cbv zeta in H1, H2. subst masks. unfold MineGame.buildMasksFromDatas.
  rewrite H1, H2, !Z.bits_0, !(existsb_grid g _ j Hg). cbn [orb].
  replace (0 <=? j) with true by (symmetry; apply Z.leb_le; lia).
  change (0 + Z.of_nat 25) with 25. cbn [andb].
  destruct (j <? 25); split; reflexivity.
Qed.

(** Two masks below [2^25] with the same 25 bits are equal. *)
Lemma mask_eq (m m' : Z) :
  0 <= m' < 2 ^ 25 ->
  (forall j, 0 <= j -> Z.testbit m j = (j <? 25) && Z.testbit m' j) ->
  m = m'.
Proof.
  intros Hm' Hbits. apply Z.bits_inj'. intros j Hj. rewrite (Hbits j Hj).
  destruct (Z.ltb_spec j 25) as [Hlt | Hge]; [reflexivity|].
  cbn [andb]. symmetry.
  destruct (Z.eq_dec m' 0) as [-> | Hnz]; [apply Z.bits_0|].
  apply Z.bits_above_log2; [lia|].
  apply Z.log2_lt_pow2; [lia | apply Z.lt_le_trans with (2 ^ 25); [apply Hm'|]].
  apply Z.pow_le_mono_r; lia.
Qed.

Lemma buildDatasFromMasks_grid (minesMask revealedMask : Z) :
  MineGame.buildDatasFromMasks minesMask revealedMask
  = map (fun i => MineGame.mkCell i
                    (Some (if Z.testbit minesMask i
                           then MineGame.BOMB else MineGame.GEM))
                    (Z.testbit revealedMask i))
        (zrange 0 25).
Proof.
  unfold MineGame.buildDatasFromMasks. apply map_ext_in. intros i Hi.
  apply zrange_In in Hi. rewrite !maskHas_testbit by lia. reflexivity.
Qed.

(** X1: the two encodings of a layout are inverse of each other on masks:
    decoding two 25-bit masks into the 25 cells and encoding the cells again
    gives the masks back. *)
Theorem masks_round_trip (minesMask revealedMask : Z) :
  0 <= minesMask < 2 ^ 25 ->
  0 <= revealedMask < 2 ^ 25 ->
  MineGame.buildMasksFromDatas
    (MineGame.buildDatasFromMasks minesMask revealedMask)
  = (minesMask, revealedMask).
Proof.
  intros Hm Hr. rewrite buildDatasFromMasks_grid.
  set (g := fun i => MineGame.mkCell i _ _).
  assert (Hg : forall i, MineGame.point (g i) = i) by reflexivity.
  destruct (MineGame.buildMasksFromDatas (map g (zrange 0 25))) as [mm rm] eqn:E.
  f_equal.
  - apply mask_eq; [exact Hm|]. intros j Hj.
    destruct (buildMasksFromDatas_grid g j Hg Hj) as [H1 _].
    cbv zeta in H1. rewrite E in H1. cbn [fst] in H1. rewrite H1.
    subst g. unfold MineGame.isBomb. cbn [MineGame.mine].
    destruct (Z.testbit minesMask j); reflexivity.
  - apply mask_eq; [exact Hr|]. intros j Hj.
    destruct (buildMasksFromDatas_grid g j Hg Hj) as [_ H2].
    cbv zeta in H2. rewrite E in H2. cbn [snd] in H2. rewrite H2.
    reflexivity.
Qed.

Lemma masks_round_trip_witness :
  MineGame.buildMasksFromDatas (MineGame.buildDatasFromMasks 7 248) = (7, 248).
Proof. apply masks_round_trip; lia. Defined.

(** Decoding the masks of a grid whose cells are all tagged gives the grid
    back. *)
Lemma buildDatasFromMasks_of_grid (g : Z -> MineGame.Cell) :
  (forall i, MineGame.point (g i) = i) ->
  (forall i, MineGame.mine (g i) <> None) ->
  let masks := MineGame.buildMasksFromDatas (map g (zrange 0 25)) in
  MineGame.buildDatasFromMasks (fst masks) (snd masks) = map g (zrange 0 25).
Proof.
  intros Hg Htag masks. rewrite buildDatasFromMasks_grid.
  apply map_ext_in. intros i Hi. apply zrange_In in Hi.
  destruct (buildMasksFromDatas_grid g i Hg ltac:(lia)) as [H1 H2].
  cbv zeta in H1, H2. fold masks in H1, H2. rewrite H1, H2.
  replace (i <? 25) with true by (symmetry; apply Z.ltb_lt; lia).
  cbn [andb]. specialize (Hg i). specialize (Htag i). clear H1 H2.
  clearbody masks.
  destruct (g i) as [p [[|]|] o];
    cbn [MineGame.point MineGame.mine MineGame.mined MineGame.isBomb] in *;
    try congruence; contradiction.
Qed.

(** ** Revealing a cell *)

(** A tile index that passes the check of [/pick] designates a cell of the
    grid. *)
Lemma validTile_range (tile : float) :
  MinePick.validTile tile = true -> 0 <= JsNumber.floorZ tile < 25.
Proof.
  unfold MinePick.validTile. intros H.
  apply andb_prop in H. destruct H as [H Hbig].
  apply andb_prop in H. destruct H as [_ Hneg].
  apply negb_true_iff in Hneg, Hbig.
  rewrite FloatAxioms.ltb_spec in Hneg. rewrite FloatAxioms.leb_spec in Hbig.
  change (Prim2SF 0) with (S754_zero false) in Hneg.
  change (Prim2SF 25) with (S754_finite false 7036874417766400 (-48)) in Hbig.
  unfold JsNumber.floorZ.
  destruct (Prim2SF tile) as [s | s | | s m e] eqn:Hx; try lia.
  destruct s; [discriminate Hneg|].
  cbn [JsNumber.signedMantissa].
  unfold SFleb, SFcompare in Hbig.
  pose proof (mantissa_bound tile false m e Hx) as Hm.
  change (2 ^ 53) with 9007199254740992 in Hm. clear Hx Hneg.
  destruct (Z.compare_spec (-48) e) as [He | He | He]; try discriminate Hbig.
  - subst e. rewrite floorZ_finite_small by lia.
    destruct (Pos.compare_cont Eq 7036874417766400 m) eqn:Hc;
      try discriminate Hbig.
    assert (Hc' : (7036874417766400 ?= m)%positive = Gt) by exact Hc.
    apply Pos.compare_gt_iff in Hc'. clear Hc Hbig.
    change (- -48) with 48. change (2 ^ 48) with 281474976710656.
    assert (Hlt : Z.pos m < 7036874417766400) by (apply Pos2Z.pos_lt_pos; exact Hc').
    clear Hc'.
    split; [apply Z.div_pos; lia|].
    apply Z.div_lt_upper_bound; lia.
  - clear Hbig. rewrite floorZ_finite_small by lia.
    assert (Hp : 2 ^ 49 <= 2 ^ (- e)) by (apply Z.pow_le_mono_r; lia).
    change (2 ^ 49) with 562949953421312 in Hp.
    set (d := 2 ^ (- e)) in *. clearbody d.
    split; [apply Z.div_pos; lia|].
    apply Z.div_lt_upper_bound; lia.
Qed.

Lemma openCell_above (g : Z -> MineGame.Cell) (t : Z) :
  (forall i, MineGame.point (g i) = i) ->
  forall n lo, t < lo -> map (openCell t) (map g (zrange lo n)) = map g (zrange lo n).
Proof.
  intros Hg. induction n as [|n IH]; intros lo Hlt; [reflexivity|].
  cbn [zrange map]. rewrite IH by lia. unfold openCell at 1. rewrite Hg.
  replace (lo =? t) with false by (symmetry; apply Z.eqb_neq; lia).
  reflexivity.
Qed.

(** [datas[slotIndex].mined = true] on a grid opens the cell of that index
    and no other. *)
Lemma setMined_grid (g : Z -> MineGame.Cell) (t : Z) :
  (forall i, MineGame.point (g i) = i) ->
  forall n lo,
    lo <= t < lo + Z.of_nat n ->
    MineRoutes.setMined (Z.to_nat (t - lo)) (map g (zrange lo n))
    = map (openCell t) (map g (zrange lo n)).
Proof.
  intros Hg. induction n as [|n IH]; intros lo Ht; [lia|].
  cbn [zrange map]. unfold openCell at 1. rewrite Hg.
  destruct (Z.eqb_spec lo t) as [-> | Hne].
  - rewrite Z.sub_diag. cbn [Z.to_nat MineRoutes.setMined].
    rewrite openCell_above by (assumption || lia). rewrite ?Hg. reflexivity.
  - replace (Z.to_nat (t - lo)) with (S (Z.to_nat (t - (lo + 1)))) by lia.
    cbn [MineRoutes.setMined]. rewrite IH by lia. reflexivity.
Qed.

Lemma datas_cell (minesMask revealedMask t : Z) :
  0 <= t < 25 ->
  MineRoutes.findIndex t (MineGame.buildDatasFromMasks minesMask revealedMask)
  = Some (Z.to_nat t)
  /\ nth_error (MineGame.buildDatasFromMasks minesMask revealedMask) (Z.to_nat t)
     = Some (MineGame.mkCell t
               (Some (if MineGame.maskHas minesMask t
                      then MineGame.BOMB else MineGame.GEM))
               (MineGame.maskHas revealedMask t))
  /\ MineRoutes.setMined (Z.to_nat t)
       (MineGame.buildDatasFromMasks minesMask revealedMask)
     = map (openCell t) (MineGame.buildDatasFromMasks minesMask revealedMask).
Proof.
  intros Ht. unfold MineGame.buildDatasFromMasks.
  change (Z.to_nat MineGame.MINE_CELL_COUNT) with 25%nat.
  set (g := fun i => MineGame.mkCell i _ _).
  assert (Hg : forall i, MineGame.point (g i) = i) by reflexivity.
  destruct (findIndex_grid g t Hg 25 0 ltac:(lia)) as [H1 H2].
  rewrite Z.sub_0_r in H1, H2.
  split; [exact H1|]. split; [exact H2|].
  pose proof (setMined_grid g t Hg 25 0 ltac:(lia)) as H3.
  rewrite Z.sub_0_r in H3. exact H3.
Qed.

(** Storing the cells with one more cell opened and reading them back gives
    these cells. *)
Lemma reopen_decode (minesMask revealedMask t : Z) :
  let cells := map (openCell t)
                   (MineGame.buildDatasFromMasks minesMask revealedMask) in
  MineGame.buildDatasFromMasks minesMask
    (snd (MineGame.buildMasksFromDatas cells))
  = cells.
Proof.
  intros cells. subst cells.
  rewrite (buildDatasFromMasks_grid minesMask revealedMask), map_map.
  set (g := fun i => openCell t _).
  assert (Hg : forall i, MineGame.point (g i) = i).
  { intros i. subst g. cbv beta. unfold openCell. cbn [MineGame.point].
    destruct (i =? t); reflexivity. }
  rewrite buildDatasFromMasks_grid. apply map_ext_in. intros i Hi.
  apply zrange_In in Hi.
  destruct (buildMasksFromDatas_grid g i Hg ltac:(lia)) as [_ H2].
  cbv zeta in H2. rewrite H2.
  replace (i <? 25) with true by (symmetry; apply Z.ltb_lt; lia).
  cbn [andb]. subst g. cbv beta. unfold openCell. cbn [MineGame.point].
  destruct (i =? t); reflexivity.
Qed.

Ltac unfold_pick :=
  cbv beta iota zeta delta
    [MinePick.pick MinePick.answer MineRoutes.tryCatch MineRoutes.bind
     MineRoutes.ret MineRoutes.throw MineRoutes.dbFindOne MineRoutes.dbUpdate].

(** The handler on a LIVE session and a closed cell of the grid: the cell
    is opened, and the table updated by the id of the session. *)
Lemma pick_opens (req : MinePick.PickRequest) (w : MineRoutes.World)
    (filters : MineGame.Filters) (game : MineGame.Game) (tile : float) :
  MinePick.pickFilters req = Some filters ->
  MineGame.findOne filters (MineRoutes.rows w) = Some game ->
  MinePick.requesterValid req
  && negb (MineGame.publicKey game =? MinePick.requester req)%string = false ->
  MineGame.status game = MineGame.LIVE ->
  MinePick.tileIndexOf req = Some tile ->
  MinePick.validTile tile = true ->
  MineGame.maskHas (MineGame.revealedMask game) (JsNumber.floorZ tile) = false ->
  let t := JsNumber.floorZ tile in
  let cells := map (openCell t) (MineGame.datas game) in
  let bomb := MineGame.maskHas (MineGame.minesMask game) t in
  let ended := bomb || forallb MineGame.mined (filter MineGame.isGem cells) in
  MinePick.pick req w
  = (MinePick.mkPickResponse 200
       (MinePick.PickResult (if ended then "END" else "BET") (MineGame.id game)
          (MineRoutes.openedPoints cells) bomb cells),
     MineRoutes.mkWorld
       (MineGame.findByIdAndUpdate (MineGame.id game)
          (MineGame.mkUpdates (if ended then Some MineGame.ENDED else None)
             (Some cells) None None None None None)
          (MineRoutes.rows w))
       (MineRoutes.transfers w) (MineRoutes.moves w)).
Proof.
  intros Hf Hfound Howner Hlive Htile Hvalid Hclosed t cells bomb ended.
  pose proof (validTile_range tile Hvalid) as Hrange. fold t in Hrange, Hclosed.
  assert (Hdatas : MineGame.datas game
                   = MineGame.buildDatasFromMasks (MineGame.minesMask game)
                                                  (MineGame.revealedMask game)).
  { unfold MineGame.findOne in Hfound.
    destruct (find _ _) as [r|]; [|discriminate Hfound].
    injection Hfound as <-. reflexivity. }
  destruct (datas_cell (MineGame.minesMask game) (MineGame.revealedMask game)
              t Hrange) as [Hidx [Hnth Hset]].
  rewrite <- Hdatas in Hidx, Hnth, Hset.
  unfold_pick. unfold MinePick.pickHandlerBody. rewrite Hf. unfold_pick.
  rewrite Hfound, Howner, Hlive, Htile, Hvalid. cbn [MineGame.statusEqb negb].
  fold t. rewrite Hidx. unfold MinePick.minedAt. rewrite Hnth.
  cbn [MineGame.mined]. rewrite Hclosed. rewrite Hset. fold cells.
  assert (Hbomb : MinePick.bombAt cells (Z.to_nat t) = bomb).
  { unfold MinePick.bombAt, cells. rewrite nth_error_map, Hnth.
    cbn [option_map]. unfold openCell. cbn [MineGame.point].
    rewrite Z.eqb_refl. unfold MineGame.isBomb. cbn [MineGame.mine].
    subst bomb.
    destruct (MineGame.maskHas (MineGame.minesMask game) t); reflexivity. }
  rewrite Hbomb. subst ended.
  destruct bomb; cbn [orb]; [reflexivity|].
  destruct (forallb MineGame.mined (filter MineGame.isGem cells)); reflexivity.
Qed.

Lemma reopen_bit (minesMask revealedMask t : Z) :
  0 <= t < 25 ->
  MineGame.maskHas
    (snd (MineGame.buildMasksFromDatas
            (map (openCell t)
                 (MineGame.buildDatasFromMasks minesMask revealedMask))))
    t
  = true.
Proof.
  intros Ht. rewrite maskHas_testbit by lia.
  rewrite (buildDatasFromMasks_grid minesMask revealedMask), map_map.
  set (g := fun i => openCell t _).
  assert (Hg : forall i, MineGame.point (g i) = i).
  { intros i. subst g. cbv beta. unfold openCell. cbn [MineGame.point].
    destruct (i =? t); reflexivity. }
  destruct (buildMasksFromDatas_grid g t Hg ltac:(lia)) as [_ H2].
  cbv zeta in H2. rewrite H2.
  replace (t <? 25) with true by (symmetry; apply Z.ltb_lt; lia).
  subst g. cbv beta. unfold openCell. cbn [MineGame.point].
  rewrite Z.eqb_refl. reflexivity.
Qed.

(** A session that is not LIVE takes no reveal. *)
Lemma pick_not_live (req : MinePick.PickRequest) (w : MineRoutes.World)
    (filters : MineGame.Filters) (game : MineGame.Game) :
  MinePick.pickFilters req = Some filters ->
  MineGame.findOne filters (MineRoutes.rows w) = Some game ->
  MinePick.requesterValid req
  && negb (MineGame.publicKey game =? MinePick.requester req)%string = false ->
  MineGame.status game <> MineGame.LIVE ->
  MinePick.pick req w
  = (MinePick.mkPickResponse 400
       (MinePick.PickError ("Game is " ++ MinePick.statusName (MineGame.status game))),
     w).
Proof.
  intros Hf Hfound Howner Hst.
  unfold_pick. unfold MinePick.pickHandlerBody. rewrite Hf. unfold_pick.
  rewrite Hfound, Howner.
  destruct (MineGame.status game); try contradiction; reflexivity.
Qed.

(** A cell that is open already is answered from the current state. *)
Lemma pick_opened (req : MinePick.PickRequest) (w : MineRoutes.World)
    (filters : MineGame.Filters) (game : MineGame.Game) (tile : float) :
  MinePick.pickFilters req = Some filters ->
  MineGame.findOne filters (MineRoutes.rows w) = Some game ->
  MinePick.requesterValid req
  && negb (MineGame.publicKey game =? MinePick.requester req)%string = false ->
  MineGame.status game = MineGame.LIVE ->
  MinePick.tileIndexOf req = Some tile ->
  MinePick.validTile tile = true ->
  MineGame.maskHas (MineGame.revealedMask game) (JsNumber.floorZ tile) = true ->
  MinePick.pick req w
  = (MinePick.mkPickResponse 200
       (MinePick.PickResult "BET" (MineGame.id game)
          (MineRoutes.openedPoints (MineGame.datas game)) false
          (MineGame.datas game)),
     w).
Proof.
  intros Hf Hfound Howner Hlive Htile Hvalid Hopen.
  pose proof (validTile_range tile Hvalid) as Hrange.
  assert (Hdatas : MineGame.datas game
                   = MineGame.buildDatasFromMasks (MineGame.minesMask game)
                                                  (MineGame.revealedMask game)).
  { unfold MineGame.findOne in Hfound.
    destruct (find _ _) as [r|]; [|discriminate Hfound].
    injection Hfound as <-. reflexivity. }
  destruct (datas_cell (MineGame.minesMask game) (MineGame.revealedMask game)
              _ Hrange) as [Hidx [Hnth _]].
  rewrite <- Hdatas in Hidx, Hnth.
  unfold_pick. unfold MinePick.pickHandlerBody. rewrite Hf. unfold_pick.
  rewrite Hfound, Howner, Hlive, Htile, Hvalid. cbn [MineGame.statusEqb negb].
  rewrite Hidx. unfold MinePick.minedAt. rewrite Hnth.
  cbn [MineGame.mined]. rewrite Hopen. reflexivity.
Qed.

Lemma ownerCheck_passes (req : MinePick.PickRequest) (game : MineGame.Game) :
  MinePick.requesterValid req = false
  \/ MineGame.publicKey game = MinePick.requester req ->
  MinePick.requesterValid req
  && negb (MineGame.publicKey game =? MinePick.requester req)%string = false.
Proof.
  intros [H | H].
  - rewrite H. reflexivity.
  - rewrite H, String.eqb_refl. apply andb_false_r.
Qed.

(** X2: the layout [buildInitialDatas] draws survives its storage: encoded
    as the two masks [MineGame.create] writes and decoded as [findOne] does,
    it is the same list of 25 cells, and no cell is revealed. *)
Theorem created_layout_round_trip (mines : Z) (draws : list Z)
    (cells : list MineGame.Cell) :
  MineRoutes.buildInitialDatas mines draws = Some cells ->
  let masks := MineGame.buildMasksFromDatas cells in
  MineGame.buildDatasFromMasks (fst masks) (snd masks) = cells
  /\ snd masks = 0.
Proof.
  unfold MineRoutes.buildInitialDatas. intros H.
  destruct (MineRoutes.placeMines mines draws []) as [ps|]; [|discriminate H].
  assert (Hc : cells = MineRoutes.markMines ps MineRoutes.initialDatas).
  { symmetry.
    exact (f_equal (fun o => match o with Some c => c | None => cells end) H). }
  clear H. subst cells.
  assert (Hcells : MineRoutes.markMines ps MineRoutes.initialDatas
                   = map (fun i => MineGame.mkCell i
                                     (Some (if existsb (Z.eqb i) ps
                                            then MineGame.BOMB else MineGame.GEM))
                                     false)
                         (zrange 0 25)).
  { unfold MineRoutes.markMines, MineRoutes.initialDatas. rewrite map_map.
    reflexivity. }
  rewrite Hcells. clear Hcells.
  set (g := fun i => MineGame.mkCell i _ false).
  assert (Hg : forall i, MineGame.point (g i) = i) by reflexivity.
  cbv zeta. set (masks := MineGame.buildMasksFromDatas (map g (zrange 0 25))).
  split.
  - apply (buildDatasFromMasks_of_grid g Hg). intros i. subst g. discriminate.
  - apply Z.bits_inj'. intros j Hj.
    destruct (buildMasksFromDatas_grid g j Hg Hj) as [_ H2].
    cbv zeta in H2. fold masks in H2. rewrite H2, Z.bits_0.
    apply andb_false_r.
Qed.

Lemma created_layout_round_trip_witness :
  exists cells,
    MineRoutes.buildInitialDatas 3 drawsA = Some cells
    /\ MineGame.buildDatasFromMasks (fst (MineGame.buildMasksFromDatas cells))
                                    (snd (MineGame.buildMasksFromDatas cells))
       = cells.
Proof.
  eexists. split; [reflexivity|].
  apply (created_layout_round_trip 3 drawsA). reflexivity.
Defined.

(** X3: [/pick] (and [/reveal]) on a LIVE session, for a closed cell of the
    grid, by the owner or by a request that carries no valid public id:
    the answer is 200; the cell is opened in the stored session and no other
    cell changes; the session is ENDED when the cell is a mine or when no
    safe cell is left closed, and stays LIVE otherwise; no transfer is
    requested and no move is recorded. *)
Theorem pick_reveals (req : MinePick.PickRequest) (w : MineRoutes.World)
    (filters : MineGame.Filters) (game : MineGame.Game) (tile : float) :
  MinePick.pickFilters req = Some filters ->
  MineGame.findOne filters (MineRoutes.rows w) = Some game ->
  MineGame.findOne (MineSpec.byId (MineGame.id game)) (MineRoutes.rows w)
  = Some game ->
  MineGame.status game = MineGame.LIVE ->
  (MinePick.requesterValid req = false
   \/ MineGame.publicKey game = MinePick.requester req) ->
  MinePick.tileIndexOf req = Some tile ->
  MinePick.validTile tile = true ->
  MineGame.maskHas (MineGame.revealedMask game) (JsNumber.floorZ tile) = false ->
  let t := JsNumber.floorZ tile in
  let cells := map (openCell t) (MineGame.datas game) in
  let bomb := MineGame.maskHas (MineGame.minesMask game) t in
  let ended := bomb || forallb MineGame.mined (filter MineGame.isGem cells) in
  exists w' game',
    MinePick.pick req w
    = (MinePick.mkPickResponse 200
         (MinePick.PickResult (if ended then "END" else "BET") (MineGame.id game)
            (MineRoutes.openedPoints cells) bomb cells),
       w')
    /\ MineGame.findOne (MineSpec.byId (MineGame.id game)) (MineRoutes.rows w')
       = Some game'
    /\ MineGame.datas game' = cells
    /\ MineGame.status game' = (if ended then MineGame.ENDED else MineGame.LIVE)
    /\ MineGame.publicKey game' = MineGame.publicKey game
    /\ MineGame.minesMask game' = MineGame.minesMask game
    /\ MineGame.amount game' = MineGame.amount game
    /\ MineGame.payoutAmount game' = MineGame.payoutAmount game
    /\ MineRoutes.transfers w' = MineRoutes.transfers w
    /\ MineRoutes.moves w' = MineRoutes.moves w.
Proof.
  intros Hf Hfound Hself Hlive Howner Htile Hvalid Hclosed t cells bomb ended.
  pose proof (pick_opens req w filters game tile Hf Hfound
                (ownerCheck_passes req game Howner) Hlive Htile Hvalid Hclosed)
    as Hpick.
  cbv zeta in Hpick. fold t in Hpick. fold cells in Hpick. fold bomb in Hpick.
  fold ended in Hpick.
  destruct (findOne_row _ _ _ Hself) as [r [Hrow [Hgame Hid]]].
  eexists. eexists. split; [exact Hpick|].
  cbn [MineRoutes.rows MineRoutes.transfers MineRoutes.moves].
  unfold MineGame.findOne. rewrite find_findByIdAndUpdate, Hrow.
  cbn [option_map]. split; [reflexivity|].
  assert (Hst : MineGame.row_status r = MineGame.LIVE)
    by (rewrite Hgame in Hlive; exact Hlive).
  split.
  { cbn [MineGame.gameOfRow MineGame.datas MineGame.applyUpdates
         MineGame.u_datas MineGame.mines_mask MineGame.revealed_mask].
    subst cells. rewrite Hgame.
    cbn [MineGame.gameOfRow MineGame.datas]. apply reopen_decode. }
  split.
  { cbn [MineGame.gameOfRow MineGame.status MineGame.applyUpdates
         MineGame.u_status MineGame.row_status].
    destruct ended; cbn [MineGame.orKeep]; [reflexivity | exact Hst]. }
  rewrite Hgame. repeat (split; [reflexivity|]). reflexivity.
Qed.

Lemma pick_reveals_witness :
  exists w',
    fst (MinePick.pick pickRequest1 world1)
    = MinePick.mkPickResponse 200
        (MinePick.PickResult "BET" 1 [3; 4; 5; 6; 7; 10] false
           (map (openCell 10) (MineGame.buildDatasFromMasks 7 248)))
    /\ snd (MinePick.pick pickRequest1 world1) = w'
    /\ option_map MineGame.revealedMask
         (MineGame.findOne (MineSpec.byId 1) (MineRoutes.rows w'))
       = Some 1272.
Proof.
  destruct (pick_reveals pickRequest1 world1 (MineSpec.byId 1)
              (MineGame.gameOfRow row_3_1000_5) 10%float
              eq_refl eq_refl eq_refl eq_refl (or_introl eq_refl)
              eq_refl eq_refl eq_refl)
    as [w' [game' [Hpick _]]].
  exists w'. rewrite Hpick. cbn [fst snd].
  split; [vm_compute; reflexivity|]. split; [reflexivity|].
  injection Hpick as <-. vm_compute. reflexivity.
Defined.

(** X4: the owner check of [/pick] needs an identity: a request that
    carries no valid public id is never answered 403, whoever owns the
    session it addresses. *)
Theorem pick_owner_check_needs_identity (req : MinePick.PickRequest)
    (w : MineRoutes.World) :
  MinePick.requesterValid req = false ->
  MinePick.pickStatusCode (fst (MinePick.pick req w)) <> 403.
Proof.
  intros Hreq. unfold_pick. unfold MinePick.pickHandlerBody.
  destruct (MinePick.pickFilters req) as [filters|]; [|cbn; discriminate].
  unfold_pick.
  destruct (MineGame.findOne filters (MineRoutes.rows w)) as [game|];
    [|cbn; discriminate].
  rewrite Hreq. cbn [andb].
  destruct (negb (MineGame.statusEqb (MineGame.status game) MineGame.LIVE));
    [cbn; discriminate|].
  destruct (MinePick.tileIndexOf req) as [tile|]; [|cbn; discriminate].
  destruct (negb (MinePick.validTile tile)); [cbn; discriminate|].
  destruct (MineRoutes.findIndex _ _) as [slotIndex|]; [|cbn; discriminate].
  destruct (MinePick.minedAt _ _); [cbn; discriminate|].
  destruct (MinePick.bombAt _ _); [cbn; discriminate|].
  destruct (forallb _ _); cbn; discriminate.
Qed.

Lemma pick_owner_check_needs_identity_witness :
  MinePick.pickStatusCode (fst (MinePick.pick pickRequest1 world1)) <> 403.
Proof. apply pick_owner_check_needs_identity. reflexivity. Defined.

(** X5: a request of a valid wallet that is not the owner of the session it
    addresses is answered 403 and changes nothing. *)
Theorem pick_foreign_refused (req : MinePick.PickRequest) (w : MineRoutes.World)
    (filters : MineGame.Filters) (game : MineGame.Game) :
  MinePick.pickFilters req = Some filters ->
  MineGame.findOne filters (MineRoutes.rows w) = Some game ->
  MinePick.requesterValid req = true ->
  MineGame.publicKey game <> MinePick.requester req ->
  MinePick.pick req w
  = (MinePick.mkPickResponse 403
       (MinePick.PickError "Game does not belong to requester"), w).
Proof.
  intros Hf Hfound Hreq Hne.
  unfold_pick. unfold MinePick.pickHandlerBody. rewrite Hf. unfold_pick.
  rewrite Hfound, Hreq.
  destruct (String.eqb_spec (MineGame.publicKey game) (MinePick.requester req));
    [contradiction | reflexivity].
Qed.

Lemma pick_foreign_refused_witness :
  MinePick.pick pickRequestForeign world1
  = (MinePick.mkPickResponse 403
       (MinePick.PickError "Game does not belong to requester"), world1).
Proof.
  apply (pick_foreign_refused pickRequestForeign world1 (MineSpec.byId 1)
           (MineGame.gameOfRow row_3_1000_5) eq_refl eq_refl).
  - vm_compute. reflexivity.
  - intros H. vm_compute in H. discriminate H.
Defined.

(** X6: sending the same [/pick] twice reveals the cell once.  After a
    request that opened a cell of the session it names by id, the same
    request changes nothing: it is answered 400 ("Game is ENDED") when the
    first one ended the session, and else 200 with status BET, no mine hit,
    and the cells and opened list of the first answer. *)
Theorem pick_twice (req : MinePick.PickRequest) (w : MineRoutes.World)
    (gameId : Z) (game : MineGame.Game) (tile : float) :
  MinePick.pick_gameId req = Some gameId ->
  gameId <> 0 ->
  MineGame.findOne (MineSpec.byId gameId) (MineRoutes.rows w) = Some game ->
  MineGame.status game = MineGame.LIVE ->
  (MinePick.requesterValid req = false
   \/ MineGame.publicKey game = MinePick.requester req) ->
  MinePick.tileIndexOf req = Some tile ->
  MinePick.validTile tile = true ->
  MineGame.maskHas (MineGame.revealedMask game) (JsNumber.floorZ tile) = false ->
  let t := JsNumber.floorZ tile in
  let cells := map (openCell t) (MineGame.datas game) in
  let ended := MineGame.maskHas (MineGame.minesMask game) t
               || forallb MineGame.mined (filter MineGame.isGem cells) in
  let w1 := snd (MinePick.pick req w) in
  MinePick.pick req w1
  = (if ended
     then MinePick.mkPickResponse 400 (MinePick.PickError "Game is ENDED")
     else MinePick.mkPickResponse 200
            (MinePick.PickResult "BET" gameId (MineRoutes.openedPoints cells)
                                 false cells),
     w1).
Proof.
  intros Hgid Hnz Hfound Hlive Howner Htile Hvalid Hclosed t cells ended w1.
  assert (Hf : MinePick.pickFilters req = Some (MineSpec.byId gameId)).
  { unfold MinePick.pickFilters. rewrite Hgid.
    destruct (Z.eqb_spec gameId 0); [contradiction | reflexivity]. }
  pose proof (validTile_range tile Hvalid) as Hrange. fold t in Hrange.
  destruct (findOne_row _ _ _ Hfound) as [r [Hrow [Hgame Hid]]].
  pose proof (pick_opens req w _ game tile Hf Hfound
                (ownerCheck_passes req game Howner) Hlive Htile Hvalid Hclosed)
    as Hpick.
  cbv zeta in Hpick. fold t in Hpick. fold cells in Hpick. fold ended in Hpick.
  assert (Hgameid : MineGame.id game = gameId) by (rewrite Hgame; exact Hid).
  rewrite Hgameid in Hpick.
  subst w1. rewrite Hpick. cbn [snd].
  set (u := MineGame.mkUpdates (if ended then Some MineGame.ENDED else None)
                               (Some cells) None None None None None) in *.
  set (w1 := MineRoutes.mkWorld _ _ _).
  assert (Hfound1 : MineGame.findOne (MineSpec.byId gameId) (MineRoutes.rows w1)
                    = Some (MineGame.gameOfRow (MineGame.applyUpdates u r))).
  { subst w1. cbn [MineRoutes.rows]. unfold MineGame.findOne.
    rewrite find_findByIdAndUpdate, Hrow. reflexivity. }
  set (game1 := MineGame.gameOfRow (MineGame.applyUpdates u r)) in *.
  assert (Howner1 : MinePick.requesterValid req
                    && negb (MineGame.publicKey game1 =? MinePick.requester req)%string
                    = false).
  { apply ownerCheck_passes. destruct Howner as [H | H]; [left; exact H|].
    right. rewrite <- H, Hgame. reflexivity. }
  assert (Hdatas1 : MineGame.datas game1 = cells).
  { subst game1 u cells. rewrite Hgame.
    cbn [MineGame.gameOfRow MineGame.datas MineGame.applyUpdates
         MineGame.u_datas MineGame.mines_mask MineGame.revealed_mask].
    apply reopen_decode. }
  destruct ended eqn:Hended.
  - rewrite (pick_not_live req w1 _ game1 Hf Hfound1 Howner1);
      [reflexivity | discriminate].
  - assert (Hlive1 : MineGame.status game1 = MineGame.LIVE).
    { subst game1 u. rewrite Hgame in Hlive. exact Hlive. }
    assert (Hopen1 : MineGame.maskHas (MineGame.revealedMask game1)
                                      (JsNumber.floorZ tile) = true).
    { fold t. subst game1 u cells. rewrite Hgame.
      cbn [MineGame.gameOfRow MineGame.revealedMask MineGame.applyUpdates
           MineGame.u_datas MineGame.revealed_mask MineGame.datas].
      apply reopen_bit. exact Hrange. }
    rewrite (pick_opened req w1 _ game1 tile Hf Hfound1 Howner1 Hlive1 Htile
               Hvalid Hopen1).
    rewrite Hdatas1.
    assert (Hid1 : MineGame.id game1 = gameId) by exact Hid.
    rewrite Hid1. reflexivity.
Qed.

Lemma pick_twice_witness :
  MinePick.pick pickRequest1 (snd (MinePick.pick pickRequest1 world1))
  = (MinePick.mkPickResponse 200
       (MinePick.PickResult "BET" 1
          (MineRoutes.openedPoints
             (map (openCell 10) (MineGame.buildDatasFromMasks 7 248)))
          false (map (openCell 10) (MineGame.buildDatasFromMasks 7 248))),
     snd (MinePick.pick pickRequest1 world1)).
Proof.
  exact (pick_twice pickRequest1 world1 1 (MineGame.gameOfRow row_3_1000_5)
           10%float eq_refl ltac:(discriminate) eq_refl eq_refl
           (or_introl eq_refl) eq_refl eq_refl eq_refl).
Defined.

(** ** Cashing out with nothing revealed *)

(** X7: a cashout of a LIVE session in which no safe cell is revealed is
    refused with 400, whatever the house edge and the network: no transfer
    is requested and the session is unchanged. *)
Theorem cashout_requires_revealed_gem (HOUSE_EDGE : float)
    (net : QubicPayout.Network) (req : MineRoutes.Request)
    (w : MineRoutes.World) (game : MineGame.Game) :
  MineSpec.cashoutTarget req w = Some game ->
  MineGame.status game = MineGame.LIVE ->
  MineRoutes.countRevealedGems (MineGame.datas game) = 0 ->
  MineRoutes.cashout HOUSE_EDGE net req w
  = (MineRoutes.mkResponse 400
       (MineRoutes.ErrorBody "Cashout requires at least 1 revealed GEM"), w).
Proof.
  intros Htarget Hlive Hzero.
  rewrite (cashout_reaches _ _ _ _ _ Htarget).
  apply cashoutSettle_nothing; [exact Hlive|].
  unfold MineRoutes.payoutOf. rewrite Hzero.
  unfold MinesPayout.calculateMinesPayout.
  replace (negb (JsNumber.isInteger (JsNumber.ofZ 0))
           || PrimFloat.ltb (JsNumber.ofZ 0) 1) with true
    by (vm_compute; reflexivity).
  reflexivity.
Qed.

Lemma cashout_requires_revealed_gem_witness :
  MineRoutes.cashout MinesPayout.HOUSE_EDGE_default networkUp
                     cashoutRequestFresh world_fresh
  = (MineRoutes.mkResponse 400
       (MineRoutes.ErrorBody "Cashout requires at least 1 revealed GEM"),
     world_fresh).
Proof.
  apply (cashout_requires_revealed_gem _ _ _ _ (MineGame.gameOfRow row_fresh));
    vm_compute; reflexivity.
Defined.

(** ** [applyPickToDatas] *)

Lemma findIndex_spec (t : Z) (cells : list MineGame.Cell) :
  match MineRoutes.findIndex t cells with
  | Some k => exists c, nth_error cells k = Some c /\ MineGame.point c = t
  | None => ~ In t (map MineGame.point cells)
  end.
Proof.
  induction cells as [|c cells IH]; cbn [MineRoutes.findIndex map In].
  - intros [].
  - destruct (Z.eqb_spec (MineGame.point c) t) as [Heq | Hne].
    + exists c. split; [reflexivity | exact Heq].
    + destruct (MineRoutes.findIndex t cells) as [k|]; cbn [option_map].
      * exact IH.
      * intros [H | H]; [contradiction | exact (IH H)].
Qed.

Lemma setMined_points (k : nat) (cells : list MineGame.Cell) :
  map MineGame.point (MineRoutes.setMined k cells) = map MineGame.point cells
  /\ map MineGame.mine (MineRoutes.setMined k cells) = map MineGame.mine cells.
Proof.
  revert k. induction cells as [|c cells IH]; intros k;
    [destruct k; split; reflexivity|].
  destruct k as [|k]; cbn [MineRoutes.setMined map]; [split; reflexivity|].
  destruct (IH k) as [H1 H2]. rewrite H1, H2. split; reflexivity.
Qed.

Lemma findIndex_setMined (t : Z) (k : nat) (cells : list MineGame.Cell) :
  MineRoutes.findIndex t (MineRoutes.setMined k cells)
  = MineRoutes.findIndex t cells.
Proof.
  revert k. induction cells as [|c cells IH]; intros k;
    [destruct k; reflexivity|].
  destruct k as [|k]; cbn [MineRoutes.setMined MineRoutes.findIndex MineGame.point];
    [reflexivity|].
  rewrite IH. reflexivity.
Qed.

Lemma setMined_nth (k : nat) (cells : list MineGame.Cell) (c : MineGame.Cell) :
  nth_error cells k = Some c ->
  nth_error (MineRoutes.setMined k cells) k
  = Some (MineGame.mkCell (MineGame.point c) (MineGame.mine c) true).
Proof.
  revert k. induction cells as [|c0 cells IH]; intros k H;
    [destruct k; discriminate H|].
  destruct k as [|k]; cbn [MineRoutes.setMined nth_error] in *.
  - injection H as <-. reflexivity.
  - exact (IH k H).
Qed.

Lemma setMined_opened (k : nat) (cells : list MineGame.Cell) (c : MineGame.Cell) :
  nth_error cells k = Some c ->
  In (MineGame.point c) (MineRoutes.openedPoints (MineRoutes.setMined k cells))
  /\ incl (MineRoutes.openedPoints cells)
          (MineRoutes.openedPoints (MineRoutes.setMined k cells)).
Proof.
  unfold MineRoutes.openedPoints.
  revert k. induction cells as [|c0 cells IH]; intros k H;
    [destruct k; discriminate H|].
  destruct k as [|k]; cbn [MineRoutes.setMined nth_error] in *.
  - injection H as <-. cbn [filter MineGame.mined map].
    split; [left; reflexivity|].
    destruct (MineGame.mined c0); cbn [map].
    + apply incl_refl.
    + apply incl_tl, incl_refl.
  - destruct (IH k H) as [H1 H2]. cbn [filter].
    destruct (MineGame.mined c0); cbn [map].
    + split; [right; exact H1|].
      intros p [Hp | Hp]; [left; exact Hp | right; exact (H2 p Hp)].
    + split; [exact H1 | exact H2].
Qed.

(** X8: [applyPickToDatas] fails with status 400 exactly when no cell has
    the index; otherwise it keeps the indexes and the mines of the cells,
    keeps every opened cell opened and opens the cell picked; it reports a
    mine only with status END; and picking the same cell again changes
    nothing and answers BET. *)
Theorem applyPickToDatas_spec (cells : list MineGame.Cell) (tileIndex : Z) :
  match MinePick.applyPickToDatas cells tileIndex with
  | inl (code, e) =>
      code = 400 /\ ~ In tileIndex (map MineGame.point cells)
  | inr o =>
      In tileIndex (map MineGame.point cells)
      /\ map MineGame.point (MinePick.po_datas o) = map MineGame.point cells
      /\ map MineGame.mine (MinePick.po_datas o) = map MineGame.mine cells
      /\ MinePick.po_opened o = MineRoutes.openedPoints (MinePick.po_datas o)
      /\ In tileIndex (MinePick.po_opened o)
      /\ incl (MineRoutes.openedPoints cells) (MinePick.po_opened o)
      /\ (MinePick.po_hitMine o = true -> MinePick.po_status o = "END"%string)
      /\ MinePick.applyPickToDatas (MinePick.po_datas o) tileIndex
         = inr (MinePick.mkPickOutcome "BET" false (MinePick.po_opened o)
                                       (MinePick.po_datas o))
  end.
Proof.
  unfold MinePick.applyPickToDatas.
  pose proof (findIndex_spec tileIndex cells) as Hfind.
  destruct (MineRoutes.findIndex tileIndex cells) as [k|] eqn:Hidx;
    [|split; [reflexivity | exact Hfind]].
  destruct Hfind as [c [Hnth Hpoint]].
  assert (Hin : In tileIndex (map MineGame.point cells)).
  { rewrite <- Hpoint. apply in_map. exact (nth_error_In _ _ Hnth). }
  unfold MinePick.minedAt at 1. rewrite Hnth.
  destruct (MineGame.mined c) eqn:Hmined.
  - cbn [MinePick.po_datas MinePick.po_opened MinePick.po_hitMine
         MinePick.po_status].
    split; [exact Hin|]. split; [reflexivity|]. split; [reflexivity|].
    split; [reflexivity|].
    split.
    { unfold MineRoutes.openedPoints. rewrite <- Hpoint. apply in_map.
      apply filter_In. split; [exact (nth_error_In _ _ Hnth) | exact Hmined]. }
    split; [apply incl_refl|]. split; [discriminate|].
    rewrite Hidx. unfold MinePick.minedAt. rewrite Hnth, Hmined. reflexivity.
  - destruct (setMined_points k cells) as [Hpts Htags].
    destruct (setMined_opened k cells c Hnth) as [Hopened Hincl].
    rewrite Hpoint in Hopened.
    assert (Hsecond :
      MinePick.applyPickToDatas (MineRoutes.setMined k cells) tileIndex
      = inr (MinePick.mkPickOutcome "BET" false
               (MineRoutes.openedPoints (MineRoutes.setMined k cells))
               (MineRoutes.setMined k cells))).
    { unfold MinePick.applyPickToDatas.
      rewrite findIndex_setMined, Hidx. unfold MinePick.minedAt at 1.
      rewrite (setMined_nth k cells c Hnth). reflexivity. }
    unfold MinePick.applyPickToDatas in Hsecond.
    destruct (MinePick.bombAt (MineRoutes.setMined k cells) k);
      [|destruct (forallb MineGame.mined
                    (filter MineGame.isGem (MineRoutes.setMined k cells)))];
      cbn [MinePick.po_datas MinePick.po_opened MinePick.po_hitMine
           MinePick.po_status];
      (split; [exact Hin|]); (split; [exact Hpts|]); (split; [exact Htags|]);
      (split; [reflexivity|]); (split; [exact Hopened|]);
      (split; [exact Hincl|]); (split; [try reflexivity; discriminate|]);
      exact Hsecond.
Qed.

(** ** What a request does to the table *)

Lemma findByIdAndUpdate_twice (gameId : Z) (u1 u2 : MineGame.Updates)
    (rows : list MineGame.Row) :
  MineGame.findByIdAndUpdate gameId u2 (MineGame.findByIdAndUpdate gameId u1 rows)
  = map (fun r => if MineGame.row_id r =? gameId
                  then MineGame.applyUpdates u2 (MineGame.applyUpdates u1 r)
                  else r)
        rows.
Proof.
  unfold MineGame.findByIdAndUpdate. rewrite map_map. apply map_ext.
  intros r. destruct (Z.eqb_spec (MineGame.row_id r) gameId) as [Heq | Hne].
  - rewrite applyUpdates_row_id, Heq, Z.eqb_refl. reflexivity.
  - destruct (Z.eqb_spec (MineGame.row_id r) gameId); [contradiction | reflexivity].
Qed.

(** [/bet] never writes: the unbound identifier is evaluated before the
    first write on the only path that leads to one. *)
Lemma bet_effect (req : MineRoutes.Request) (w : MineRoutes.World) :
  snd (MineRoutes.bet req w) = w
  /\ MineRoutes.statusCode (fst (MineRoutes.bet req w)) <> 200.
Proof.
  unfold MineRoutes.bet, MineRoutes.betBody.
  destruct (negb (Validation.isValidQubicPublicId _));
    [split; [reflexivity | cbn; discriminate]|].
  destruct (MineRoutes.body_point req) as [point|];
    [|split; [reflexivity | cbn; discriminate]].
  destruct ((point <? 0) || (25 <=? point));
    [split; [reflexivity | cbn; discriminate]|].
  unfold_handler.
  destruct (MineGame.findOne _ (MineRoutes.rows w)) as [game|];
    [|split; [reflexivity | cbn; discriminate]].
  destruct (MineRoutes.findIndex point (MineGame.datas game)) as [slotIndex|];
    [|split; [reflexivity | cbn; discriminate]].
  destruct (match nth_error (MineGame.datas game) slotIndex with
            | Some c => MineGame.mined c
            | None => false
            end);
    split; try reflexivity; cbn; discriminate.
Qed.

(** [/claim] writes at most the payout status and error of a session whose
    payout status is FAILED. *)
Lemma claim_effect (net : QubicPayout.Network) (req : MineRoutes.Request)
    (w : MineRoutes.World) :
  snd (MineRoutes.claim net req w) = w
  \/ exists filters game u1 u2,
       MineGame.findOne filters (MineRoutes.rows w) = Some game
       /\ MineGame.f_payoutStatus filters = Some MineGame.FAILED
       /\ MineEvents.notesOnly u1 = true
       /\ MineEvents.notesOnly u2 = true
       /\ snd (MineRoutes.claim net req w)
          = MineRoutes.mkWorld
              (MineGame.findByIdAndUpdate (MineGame.id game) u2
                 (MineGame.findByIdAndUpdate (MineGame.id game) u1
                    (MineRoutes.rows w)))
              (MineRoutes.transfers w) (MineRoutes.moves w).
Proof.
  unfold MineRoutes.claim, MineRoutes.claimBody.
  destruct (negb (Validation.isValidQubicPublicId _)); [left; reflexivity|].
  unfold_handler.
  match goal with
  | |- context [MineGame.findOne ?f (MineRoutes.rows w)] => set (filters := f)
  end.
  destruct (MineGame.findOne filters (MineRoutes.rows w)) as [g|] eqn:Hfound;
    [|left; reflexivity].
  destruct (negb (String.eqb (MineGame.publicKey g) _)); [left; reflexivity|].
  destruct (existsb _ (MineGame.datas g)); [left; reflexivity|].
  destruct (MineGame.payoutAmount g) as [a|]; [|left; reflexivity].
  destruct (negb (JsNumber.truthy a) || PrimFloat.leb a 0); [left; reflexivity|].
  rewrite callTransfer_unbound.
  right. exists filters, g. eexists. eexists.
  split; [exact Hfound|]. split; [reflexivity|].
  split; [|split; [|reflexivity]]; reflexivity.
Qed.

(** [/cashout] writes only to a session it found LIVE, by its id. *)
Lemma cashout_effect (HOUSE_EDGE : float) (net : QubicPayout.Network)
    (req : MineRoutes.Request) (w : MineRoutes.World) :
  snd (MineRoutes.cashout HOUSE_EDGE net req w) = w
  \/ exists game u1 u2,
       MineGame.findOne (MineSpec.byId (MineGame.id game)) (MineRoutes.rows w)
       = Some game
       /\ MineGame.status game = MineGame.LIVE
       /\ MineRoutes.rows (snd (MineRoutes.cashout HOUSE_EDGE net req w))
          = MineGame.findByIdAndUpdate (MineGame.id game) u2
              (MineGame.findByIdAndUpdate (MineGame.id game) u1
                 (MineRoutes.rows w)).
Proof.
  destruct (MineSpec.cashoutTarget req w) as [game|] eqn:Htarget.
  2:{ left. apply (cashout_refused _ _ _ _ Htarget). }
  rewrite (cashout_reaches _ _ _ _ _ Htarget).
  destruct (cashoutTarget_found _ _ _ Htarget) as [r [Hid [Hrow Hgame]]].
  destruct (MineGame.status game) eqn:Hst;
    try (left; rewrite cashoutSettle_ended by (rewrite Hst; discriminate);
         reflexivity).
  destruct (PrimFloat.leb
              (MinesPayout.payoutAmount (MineRoutes.payoutOf HOUSE_EDGE game)) 0)
    eqn:Hle.
  { left. rewrite (cashoutSettle_nothing _ _ _ _ _ Hst Hle). reflexivity. }
  right. exists game.
  rewrite (cashoutSettle_live HOUSE_EDGE net game _ w r Hst Hle Hrow).
  cbv zeta.
  assert (Hself : MineGame.findOne (MineSpec.byId (MineGame.id game))
                                   (MineRoutes.rows w) = Some game).
  { unfold MineGame.findOne. unfold MineSpec.rowOf in Hrow. rewrite Hrow.
    rewrite Hgame. reflexivity. }
  destruct (QubicPayout.payFromCasinoToUser net _ _ _) as [e | receipt];
    eexists; eexists; (split; [exact Hself|]); (split; [exact Hst|]);
    cbn [snd MineRoutes.rows]; reflexivity.
Qed.

(** [/pick] writes only to a session it found LIVE, by its id. *)
Lemma pick_effect (req : MinePick.PickRequest) (w : MineRoutes.World) :
  snd (MinePick.pick req w) = w
  \/ exists filters game u,
       MineGame.findOne filters (MineRoutes.rows w) = Some game
       /\ MineGame.status game = MineGame.LIVE
       /\ snd (MinePick.pick req w)
          = MineRoutes.mkWorld
              (MineGame.findByIdAndUpdate (MineGame.id game) u (MineRoutes.rows w))
              (MineRoutes.transfers w) (MineRoutes.moves w).
Proof.
  unfold_pick. unfold MinePick.pickHandlerBody.
  destruct (MinePick.pickFilters req) as [filters|]; [|left; reflexivity].
  unfold_pick.
  destruct (MineGame.findOne filters (MineRoutes.rows w)) as [game|] eqn:Hfound;
    [|left; reflexivity].
  destruct (MinePick.requesterValid req && _); [left; reflexivity|].
  destruct (MineGame.status game) eqn:Hst; cbn [MineGame.statusEqb negb];
    try (left; reflexivity).
  destruct (MinePick.tileIndexOf req) as [tile|]; [|left; reflexivity].
  destruct (negb (MinePick.validTile tile)); [left; reflexivity|].
  destruct (MineRoutes.findIndex _ _) as [slotIndex|]; [|left; reflexivity].
  destruct (MinePick.minedAt _ _); [left; reflexivity|].
  right. exists filters, game.
  destruct (MinePick.bombAt _ _);
    [|destruct (forallb _ _)];
    eexists; (split; [exact Hfound|]); (split; [exact Hst|]); reflexivity.
Qed.

(** ** Invariants of the sessions table *)

Lemma rowStable_refl (r : MineGame.Row) : MineEvents.rowStable r r.
Proof. split; [reflexivity|]. intros _. split; [reflexivity|]. reflexivity. Qed.

Lemma rowStable_trans (r1 r2 r3 : MineGame.Row) :
  MineEvents.rowStable r1 r2 -> MineEvents.rowStable r2 r3 ->
  MineEvents.rowStable r1 r3.
Proof.
  intros [Hc1 Hs1] [Hc2 Hs2]. split; [congruence|].
  intros Hlive. destruct (Hs1 Hlive) as [Hset1 Hall1].
  assert (Hlive2 : MineGame.row_status r2 <> MineGame.LIVE).
  { unfold MineEvents.settledColumns in Hset1. congruence. }
  destruct (Hs2 Hlive2) as [Hset2 Hall2].
  split; [congruence|].
  intros Hfailed. specialize (Hall1 Hfailed). subst r2. exact (Hall2 Hfailed).
Qed.

Lemma Forall2_rowStable_refl (rows : list MineGame.Row) :
  Forall2 MineEvents.rowStable rows rows.
Proof. induction rows; constructor; [apply rowStable_refl | assumption]. Qed.

Lemma Forall2_rowStable_trans (a b c : list MineGame.Row) :
  Forall2 MineEvents.rowStable a b -> Forall2 MineEvents.rowStable b c ->
  Forall2 MineEvents.rowStable a c.
Proof.
  intros Hab. revert c. induction Hab as [|x y a b Hxy Hab IH]; intros c Hbc.
  - inversion Hbc. constructor.
  - inversion Hbc as [|y' z b' c' Hyz Hbc']; subst.
    constructor; [exact (rowStable_trans _ _ _ Hxy Hyz) | exact (IH _ Hbc')].
Qed.

Lemma Forall2_map_In (R : MineGame.Row -> MineGame.Row -> Prop)
    (F : MineGame.Row -> MineGame.Row) (rows : list MineGame.Row) :
  (forall r, In r rows -> R r (F r)) -> Forall2 R rows (map F rows).
Proof.
  induction rows as [|r rows IH]; intros H; cbn [map]; constructor.
  - apply H. left. reflexivity.
  - apply IH. intros r' Hr'. apply H. right. exact Hr'.
Qed.

Lemma Forall2_rowStable_ids (rows rows' : list MineGame.Row) :
  Forall2 MineEvents.rowStable rows rows' ->
  map MineEvents.createdColumns rows' = map MineEvents.createdColumns rows
  /\ map MineGame.row_id rows' = map MineGame.row_id rows.
Proof.
  induction 1 as [|r r' rows rows' [Hc _] _ [IH1 IH2]]; [split; reflexivity|].
  cbn [map]. rewrite IH1, IH2, Hc. split; [reflexivity|].
  unfold MineEvents.createdColumns in Hc. f_equal. congruence.
Qed.

(** With ids that are unique, the row of an id is the row a lookup found. *)
Lemma unique_row (rows : list MineGame.Row) (r r0 : MineGame.Row) :
  NoDup (map MineGame.row_id rows) ->
  In r rows -> In r0 rows -> MineGame.row_id r = MineGame.row_id r0 -> r = r0.
Proof.
  induction rows as [|x rows IH]; intros Hnd Hr Hr0 Hid; [contradiction|].
  cbn [map] in Hnd. inversion Hnd as [|? ? Hnotin Hnd']; subst.
  destruct Hr as [-> | Hr]; destruct Hr0 as [-> | Hr0].
  - reflexivity.
  - exfalso. apply Hnotin. rewrite Hid. apply in_map. exact Hr0.
  - exfalso. apply Hnotin. rewrite <- Hid. apply in_map. exact Hr.
  - exact (IH Hnd' Hr Hr0 Hid).
Qed.

Lemma findOne_In (filters : MineGame.Filters) (rows : list MineGame.Row)
    (game : MineGame.Game) :
  MineGame.findOne filters rows = Some game ->
  exists r0, In r0 rows /\ game = MineGame.gameOfRow r0
             /\ MineGame.rowMatches filters r0 = true.
Proof.
  unfold MineGame.findOne. intros H.
  destruct (find (MineGame.rowMatches filters) rows) as [r0|] eqn:Hfind;
    [|discriminate H].
  injection H as <-. exists r0. apply find_some in Hfind.
  split; [apply Hfind|]. split; [reflexivity | apply Hfind].
Qed.

Lemma applyUpdates_created (u : MineGame.Updates) (r : MineGame.Row) :
  MineEvents.createdColumns (MineGame.applyUpdates u r)
  = MineEvents.createdColumns r.
Proof. reflexivity. Qed.

Lemma applyUpdates_notes (u : MineGame.Updates) (r : MineGame.Row) :
  MineEvents.notesOnly u = true ->
  MineEvents.settledColumns (MineGame.applyUpdates u r)
  = MineEvents.settledColumns r.
Proof.
  unfold MineEvents.notesOnly. destruct u as [s d a t ps pe g]. cbn.
  destruct s; [discriminate|]. destruct d; [discriminate|].
  destruct a; [discriminate|]. destruct t; [discriminate|].
  intros _. reflexivity.
Qed.

(** Two updates by the id of a session that a lookup found LIVE. *)
Lemma update_live_stable (rows : list MineGame.Row) (filters : MineGame.Filters)
    (game : MineGame.Game) (G : MineGame.Row -> MineGame.Row) :
  NoDup (map MineGame.row_id rows) ->
  MineGame.findOne filters rows = Some game ->
  MineGame.status game = MineGame.LIVE ->
  (forall r, MineEvents.createdColumns (G r) = MineEvents.createdColumns r) ->
  Forall2 MineEvents.rowStable rows
    (map (fun r => if MineGame.row_id r =? MineGame.id game then G r else r) rows).
Proof.
  intros Hnd Hfound Hlive HG.
  destruct (findOne_In _ _ _ Hfound) as [r0 [Hin0 [Hgame _]]].
  apply Forall2_map_In. intros r Hin.
  destruct (Z.eqb_spec (MineGame.row_id r) (MineGame.id game)) as [Heq | Hne];
    [|apply rowStable_refl].
  assert (r = r0).
  { apply (unique_row rows); try assumption. rewrite Heq, Hgame. reflexivity. }
  subst r0. split; [apply HG|].
  intros Hnot. exfalso. apply Hnot. rewrite Hgame in Hlive. exact Hlive.
Qed.

(** Two updates of the payout status and error, by the id of a session that
    a lookup found with a failed payout. *)
Lemma update_failed_stable (rows : list MineGame.Row) (filters : MineGame.Filters)
    (game : MineGame.Game) (u1 u2 : MineGame.Updates) :
  NoDup (map MineGame.row_id rows) ->
  MineGame.findOne filters rows = Some game ->
  MineGame.f_payoutStatus filters = Some MineGame.FAILED ->
  MineEvents.notesOnly u1 = true ->
  MineEvents.notesOnly u2 = true ->
  Forall2 MineEvents.rowStable rows
    (map (fun r => if MineGame.row_id r =? MineGame.id game
                   then MineGame.applyUpdates u2 (MineGame.applyUpdates u1 r)
                   else r)
         rows).
Proof.
  intros Hnd Hfound Hfilter Hn1 Hn2.
  destruct (findOne_In _ _ _ Hfound) as [r0 [Hin0 [Hgame Hmatch]]].
  assert (Hfailed : MineGame.payout_status r0 = MineGame.FAILED).
  { unfold MineGame.rowMatches in Hmatch. rewrite Hfilter in Hmatch.
    rewrite !andb_true_iff in Hmatch. destruct Hmatch as [[[[_ _] _] Hm] _].
    cbn [MineGame.optionMatches] in Hm.
    destruct (MineGame.payout_status r0); try discriminate Hm. reflexivity. }
  apply Forall2_map_In. intros r Hin.
  destruct (Z.eqb_spec (MineGame.row_id r) (MineGame.id game)) as [Heq | Hne];
    [|apply rowStable_refl].
  assert (r = r0).
  { apply (unique_row rows); try assumption. rewrite Heq, Hgame. reflexivity. }
  subst r0. split; [reflexivity|].
  intros _. split.
  - rewrite !applyUpdates_notes by assumption. reflexivity.
  - intros Hnot. contradiction.
Qed.

Lemma step_stable (w : MineRoutes.World) (e : MineEvents.Event) :
  NoDup (map MineGame.row_id (MineRoutes.rows w)) ->
  Forall2 MineEvents.rowStable (MineRoutes.rows w)
          (MineRoutes.rows (MineEvents.step w e)).
Proof.
  intros Hnd. destruct e as [HOUSE_EDGE net req | net req | req | req];
    cbn [MineEvents.step].
  - destruct (cashout_effect HOUSE_EDGE net req w)
      as [-> | [game [u1 [u2 [Hfound [Hlive ->]]]]]];
      [apply Forall2_rowStable_refl|].
    rewrite findByIdAndUpdate_twice.
    apply (update_live_stable _ _ game _ Hnd Hfound Hlive).
    intros r. reflexivity.
  - destruct (claim_effect net req w)
      as [-> | [filters [game [u1 [u2 [Hfound [Hf [Hn1 [Hn2 ->]]]]]]]]];
      [apply Forall2_rowStable_refl|].
    cbn [MineRoutes.rows]. rewrite findByIdAndUpdate_twice.
    exact (update_failed_stable _ _ game u1 u2 Hnd Hfound Hf Hn1 Hn2).
  - rewrite (proj1 (bet_effect req w)). apply Forall2_rowStable_refl.
  - destruct (pick_effect req w) as [-> | [filters [game [u [Hfound [Hlive ->]]]]]];
      [apply Forall2_rowStable_refl|].
    cbn [MineRoutes.rows]. unfold MineGame.findByIdAndUpdate.
    apply (update_live_stable _ _ game _ Hnd Hfound Hlive).
    intros r. reflexivity.
Qed.

Lemma run_stable (events : list MineEvents.Event) : forall w,
  NoDup (map MineGame.row_id (MineRoutes.rows w)) ->
  Forall2 MineEvents.rowStable (MineRoutes.rows w)
          (MineRoutes.rows (MineEvents.run events w)).
Proof.
  unfold MineEvents.run.
  induction events as [|e events IH]; intros w Hnd; cbn [fold_left].
  - apply Forall2_rowStable_refl.
  - pose proof (step_stable w e Hnd) as Hstep.
    apply (Forall2_rowStable_trans _ _ _ Hstep). apply IH.
    rewrite (proj2 (Forall2_rowStable_ids _ _ Hstep)). exact Hnd.
Qed.

Lemma Forall2_nth (R : MineGame.Row -> MineGame.Row -> Prop)
    (a b : list MineGame.Row) :
  Forall2 R a b ->
  forall i r, nth_error a i = Some r ->
              exists r', nth_error b i = Some r' /\ R r r'.
Proof.
  induction 1 as [|x y a b Hxy _ IH]; intros i r Hi;
    [destruct i; discriminate Hi|].
  destruct i as [|i]; cbn [nth_error] in *.
  - injection Hi as <-. exists y. split; [reflexivity | exact Hxy].
  - exact (IH i r Hi).
Qed.

Lemma findByIdAndUpdate_created (gameId : Z) (u : MineGame.Updates)
    (rows : list MineGame.Row) :
  map MineEvents.createdColumns (MineGame.findByIdAndUpdate gameId u rows)
  = map MineEvents.createdColumns rows.
Proof.
  unfold MineGame.findByIdAndUpdate. rewrite map_map. apply map_ext.
  intros r. destruct (MineGame.row_id r =? gameId); reflexivity.
Qed.

Lemma step_created (w : MineRoutes.World) (e : MineEvents.Event) :
  map MineEvents.createdColumns (MineRoutes.rows (MineEvents.step w e))
  = map MineEvents.createdColumns (MineRoutes.rows w).
Proof.
  destruct e as [HOUSE_EDGE net req | net req | req | req];
    cbn [MineEvents.step].
  - destruct (cashout_effect HOUSE_EDGE net req w)
      as [-> | [game [u1 [u2 [_ [_ ->]]]]]]; [reflexivity|].
    rewrite !findByIdAndUpdate_created. reflexivity.
  - destruct (claim_effect net req w)
      as [-> | [filters [game [u1 [u2 [_ [_ [_ [_ ->]]]]]]]]]; [reflexivity|].
    cbn [MineRoutes.rows]. rewrite !findByIdAndUpdate_created. reflexivity.
  - rewrite (proj1 (bet_effect req w)). reflexivity.
  - destruct (pick_effect req w) as [-> | [filters [game [u [_ [_ ->]]]]]];
      [reflexivity|].
    cbn [MineRoutes.rows]. rewrite findByIdAndUpdate_created. reflexivity.
Qed.

(** X9: no sequence of requests to [/cashout], [/claim], [/bet] and
    [/pick] changes what a session was created with: after it, the table has
    the same sessions in the same order, each with its id, owner, number of
    mines, stake, bet transaction, seeds, mine layout and expiry. *)
Theorem created_columns_never_change (events : list MineEvents.Event)
    (w : MineRoutes.World) :
  map MineEvents.createdColumns (MineRoutes.rows (MineEvents.run events w))
  = map MineEvents.createdColumns (MineRoutes.rows w).
Proof.
  unfold MineEvents.run. revert w.
  induction events as [|e events IH]; intros w; cbn [fold_left]; [reflexivity|].
  rewrite IH. apply step_created.
Qed.

(** X10: a session that is no longer LIVE is final (ids being unique in
    the table): whatever requests to [/cashout], [/claim], [/bet] and
    [/pick] follow, it keeps its status, its revealed cells, its payout
    amount and its payout transaction; and unless its payout had failed,
    the whole row is unchanged. *)
Theorem settled_session_is_final (events : list MineEvents.Event)
    (w : MineRoutes.World) (i : nat) (r : MineGame.Row) :
  NoDup (map MineGame.row_id (MineRoutes.rows w)) ->
  nth_error (MineRoutes.rows w) i = Some r ->
  MineGame.row_status r <> MineGame.LIVE ->
  exists r',
    nth_error (MineRoutes.rows (MineEvents.run events w)) i = Some r'
    /\ MineEvents.settledColumns r' = MineEvents.settledColumns r
    /\ (MineGame.payout_status r <> MineGame.FAILED -> r' = r).
Proof.
  intros Hnd Hi Hst.
  destruct (Forall2_nth _ _ _ (run_stable events w Hnd) i r Hi)
    as [r' [Hi' [_ Hs]]].
  exists r'. split; [exact Hi'|]. exact (Hs Hst).
Qed.

Lemma settled_session_is_final_witness :
  exists r',
    nth_error (MineRoutes.rows (MineEvents.run requests_settled world_settled)) 0
    = Some r'
    /\ MineEvents.settledColumns r' = MineEvents.settledColumns row_settled
    /\ (MineGame.payout_status row_settled <> MineGame.FAILED -> r' = row_settled).
Proof.
  apply (settled_session_is_final requests_settled world_settled 0 row_settled).
  - repeat constructor; cbn; intuition discriminate.
  - reflexivity.
  - discriminate.
Defined.

(** X11: [/bet] never writes, whatever the request: the table, the
    transfers and the recorded moves are unchanged, and the answer is never
    200. *)
Theorem bet_never_writes (req : MineRoutes.Request) (w : MineRoutes.World) :
  snd (MineRoutes.bet req w) = w
  /\ MineRoutes.statusCode (fst (MineRoutes.bet req w)) <> 200.
Proof. exact (bet_effect req w). Qed.

(** X12: only [/cashout] requests transfers: a request to [/claim], [/bet]
    or [/pick] leaves the list of the transfers requested as it was, and
    records no move. *)
Theorem only_cashout_requests_transfers (w : MineRoutes.World)
    (e : MineEvents.Event) :
  (forall HOUSE_EDGE net req, e <> MineEvents.Cashout HOUSE_EDGE net req) ->
  MineRoutes.transfers (MineEvents.step w e) = MineRoutes.transfers w
  /\ MineRoutes.moves (MineEvents.step w e) = MineRoutes.moves w.
Proof.
  intros Hnot. destruct e as [HOUSE_EDGE net req | net req | req | req];
    cbn [MineEvents.step].
  - exfalso. exact (Hnot HOUSE_EDGE net req eq_refl).
  - destruct (claim_effect net req w)
      as [-> | [filters [game [u1 [u2 [_ [_ [_ [_ ->]]]]]]]]];
      split; reflexivity.
  - rewrite (proj1 (bet_effect req w)). split; reflexivity.
  - destruct (pick_effect req w) as [-> | [filters [game [u [_ [_ ->]]]]]];
      split; reflexivity.
Qed.

Lemma only_cashout_requests_transfers_witness :
  MineRoutes.transfers
    (MineEvents.step world_failed_payout (MineEvents.Claim networkUp claimRequest1))
  = MineRoutes.transfers world_failed_payout
  /\ MineRoutes.moves
       (MineEvents.step world_failed_payout (MineEvents.Claim networkUp claimRequest1))
     = MineRoutes.moves world_failed_payout.
Proof.
  apply only_cashout_requests_transfers. intros HOUSE_EDGE net req H.
  discriminate H.
Defined.

(** ** The events of a Crash round *)

Lemma autoCashoutPlayer_betOf (net : QubicPayout.Network) (m : float)
    (p : Crash.Player) (log : list Crash.Transfer) :
  CrashRun.betOf (fst (Crash.autoCashoutPlayer net m p log)) = CrashRun.betOf p.
Proof.
  unfold Crash.autoCashoutPlayer.
  destruct (Crash.isBet p && JsNumber.truthy (Crash.target p)
            && PrimFloat.leb (Crash.target p) m); [|reflexivity].
  cbv zeta. destruct (PrimFloat.ltb 0 _); [|reflexivity].
  destruct (QubicPayout.payFromCasinoToUser _ _ _ _); reflexivity.
Qed.

Lemma autoCashout_betOf (net : QubicPayout.Network) (m : float) :
  forall ps log,
    map CrashRun.betOf (fst (Crash.autoCashout net m ps log))
    = map CrashRun.betOf ps.
Proof.
  induction ps as [|p ps IH]; intros log; [reflexivity|].
  cbn [Crash.autoCashout].
  pose proof (autoCashoutPlayer_betOf net m p log) as Hp.
  destruct (Crash.autoCashoutPlayer net m p log) as [p' log1].
  pose proof (IH log1) as Hrest.
  destruct (Crash.autoCashout net m ps log1) as [rest' log2].
  cbn [fst map] in *. rewrite Hp, Hrest. reflexivity.
Qed.

Lemma markLost_betOf (ps : list Crash.Player) :
  map CrashRun.betOf (map Crash.markLost ps) = map CrashRun.betOf ps.
Proof.
  rewrite map_map. apply map_ext. intros p. unfold Crash.markLost.
  destruct (Crash.isBet p); reflexivity.
Qed.

Lemma replaceFirst_betOf (pred : Crash.Player -> bool) (p p' : Crash.Player) :
  CrashRun.betOf p' = CrashRun.betOf p ->
  forall ps,
    find pred ps = Some p ->
    map CrashRun.betOf (CrashRun.replaceFirst pred p' ps)
    = map CrashRun.betOf ps.
Proof.
  intros Hbet. induction ps as [|x ps IH]; intros Hfind; [discriminate Hfind|].
  cbn [find CrashRun.replaceFirst] in *.
  destruct (pred x).
  - injection Hfind as ->. cbn [map]. rewrite Hbet. reflexivity.
  - cbn [map]. rewrite (IH Hfind). reflexivity.
Qed.

Lemma betOf_columns (ps ps' : list Crash.Player) :
  map CrashRun.betOf ps' = map CrashRun.betOf ps ->
  map Crash.publicId ps' = map Crash.publicId ps
  /\ map Crash.txId ps' = map Crash.txId ps
  /\ forallb CrashRun.validBet ps' = forallb CrashRun.validBet ps.
Proof.
  revert ps'. induction ps as [|p ps IH]; intros [|p' ps'] H;
    try discriminate H; [repeat split|].
  cbn [map] in H. injection H as Hid Htx Hbet Htarget Hps.
  destruct (IH ps' Hps) as [H1 [H2 H3]].
  cbn [map forallb]. rewrite H1, H2, H3, Hid, Htx.
  split; [reflexivity|]. split; [reflexivity|].
  unfold CrashRun.validBet. rewrite Hid, Hbet, Htarget. reflexivity.
Qed.

Lemma tick_players (net : QubicPayout.Network) (m : float) (st : Crash.State)
    (g : Crash.Game) :
  Crash.currentGame st = Some g ->
  exists g',
    Crash.currentGame (Crash.tick net m st) = Some g'
    /\ map CrashRun.betOf (Crash.players g') = map CrashRun.betOf (Crash.players g)
    /\ Crash.publicSeed g' = Crash.publicSeed g
    /\ Crash.privateSeed g' = Crash.privateSeed g
    /\ Crash.privateHash g' = Crash.privateHash g
    /\ Crash.crashPoint (Crash.tick net m st) = Crash.crashPoint st
    /\ ((Crash.gameStatus g' = Crash.gameStatus g
         /\ Crash.revealedCrashPoint g' = Crash.revealedCrashPoint g)
        \/ (Crash.gameStatus g' = Crash.Over
            /\ Crash.revealedCrashPoint g' = Some (Crash.crashPoint st))).
Proof.
  intros Hg. unfold Crash.tick. rewrite Hg.
  pose proof (autoCashout_betOf net m (Crash.players g) (Crash.transfers st)) as Hb.
  destruct (Crash.autoCashout net m (Crash.players g) (Crash.transfers st))
    as [ps log].
  cbn [fst] in Hb.
  destruct (PrimFloat.leb (Crash.crashPoint st) m).
  - unfold Crash.endRound.
    cbn [Crash.currentGame Crash.withPlayers Crash.players Crash.gameId
         Crash.publicSeed Crash.privateSeed Crash.privateHash Crash.crashPoint].
    eexists. split; [reflexivity|].
    cbn [Crash.players Crash.publicSeed Crash.privateSeed Crash.privateHash
         Crash.gameStatus Crash.revealedCrashPoint].
    rewrite markLost_betOf, Hb. repeat split. right. split; reflexivity.
  - cbn [Crash.currentGame Crash.crashPoint]. eexists. split; [reflexivity|].
    unfold Crash.withPlayers.
    cbn [Crash.players Crash.publicSeed Crash.privateSeed Crash.privateHash
         Crash.gameStatus Crash.revealedCrashPoint].
    rewrite Hb. repeat split. left. split; reflexivity.
Qed.

Lemma betCashout_players (net : QubicPayout.Network) (socket : Crash.Socket)
    (st : Crash.State) (g : Crash.Game) :
  Crash.currentGame st = Some g ->
  exists g',
    Crash.currentGame (fst (CrashRun.betCashout net socket st)) = Some g'
    /\ map CrashRun.betOf (Crash.players g') = map CrashRun.betOf (Crash.players g)
    /\ Crash.publicSeed g' = Crash.publicSeed g
    /\ Crash.privateSeed g' = Crash.privateSeed g
    /\ Crash.privateHash g' = Crash.privateHash g
    /\ Crash.gameStatus g' = Crash.gameStatus g
    /\ Crash.revealedCrashPoint g' = Crash.revealedCrashPoint g
    /\ Crash.crashPoint (fst (CrashRun.betCashout net socket st))
       = Crash.crashPoint st.
Proof.
  intros Hg. unfold CrashRun.betCashout. rewrite Hg.
  assert (Hsame : exists g', Some g = Some g'
            /\ map CrashRun.betOf (Crash.players g') = map CrashRun.betOf (Crash.players g)
            /\ Crash.publicSeed g' = Crash.publicSeed g
            /\ Crash.privateSeed g' = Crash.privateSeed g
            /\ Crash.privateHash g' = Crash.privateHash g
            /\ Crash.gameStatus g' = Crash.gameStatus g
            /\ Crash.revealedCrashPoint g' = Crash.revealedCrashPoint g
            /\ Crash.crashPoint st = Crash.crashPoint st)
    by (exists g; repeat split).
  destruct (Crash.gameStatus g) eqn:Hst; cbn [fst]; rewrite ?Hg;
    try exact Hsame.
  destruct (negb (Js.truthyString _)); cbn [fst]; rewrite ?Hg; [exact Hsame|].
  destruct (find _ (Crash.players g)) as [p|] eqn:Hfind; cbn [fst]; rewrite ?Hg;
    [|exact Hsame].
  destruct (negb (Crash.isBet p)); cbn [fst]; rewrite ?Hg; [exact Hsame|].
  destruct (PrimFloat.leb (Crash.crashPoint st) (Crash.currentPayout st));
    cbn [fst]; rewrite ?Hg; [exact Hsame|].
  cbv zeta.
  destruct (PrimFloat.ltb 0 _);
    [destruct (QubicPayout.payFromCasinoToUser _ _ _ _)|];
    cbn [fst CrashRun.withGame Crash.currentGame Crash.crashPoint];
    eexists; (split; [reflexivity|]);
    unfold Crash.withPlayers;
    cbn [Crash.players Crash.publicSeed Crash.privateSeed Crash.privateHash
         Crash.gameStatus Crash.revealedCrashPoint];
    (erewrite (replaceFirst_betOf _ p); [|reflexivity | exact Hfind]);
    repeat split; exact Hst.
Qed.

Lemma joinGame_players (socket : Crash.Socket) (payload : option Crash.Payload)
    (idBytes : list Z) (st : Crash.State) (g : Crash.Game) :
  Crash.currentGame st = Some g ->
  fst (Crash.joinGame socket payload idBytes st) = st
  \/ exists player,
       fst (Crash.joinGame socket payload idBytes st)
       = Crash.mkState
           (Some (Crash.withPlayers g (Crash.players g ++ [player])))
           (Crash.history st) (Crash.ticking st) (Crash.currentPayout st)
           (Crash.crashPoint st) (Crash.transfers st)
       /\ Crash.gameStatus g = Crash.Starting
       /\ CrashRun.validBet player = true
       /\ ~ In (Crash.publicId player) (map Crash.publicId (Crash.players g))
       /\ ~ In (Crash.txId player) (map Crash.txId (Crash.players g)).
Proof.
  intros Hg. unfold Crash.joinGame. rewrite Hg.
  destruct (Crash.gameStatus g) eqn:Hst; try (left; reflexivity).
  destruct payload as [pl|]; [|left; reflexivity].
  destruct (Crash.p_txId pl) as [tx|]; [|left; reflexivity].
  destruct (negb (Js.truthyString tx)); [left; reflexivity|].
  destruct (JsNumber.isFinite (Crash.p_target pl / 100)) eqn:Hft;
    cbn [negb orb]; [|left; reflexivity].
  destruct (PrimFloat.ltb (Crash.p_target pl / 100) 1.01) eqn:Hlt;
    [left; reflexivity|].
  destruct (JsNumber.isFinite (Crash.p_betAmount pl)) eqn:Hfb;
    cbn [negb orb]; [|left; reflexivity].
  destruct (PrimFloat.leb (Crash.p_betAmount pl) 0) eqn:Hle;
    [left; reflexivity|].
  destruct (Js.truthyString (Crash.normalizeWalletId (Crash.wallet socket)))
    eqn:Hw; cbn [negb]; [|left; reflexivity].
  destruct (existsb _ (Crash.players g)) eqn:Hdup1; [left; reflexivity|].
  destruct (existsb _ (Crash.players g)) eqn:Hdup2 in |- *; [left; reflexivity|].
  right. eexists. split; [reflexivity|]. split; [reflexivity|].
  split.
  { unfold CrashRun.validBet.
    cbn [Crash.target Crash.betAmount Crash.publicId].
    rewrite Hft, Hlt, Hfb, Hle, Hw. reflexivity. }
  split.
  { cbn [Crash.publicId]. intros Hin. apply in_map_iff in Hin.
    destruct Hin as [x [Hx Hin]].
    assert (Hex : existsb
              (fun p => (Crash.publicId p
                         =? Crash.normalizeWalletId (Crash.wallet socket))%string)
              (Crash.players g) = true).
    { apply existsb_exists. exists x. split; [exact Hin|].
      rewrite Hx. apply String.eqb_refl. }
    rewrite Hex in Hdup1. discriminate Hdup1. }
  cbn [Crash.txId]. intros Hin. apply in_map_iff in Hin.
  destruct Hin as [x [Hx Hin]].
  assert (Hex : existsb (fun p => (Crash.txId p =? tx)%string) (Crash.players g)
                = true).
  { apply existsb_exists. exists x. split; [exact Hin|].
    rewrite Hx. apply String.eqb_refl. }
  rewrite Hex in Hdup2. discriminate Hdup2.
Qed.

Lemma createNewRound_game (publicBytes privateBytes idBytes : list Z)
    (st : Crash.State) :
  Crash.createNewRound publicBytes privateBytes idBytes st = st
  \/ exists cp,
       CrashPoint.crashPointFromSeeds (hexOfBytes publicBytes)
                                      (hexOfBytes privateBytes) = Some cp
       /\ Crash.createNewRound publicBytes privateBytes idBytes st
          = Crash.mkState
              (Some (Crash.mkGame (hexOfBytes idBytes) Crash.Starting None
                       (hexOfBytes publicBytes) (hexOfBytes privateBytes)
                       (hexOfBytes (Sha256.sha256
                                      (bytesOfString (hexOfBytes privateBytes))))
                       []))
              (Crash.history st) false 1 cp (Crash.transfers st).
Proof.
  unfold Crash.createNewRound. cbv zeta.
  destruct (CrashPoint.crashPointFromSeeds _ _) as [cp|]; [|left; reflexivity].
  right. exists cp. split; reflexivity.
Qed.

Lemma step_committed (net : QubicPayout.Network) (st : Crash.State)
    (e : CrashRun.Event) :
  CrashRun.committed st -> CrashRun.committed (CrashRun.step net st e).
Proof.
  intros Hinv. destruct e as [pb vb ib | socket payload ib | | m | socket];
    cbn [CrashRun.step].
  - destruct (createNewRound_game pb vb ib st) as [-> | [cp [Hcp ->]]];
      [exact Hinv|].
    unfold CrashRun.committed.
    cbn [Crash.currentGame Crash.publicSeed Crash.privateSeed Crash.privateHash
         Crash.crashPoint Crash.gameStatus].
    split; [exact Hcp|]. split; [reflexivity | discriminate].
  - unfold CrashRun.committed in *.
    destruct (Crash.currentGame st) as [g|] eqn:Hg.
    + destruct (joinGame_players socket payload ib st g Hg)
        as [-> | [player [-> [Hst _]]]]; [rewrite Hg; exact Hinv|].
      cbn [Crash.currentGame Crash.crashPoint]. unfold Crash.withPlayers.
      cbn [Crash.publicSeed Crash.privateSeed Crash.privateHash
           Crash.gameStatus Crash.revealedCrashPoint].
      destruct Hinv as [H1 [H2 H3]]. split; [exact H1|]. split; [exact H2|].
      rewrite Hst. discriminate.
    + unfold Crash.joinGame. rewrite Hg. cbn [fst]. rewrite Hg. exact I.
  - unfold CrashRun.committed, Crash.startRound in *.
    destruct (Crash.currentGame st) as [g|] eqn:Hg; [|rewrite Hg; exact I].
    destruct (Crash.players g); [rewrite Hg; exact Hinv|].
    cbn [Crash.currentGame Crash.publicSeed Crash.privateSeed Crash.privateHash
         Crash.crashPoint Crash.gameStatus].
    destruct Hinv as [H1 [H2 _]]. split; [exact H1|]. split; [exact H2|].
    discriminate.
  - destruct (Crash.ticking st); [|exact Hinv].
    unfold CrashRun.committed in *.
    destruct (Crash.currentGame st) as [g|] eqn:Hg.
    + destruct (tick_players net m st g Hg)
        as [g' [Hg' [_ [Hpub [Hpriv [Hhash [Hcp Hstatus]]]]]]].
      rewrite Hg', Hpub, Hpriv, Hhash, Hcp.
      destruct Hinv as [H1 [H2 H3]]. split; [exact H1|]. split; [exact H2|].
      destruct Hstatus as [[Hs Hr] | [_ Hr]]; [|intros _; exact Hr].
      rewrite Hs, Hr. exact H3.
    + unfold Crash.tick. rewrite Hg, Hg. exact I.
  - unfold CrashRun.committed in *.
    destruct (Crash.currentGame st) as [g|] eqn:Hg.
    + destruct (betCashout_players net socket st g Hg)
        as [g' [Hg' [_ [Hpub [Hpriv [Hhash [Hs [Hr Hcp]]]]]]]].
      rewrite Hg', Hpub, Hpriv, Hhash, Hcp, Hs, Hr. exact Hinv.
    + unfold CrashRun.betCashout. rewrite Hg. cbn [fst]. rewrite Hg. exact I.
Qed.

Lemma run_committed (net : QubicPayout.Network) (events : list CrashRun.Event) :
  forall st, CrashRun.committed st ->
             CrashRun.committed (CrashRun.run net events st).
Proof.
  unfold CrashRun.run. induction events as [|e events IH]; intros st Hinv;
    cbn [fold_left]; [exact Hinv|].
  apply IH. apply step_committed. exact Hinv.
Qed.

Lemma step_soundBets (net : QubicPayout.Network) (st : Crash.State)
    (e : CrashRun.Event) :
  CrashRun.soundBets st -> CrashRun.soundBets (CrashRun.step net st e).
Proof.
  intros Hinv. destruct e as [pb vb ib | socket payload ib | | m | socket];
    cbn [CrashRun.step].
  - destruct (createNewRound_game pb vb ib st) as [-> | [cp [_ ->]]];
      [exact Hinv|].
    unfold CrashRun.soundBets. cbn [Crash.currentGame Crash.players map forallb].
    split; [constructor|]. split; [constructor | reflexivity].
  - unfold CrashRun.soundBets in *.
    destruct (Crash.currentGame st) as [g|] eqn:Hg.
    + destruct (joinGame_players socket payload ib st g Hg)
        as [-> | [player [-> [_ [Hvalid [Hid Htx]]]]]]; [rewrite Hg; exact Hinv|].
      cbn [Crash.currentGame]. unfold Crash.withPlayers. cbn [Crash.players].
      destruct Hinv as [H1 [H2 H3]].
      rewrite !map_app, forallb_app. cbn [map forallb].
      rewrite H3, Hvalid.
      split.
      { apply NoDup_app; [exact H1 | repeat constructor; intros [] |].
        intros x Hin [Hx | []]. subst x. contradiction. }
      split; [|reflexivity].
      apply NoDup_app; [exact H2 | repeat constructor; intros [] |].
      intros x Hin [Hx | []]. subst x. contradiction.
    + unfold Crash.joinGame. rewrite Hg. cbn [fst]. rewrite Hg. exact I.
  - unfold CrashRun.soundBets, Crash.startRound in *.
    destruct (Crash.currentGame st) as [g|] eqn:Hg; [|rewrite Hg; exact I].
    destruct (Crash.players g) eqn:Hps; [rewrite Hg; rewrite ?Hps; exact Hinv|].
    cbn [Crash.currentGame Crash.players]. rewrite ?Hps. exact Hinv.
  - destruct (Crash.ticking st); [|exact Hinv].
    unfold CrashRun.soundBets in *.
    destruct (Crash.currentGame st) as [g|] eqn:Hg.
    + destruct (tick_players net m st g Hg) as [g' [Hg' [Hbets _]]].
      rewrite Hg'. destruct (betOf_columns _ _ Hbets) as [H1 [H2 H3]].
      rewrite H1, H2, H3. exact Hinv.
    + unfold Crash.tick. rewrite Hg, Hg. exact I.
  - unfold CrashRun.soundBets in *.
    destruct (Crash.currentGame st) as [g|] eqn:Hg.
    + destruct (betCashout_players net socket st g Hg) as [g' [Hg' [Hbets _]]].
      rewrite Hg'. destruct (betOf_columns _ _ Hbets) as [H1 [H2 H3]].
      rewrite H1, H2, H3. exact Hinv.
    + unfold CrashRun.betCashout. rewrite Hg. cbn [fst]. rewrite Hg. exact I.
Qed.

Lemma run_soundBets (net : QubicPayout.Network) (events : list CrashRun.Event) :
  forall st, CrashRun.soundBets st ->
             CrashRun.soundBets (CrashRun.run net events st).
Proof.
  unfold CrashRun.run. induction events as [|e events IH]; intros st Hinv;
    cbn [fold_left]; [exact Hinv|].
  apply IH. apply step_soundBets. exact Hinv.
Qed.



(** X14: the bets of a Crash round are sound.  Whatever happens in the
    namespace, the players of the current round have distinct wallets and
    distinct transaction ids, and each has a non-empty wallet, a finite
    target of at least 1.01 and a finite positive stake. *)
Theorem crash_round_bets_sound (net : QubicPayout.Network)
    (events : list CrashRun.Event) (g : Crash.Game) :
  Crash.currentGame (CrashRun.run net events Crash.initialState) = Some g ->
  NoDup (map Crash.publicId (Crash.players g))
  /\ NoDup (map Crash.txId (Crash.players g))
  /\ forallb CrashRun.validBet (Crash.players g) = true.
Proof.
  intros Hg.
  pose proof (run_soundBets net events Crash.initialState I) as Hinv.
  unfold CrashRun.soundBets in Hinv. rewrite Hg in Hinv. exact Hinv.
Qed.

Lemma crash_round_bets_sound_witness :
  exists g,
    Crash.currentGame (CrashRun.run networkUp crashEvents Crash.initialState)
    = Some g
    /\ NoDup (map Crash.publicId (Crash.players g)).
Proof.
  destruct (Crash.currentGame
              (CrashRun.run networkUp crashEvents Crash.initialState))
    as [g|] eqn:Hg; [|vm_compute in Hg; discriminate Hg].
  exists g. split; [reflexivity|].
  exact (proj1 (crash_round_bets_sound networkUp crashEvents g Hg)).
Defined.

(** ** The manual cashout *)

Lemma replaceFirst_other (pred : Crash.Player -> bool) (p' q : Crash.Player) :
  forall ps i p,
    find pred ps = Some q ->
    Crash.isBet q = true ->
    nth_error ps i = Some p ->
    Crash.isBet p = false ->
    nth_error (CrashRun.replaceFirst pred p' ps) i = Some p.
Proof.
  induction ps as [|x ps IH]; intros i p Hfind Hq Hnth Hp;
    [destruct i; discriminate Hnth|].
  cbn [find CrashRun.replaceFirst] in *.
  destruct (pred x).
  - injection Hfind as ->. destruct i as [|i]; cbn [nth_error] in *.
    + injection Hnth as ->. rewrite Hq in Hp. discriminate Hp.
    + exact Hnth.
  - destruct i as [|i]; cbn [nth_error] in *; [exact Hnth|].
    exact (IH i p Hfind Hq Hnth Hp).
Qed.

Lemma find_replaceFirst (pred : Crash.Player -> bool) (p' : Crash.Player) :
  pred p' = true ->
  forall ps p, find pred ps = Some p ->
               find pred (CrashRun.replaceFirst pred p' ps) = Some p'.
Proof.
  intros Hp'. induction ps as [|x ps IH]; intros p Hfind; [discriminate Hfind|].
  cbn [find CrashRun.replaceFirst] in *.
  destruct (pred x) eqn:Hx.
  - cbn [find]. rewrite Hp'. reflexivity.
  - cbn [find]. rewrite Hx. exact (IH p Hfind).
Qed.





(** ** Players that are settled *)

Lemma isBet_false (p : Crash.Player) :
  Crash.status p <> Crash.Bet -> Crash.isBet p = false.
Proof.
  unfold Crash.isBet. destruct (Crash.status p); [contradiction | | ]; reflexivity.
Qed.

Lemma step_settled_player (net : QubicPayout.Network) (st : Crash.State)
    (e : CrashRun.Event) (g : Crash.Game) (i : nat) (p : Crash.Player) :
  CrashRun.sameRound e = true ->
  Crash.currentGame st = Some g ->
  nth_error (Crash.players g) i = Some p ->
  Crash.status p <> Crash.Bet ->
  exists g',
    Crash.currentGame (CrashRun.step net st e) = Some g'
    /\ nth_error (Crash.players g') i = Some p.
Proof.
  intros He Hg Hnth Hp.
  destruct e as [pb vb ib | socket payload ib | | m | socket];
    cbn [CrashRun.step]; [discriminate He| | | |].
  - destruct (joinGame_players socket payload ib st g Hg)
      as [-> | [player [-> _]]]; [exists g; split; assumption|].
    cbn [Crash.currentGame]. eexists. split; [reflexivity|].
    unfold Crash.withPlayers. cbn [Crash.players].
    rewrite nth_error_app1; [exact Hnth|].
    apply nth_error_Some. rewrite Hnth. discriminate.
  - unfold Crash.startRound. rewrite Hg.
    destruct (Crash.players g) eqn:Hps.
    + exists g. split; [exact Hg|]. rewrite Hps. exact Hnth.
    + cbn [Crash.currentGame]. eexists. split; [reflexivity|].
      cbn [Crash.players]. exact Hnth.
  - destruct (Crash.ticking st); [|exists g; split; assumption].
    unfold Crash.tick. rewrite Hg.
    destruct (autoCashout_nth net m (Crash.players g) (Crash.transfers st) i p Hnth)
      as [log_i Hi].
    rewrite (autoCashoutPlayer_settled net m p log_i (isBet_false p Hp)) in Hi.
    destruct (Crash.autoCashout net m (Crash.players g) (Crash.transfers st))
      as [ps log].
    cbn [fst] in Hi.
    destruct (PrimFloat.leb (Crash.crashPoint st) m).
    + unfold Crash.endRound. cbn [Crash.currentGame Crash.withPlayers Crash.players].
      eexists. split; [reflexivity|]. cbn [Crash.players].
      rewrite nth_error_map, Hi. cbn [option_map].
      rewrite (markLost_not_bet p Hp). reflexivity.
    + cbn [Crash.currentGame]. eexists. split; [reflexivity|].
      unfold Crash.withPlayers. cbn [Crash.players]. exact Hi.
  - unfold CrashRun.betCashout. rewrite Hg.
    destruct (Crash.gameStatus g); cbn [fst];
      try (exists g; split; assumption).
    destruct (negb (Js.truthyString _)); cbn [fst];
      [exists g; split; assumption|].
    destruct (find _ (Crash.players g)) as [q|] eqn:Hfind; cbn [fst];
      [|exists g; split; assumption].
    destruct (negb (Crash.isBet q)) eqn:Hq; cbn [fst];
      [exists g; split; assumption|].
    apply negb_false_iff in Hq.
    destruct (PrimFloat.leb (Crash.crashPoint st) (Crash.currentPayout st));
      cbn [fst]; [exists g; split; assumption|].
    cbv zeta.
    destruct (PrimFloat.ltb 0 _);
      [destruct (QubicPayout.payFromCasinoToUser _ _ _ _)|];
      cbn [fst CrashRun.withGame Crash.currentGame];
      eexists; (split; [reflexivity|]);
      unfold Crash.withPlayers; cbn [Crash.players];
      exact (replaceFirst_other _ _ q _ i p Hfind Hq Hnth (isBet_false p Hp)).
Qed.

Lemma run_settled_player (net : QubicPayout.Network) (events : list CrashRun.Event)
    (i : nat) (p : Crash.Player) :
  Crash.status p <> Crash.Bet ->
  forallb CrashRun.sameRound events = true ->
  forall st g,
    Crash.currentGame st = Some g ->
    nth_error (Crash.players g) i = Some p ->
    exists g',
      Crash.currentGame (CrashRun.run net events st) = Some g'
      /\ nth_error (Crash.players g') i = Some p.
Proof.
  intros Hp. unfold CrashRun.run.
  induction events as [|e events IH]; intros Hall st g Hg Hnth; cbn [fold_left].
  - exists g. split; assumption.
  - cbn [forallb] in Hall. apply andb_prop in Hall. destruct Hall as [He Hall].
    destruct (step_settled_player net st e g i p He Hg Hnth Hp) as [g1 [Hg1 Hn1]].
    exact (IH Hall _ g1 Hg1 Hn1).
Qed.





(** ** The Slide round *)

Lemma payPlayers_transfers (net : QubicPayout.Network) (cp : float) :
  forall ps log,
    snd (Slide.payPlayers net cp ps log)
    = log ++ map SlideRun.transferOf (filter (SlideRun.eligible cp) ps).
Proof.
  induction ps as [|p ps IH]; intros log; cbn [Slide.payPlayers filter map].
  - cbn [snd]. rewrite app_nil_r. reflexivity.
  - pose proof (IH (snd (Slide.payPlayer net cp p log))) as Hrest.
    assert (Hp : snd (Slide.payPlayer net cp p log)
                 = log ++ (if SlideRun.eligible cp p
                           then [SlideRun.transferOf p] else [])).
    { unfold Slide.payPlayer, SlideRun.eligible, SlideRun.transferOf.
      destruct (Slide.isPlaying p && Js.truthyString (Slide.publicId p));
        cbn [andb snd]; [|rewrite app_nil_r; reflexivity].
      destruct (PrimFloat.leb (Slide.target p) cp);
        cbn [andb snd]; [|rewrite app_nil_r; reflexivity].
      destruct (PrimFloat.ltb 0 _);
        cbn [snd]; [|rewrite app_nil_r; reflexivity].
      destruct (QubicPayout.payFromCasinoToUser _ _ _ _); reflexivity. }
    destruct (Slide.payPlayer net cp p log) as [p1 log1].
    cbn [snd] in Hrest, Hp.
    destruct (Slide.payPlayers net cp ps log1) as [rest1 log2].
    cbn [snd] in *. rewrite Hrest, Hp.
    destruct (SlideRun.eligible cp p); cbn [map];
      rewrite <- app_assoc; reflexivity.
Qed.

(** X19: the transfers of a Slide round.  The payout loop requests exactly
    one transfer for each player that is playing, has a wallet, has a
    target at most the crash point and a positive [floor(stake * target)],
    in the order of the players, to that player's wallet and of that
    amount; it requests no other transfer, with any network, and keeps the
    used tokens. *)
Theorem slide_round_transfers (net : QubicPayout.Network) (st : Slide.State)
    (g : Slide.Game) :
  Slide.currentGame st = Some g ->
  Slide.transfers (Slide.finishRound net st)
  = Slide.transfers st
    ++ map SlideRun.transferOf
         (filter (SlideRun.eligible (Slide.crashPoint g)) (Slide.players g))
  /\ Slide.usedTxIds (Slide.finishRound net st) = Slide.usedTxIds st.
Proof.
  intros Hg. unfold Slide.finishRound. rewrite Hg.
  pose proof (payPlayers_transfers net (Slide.crashPoint g) (Slide.players g)
                (Slide.transfers st)) as Hlog.
  destruct (Slide.payPlayers net (Slide.crashPoint g) (Slide.players g)
              (Slide.transfers st)) as [ps log].
  cbn [snd] in Hlog. cbn [Slide.transfers Slide.usedTxIds].
  split; [exact Hlog | reflexivity].
Qed.

Lemma slide_round_transfers_witness :
  Slide.transfers (Slide.finishRound networkDown slideJoined)
  = [Slide.mkTransfer walletA 200%float].
Proof.
  destruct (Slide.currentGame slideJoined) as [g|] eqn:Hg;
    [|vm_compute in Hg; discriminate Hg].
  rewrite (proj1 (slide_round_transfers networkDown slideJoined g Hg)).
  vm_compute in Hg. injection Hg as <-. vm_compute. reflexivity.
Defined.

(** X20: the outcome of a Slide round for a player that is playing, with a
    wallet: the round ends WAITTING; the player has won, with the amount
    [floor(stake * target)] exactly and the id of the transfer, only if its
    target is at most the crash point; else it has lost, with amount 0; and
    it has lost whenever its target is above the crash point. *)
Theorem slide_round_outcome (net : QubicPayout.Network) (st : Slide.State)
    (g : Slide.Game) (i : nat) (p : Slide.Player) :
  Slide.currentGame st = Some g ->
  nth_error (Slide.players g) i = Some p ->
  Slide.status p = Slide.Playing ->
  Js.truthyString (Slide.publicId p) = true ->
  exists g' p',
    Slide.currentGame (Slide.finishRound net st) = Some g'
    /\ Slide.gameStatus g' = Slide.WAITTING
    /\ Slide.crashPoint g' = Slide.crashPoint g
    /\ nth_error (Slide.players g') i = Some p'
    /\ SlideRun.betOf p' = SlideRun.betOf p
    /\ ((Slide.status p' = Slide.Won
         /\ PrimFloat.leb (Slide.target p) (Slide.crashPoint g) = true
         /\ Slide.winAmount p'
            = Some (JsNumber.floor (Slide.betAmount p * Slide.target p)%float)
         /\ exists tx, Slide.payoutTxId p' = Some tx)
        \/ (Slide.status p' = Slide.Lost
            /\ Slide.winAmount p' = Some 0%float
            /\ Slide.payoutTxId p' = Slide.payoutTxId p))
    /\ (PrimFloat.leb (Slide.target p) (Slide.crashPoint g) = false ->
        Slide.status p' = Slide.Lost).
Proof.
  intros Hg Hnth Hplaying Hid.
  unfold Slide.finishRound. rewrite Hg.
  destruct (payPlayers_nth net (Slide.crashPoint g) (Slide.players g)
              (Slide.transfers st) i p Hnth) as [log_i Hi].
  destruct (Slide.payPlayers net (Slide.crashPoint g) (Slide.players g)
              (Slide.transfers st)) as [ps log].
  cbn [fst] in Hi.
  eexists. eexists. split; [reflexivity|].
  cbn [Slide.gameStatus Slide.crashPoint Slide.players].
  split; [reflexivity|]. split; [reflexivity|]. split; [exact Hi|].
  unfold Slide.payPlayer, Slide.isPlaying. rewrite Hplaying, Hid. cbn [andb].
  destruct (PrimFloat.leb (Slide.target p) (Slide.crashPoint g)) eqn:Hle.
  - destruct (PrimFloat.ltb 0 _).
    + destruct (QubicPayout.payFromCasinoToUser _ _ _ _) as [e | receipt];
        cbn [fst]; (split; [reflexivity|]); (split; [|discriminate]).
      * right. repeat split.
      * left. split; [reflexivity|]. split; [reflexivity|].
        split; [reflexivity|]. eexists. reflexivity.
    + cbn [fst]. split; [reflexivity|]. split; [|discriminate].
      right. repeat split.
  - cbn [fst]. split; [reflexivity|]. split; [|intros _; reflexivity].
    right. repeat split.
Qed.

Lemma slide_round_outcome_witness :
  exists g' p',
    Slide.currentGame (Slide.finishRound networkUp slideJoined) = Some g'
    /\ nth_error (Slide.players g') 0 = Some p'
    /\ (Slide.status p' = Slide.Won \/ Slide.status p' = Slide.Lost).
Proof.
  destruct (Slide.currentGame slideJoined) as [g|] eqn:Hg;
    [|vm_compute in Hg; discriminate Hg].
  destruct (nth_error (Slide.players g) 0) as [p|] eqn:Hp.
  2:{ vm_compute in Hg. injection Hg as <-. discriminate Hp. }
  assert (Hfacts : Slide.status p = Slide.Playing
                   /\ Js.truthyString (Slide.publicId p) = true).
  { vm_compute in Hg. injection Hg as <-. cbn in Hp. injection Hp as <-.
    split; reflexivity. }
  destruct (slide_round_outcome networkUp slideJoined g 0 p Hg Hp
              (proj1 Hfacts) (proj2 Hfacts))
    as [g' [p' [Hg' [_ [_ [Hp' [_ [[[Hs _] | [Hs _]] _]]]]]]]];
    exists g', p'; (split; [exact Hg'|]); (split; [exact Hp'|]);
    [left | right]; exact Hs.
Defined.

(** ** Replay of a token in Slide *)

Lemma slide_step_usedTxIds (net : QubicPayout.Network) (st : Slide.State)
    (e : SlideRun.Event) (token : string) :
  In token (Slide.usedTxIds st) ->
  In token (Slide.usedTxIds (SlideRun.step net st e)).
Proof.
  intros Hin. destruct e as [cp | s | | | socket payload]; cbn [SlideRun.step].
  - exact Hin.
  - destruct (Slide.currentGame st); exact Hin.
  - unfold Slide.finishRound. destruct (Slide.currentGame st) as [g|]; [|exact Hin].
    destruct (Slide.payPlayers _ _ _ _). exact Hin.
  - exact Hin.
  - unfold Slide.joinGame.
    repeat match goal with
           | |- In token (Slide.usedTxIds (fst (match ?x with _ => _ end))) =>
               destruct x
           | |- In token (Slide.usedTxIds (fst (if ?x then _ else _))) =>
               destruct x
           end;
      cbn [fst Slide.usedTxIds]; try exact Hin.
    right. exact Hin.
Qed.

Lemma slide_run_usedTxIds (net : QubicPayout.Network)
    (events : list SlideRun.Event) (token : string) :
  forall st, In token (Slide.usedTxIds st) ->
             In token (Slide.usedTxIds (SlideRun.run net events st)).
Proof.
  unfold SlideRun.run. induction events as [|e events IH]; intros st Hin;
    cbn [fold_left]; [exact Hin|].
  apply IH. apply slide_step_usedTxIds. exact Hin.
Qed.

Lemma slide_join_token (socket : Slide.Socket) (payload : option Slide.Payload)
    (st : Slide.State) (player : Slide.Player) :
  snd (Slide.joinGame socket payload st) = Slide.JoinSuccess player ->
  In (Slide.txId player) (Slide.usedTxIds (fst (Slide.joinGame socket payload st)))
  /\ ~ In (Slide.txId player) (Slide.usedTxIds st).
Proof.
  unfold Slide.joinGame.
  destruct (Slide.currentGame st) as [g|]; [|discriminate].
  destruct (Slide.gameStatus g); try discriminate.
  destruct payload as [pl|]; [|discriminate].
  destruct (Slide.p_txId pl) as [tx|]; [|discriminate].
  destruct (negb (Js.truthyString tx)); [discriminate|].
  destruct (negb (Js.truthyString _)); [discriminate|].
  destruct (negb (JsNumber.isFinite _) || PrimFloat.leb _ 0); [discriminate|].
  destruct (negb (JsNumber.isFinite _) || PrimFloat.leb _ 0); [discriminate|].
  destruct (existsb _ (Slide.players g)); [discriminate|].
  destruct (existsb _ (Slide.players g)); [discriminate|].
  destruct (existsb (String.eqb tx) (Slide.usedTxIds st)) eqn:Hused;
    [discriminate|].
  cbn [fst snd]. intros H. injection H as <-.
  cbn [Slide.txId Slide.usedTxIds]. split; [left; reflexivity|].
  intros Hin.
  assert (Hex : existsb (String.eqb tx) (Slide.usedTxIds st) = true).
  { apply existsb_exists. exists tx. split; [exact Hin | apply String.eqb_refl]. }
  rewrite Hex in Hused. discriminate Hused.
Qed.

Lemma slide_join_used (socket : Slide.Socket) (pl : Slide.Payload)
    (st : Slide.State) (token : string) :
  Slide.p_txId pl = Some token ->
  In token (Slide.usedTxIds st) ->
  fst (Slide.joinGame socket (Some pl) st) = st
  /\ exists message,
       snd (Slide.joinGame socket (Some pl) st) = Slide.JoinError message.
Proof.
  intros Htx Hin. unfold Slide.joinGame.
  destruct (Slide.currentGame st) as [g|]; [|split; [reflexivity | eexists; reflexivity]].
  destruct (Slide.gameStatus g); try (split; [reflexivity | eexists; reflexivity]).
  rewrite Htx.
  destruct (negb (Js.truthyString token));
    [split; [reflexivity | eexists; reflexivity]|].
  destruct (negb (Js.truthyString _));
    [split; [reflexivity | eexists; reflexivity]|].
  destruct (negb (JsNumber.isFinite _) || PrimFloat.leb _ 0);
    [split; [reflexivity | eexists; reflexivity]|].
  destruct (negb (JsNumber.isFinite _) || PrimFloat.leb _ 0);
    [split; [reflexivity | eexists; reflexivity]|].
  destruct (existsb _ (Slide.players g));
    [split; [reflexivity | eexists; reflexivity]|].
  destruct (existsb _ (Slide.players g));
    [split; [reflexivity | eexists; reflexivity]|].
  assert (Hex : existsb (String.eqb token) (Slide.usedTxIds st) = true).
  { apply existsb_exists. exists token. split; [exact Hin | apply String.eqb_refl]. }
  rewrite Hex. split; [reflexivity | eexists; reflexivity].
Qed.

(** X21: a token is accepted once in Slide.  After a join that succeeded
    with a token, whatever happens next (rounds finished and created, other
    joins, with any network), every join that presents the same token is
    refused and changes nothing, from any socket. *)
Theorem slide_token_single_use (net : QubicPayout.Network)
    (events : list SlideRun.Event) (st : Slide.State)
    (socket socket' : Slide.Socket) (payload : option Slide.Payload)
    (pl' : Slide.Payload) (player : Slide.Player) :
  snd (Slide.joinGame socket payload st) = Slide.JoinSuccess player ->
  Slide.p_txId pl' = Some (Slide.txId player) ->
  let later := SlideRun.run net events (fst (Slide.joinGame socket payload st)) in
  fst (Slide.joinGame socket' (Some pl') later) = later
  /\ exists message,
       snd (Slide.joinGame socket' (Some pl') later) = Slide.JoinError message.
Proof.
  intros Hjoin Htx later.
  apply (slide_join_used socket' pl' later _ Htx).
  apply slide_run_usedTxIds.
  exact (proj1 (slide_join_token socket payload st player Hjoin)).
Qed.

Lemma slide_token_single_use_witness :
  exists message,
    snd (Slide.joinGame slideSocketA (Some slidePayloadA)
           (SlideRun.run networkUp slideLater
              (fst (Slide.joinGame slideSocketA (Some slidePayloadA) slideBetting))))
    = Slide.JoinError message.
Proof.
  destruct (Slide.joinGame slideSocketA (Some slidePayloadA) slideBetting)
    as [st1 [message | player]] eqn:Hjoin;
    [vm_compute in Hjoin; discriminate Hjoin|].
  assert (Hsucc : snd (Slide.joinGame slideSocketA (Some slidePayloadA) slideBetting)
                  = Slide.JoinSuccess player) by (rewrite Hjoin; reflexivity).
  assert (Htx : Slide.p_txId slidePayloadA = Some (Slide.txId player)).
  { vm_compute in Hjoin. injection Hjoin as _ <-. reflexivity. }
  pose proof (slide_token_single_use networkUp slideLater slideBetting
                slideSocketA slideSocketA (Some slidePayloadA) slidePayloadA
                player Hsucc Htx) as H.
  cbv zeta in H. rewrite Hjoin in H. cbn [fst] in H. exact (proj2 H).
Defined.

(** ** The payout calculator on the sessions of the game *)

Lemma sameNumber_eq (a b : float) :
  PayoutTables.sameNumber a b = true -> a = b.
Proof.
  unfold PayoutTables.sameNumber. intros H.
  apply FloatAxioms.Prim2SF_inj.
  destruct (Prim2SF a) as [s | s | | s m e], (Prim2SF b) as [s' | s' | | s' m' e'];
    try discriminate H.
  - apply Bool.eqb_prop in H. rewrite H. reflexivity.
  - apply andb_prop in H. destruct H as [H He].
    apply andb_prop in H. destruct H as [Hs Hm].
    apply Bool.eqb_prop in Hs. apply Pos.eqb_eq in Hm. apply Z.eqb_eq in He.
    rewrite Hs, Hm, He. reflexivity.
Qed.

(** X22: [combination] is exact on the grid: for [n] and [k] from 0 to 25
    the loop, which multiplies and divides doubles, returns the binomial
    coefficient itself, with no rounding error (and 0 when [k] exceeds
    [n]). *)
Theorem combination_exact (n k : Z) :
  0 <= n <= 25 -> 0 <= k <= 25 ->
  MinesPayout.combination (JsNumber.ofZ n) (JsNumber.ofZ k)
  = JsNumber.ofZ (PayoutTables.binomial (Z.to_nat n) (Z.to_nat k)).
Proof.
  intros Hn Hk.
  assert (Htable : PayoutTables.combinationTable = true)
    by (vm_compute; reflexivity).
  unfold PayoutTables.combinationTable in Htable.
  pose proof (forallb_zrange _ _ _ Htable n ltac:(lia)) as Hrow.
  unfold PayoutTables.combinationRow in Hrow.
  apply sameNumber_eq. apply (forallb_zrange _ _ _ Hrow k). lia.
Qed.

Lemma combination_exact_witness :
  MinesPayout.combination 25 5 = 53130%float
  /\ MinesPayout.combination 22 5 = 26334%float
  /\ MinesPayout.combination 3 5 = 0%float.
Proof.
  split; [|split].
  - exact (combination_exact 25 5 ltac:(lia) ltac:(lia)).
  - exact (combination_exact 22 5 ltac:(lia) ltac:(lia)).
  - exact (combination_exact 3 5 ltac:(lia) ltac:(lia)).
Defined.

Lemma multiplier_of_bet (HOUSE_EDGE mines revealedGems betAmount : float) :
  MinesPayout.multiplier
    (MinesPayout.calculateMinesPayout HOUSE_EDGE mines revealedGems betAmount)
  = MinesPayout.multiplier
      (MinesPayout.calculateMinesPayout HOUSE_EDGE mines revealedGems 1).
Proof.
  unfold MinesPayout.calculateMinesPayout.
  destruct (negb (JsNumber.isInteger revealedGems) || PrimFloat.ltb revealedGems 1);
    reflexivity.
Qed.

(** X23: under the default house edge the multiplier rewards risk, for
    every stake: in a session with 1 to 24 mines and [k] revealed safe
    cells it is above 1; it is strictly below the multiplier of one more
    revealed cell, and strictly below the multiplier of the same number of
    cells with one more mine. *)
Theorem multiplier_grows (mines k : Z) (betAmount : float) :
  1 <= mines <= 24 -> 1 <= k <= 25 - mines ->
  let multiplier m r :=
    MinesPayout.multiplier
      (MinesPayout.calculateMinesPayout MinesPayout.HOUSE_EDGE_default
         (JsNumber.ofZ m) (JsNumber.ofZ r) betAmount) in
  PrimFloat.ltb 1 (multiplier mines k) = true
  /\ (k < 25 - mines ->
      PrimFloat.ltb (multiplier mines k) (multiplier mines (k + 1)) = true)
  /\ (k <= 25 - (mines + 1) ->
      PrimFloat.ltb (multiplier mines k) (multiplier (mines + 1) k) = true).
Proof.
  intros Hm Hk. cbv zeta beta. rewrite !(multiplier_of_bet _ _ _ betAmount).
  assert (Htable : PayoutTables.growthTable = true) by (vm_compute; reflexivity).
  unfold PayoutTables.growthTable in Htable.
  pose proof (forallb_zrange _ _ _ Htable mines ltac:(lia)) as Hrow.
  cbv beta in Hrow.
  pose proof (forallb_zrange _ _ _ Hrow k ltac:(lia)) as Hcell.
  unfold PayoutTables.multiplierGrows, PayoutTables.multiplierOf in Hcell.
  apply andb_prop in Hcell. destruct Hcell as [Hcell Hmines].
  apply andb_prop in Hcell. destruct Hcell as [Hone Hnext].
  split; [exact Hone|]. split.
  - intros Hlt. apply orb_prop in Hnext. destruct Hnext as [Hge | Hnext];
      [apply Z.leb_le in Hge; lia | exact Hnext].
  - intros Hle. apply orb_prop in Hmines. destruct Hmines as [Hgt | Hmines];
      [apply Z.ltb_lt in Hgt; lia | exact Hmines].
Qed.

Lemma multiplier_grows_witness :
  PrimFloat.ltb 1
    (MinesPayout.multiplier
       (MinesPayout.calculateMinesPayout MinesPayout.HOUSE_EDGE_default 3 5 1000))
  = true.
Proof.
  exact (proj1 (multiplier_grows 3 5 1000 ltac:(lia) ltac:(lia))).
Defined.

(** ** What the answers disclose *)

Lemma decoded_bombs (minesMask revealedMask : Z) :
  map MineGame.isBomb (MineGame.buildDatasFromMasks minesMask revealedMask)
  = map (MineGame.maskHas minesMask) (zrange 0 25).
Proof.
  unfold MineGame.buildDatasFromMasks. rewrite map_map.
  apply map_ext. intros i. unfold MineGame.isBomb. cbn [MineGame.mine].
  destruct (MineGame.maskHas minesMask i); reflexivity.
Qed.

Lemma decoded_mined (minesMask revealedMask : Z) :
  map MineGame.mined (MineGame.buildDatasFromMasks minesMask revealedMask)
  = map (MineGame.maskHas revealedMask) (zrange 0 25).
Proof.
  unfold MineGame.buildDatasFromMasks. rewrite map_map.
  apply map_ext. intros i. reflexivity.
Qed.

Lemma decoded_points (minesMask revealedMask : Z) :
  map MineGame.point (MineGame.buildDatasFromMasks minesMask revealedMask)
  = zrange 0 25.
Proof.
  unfold MineGame.buildDatasFromMasks. rewrite map_map.
  cbn [MineGame.point]. apply map_id.
Qed.

Lemma setMined_bombs (k : nat) :
  forall cells,
    map MineGame.isBomb (MineRoutes.setMined k cells) = map MineGame.isBomb cells.
Proof.
  induction k as [|k IH]; intros [|c rest]; cbn [MineRoutes.setMined map];
    try reflexivity.
  rewrite IH. reflexivity.
Qed.

(** X24: every answer of [/pick] (and [/reveal]) that carries cells
    discloses the whole layout of the session it names: the 25 cells come
    in the order of their points, and the tag of each one, opened or not,
    tells whether the stored mines mask has a mine there. *)
Theorem pick_answer_carries_layout (req : MinePick.PickRequest)
    (w : MineRoutes.World) (code : Z) (status : string) (gameId : Z)
    (opened : list Z) (hitMine : bool) (cells : list MineGame.Cell) :
  fst (MinePick.pick req w)
  = MinePick.mkPickResponse code
      (MinePick.PickResult status gameId opened hitMine cells) ->
  exists r,
    In r (MineRoutes.rows w)
    /\ MineGame.row_id r = gameId
    /\ map MineGame.point cells = zrange 0 25
    /\ map MineGame.isBomb cells
       = map (MineGame.maskHas (MineGame.mines_mask r)) (zrange 0 25).
Proof.
  unfold_pick. unfold MinePick.pickHandlerBody.
  destruct (MinePick.pickFilters req) as [filters|]; [|cbn; discriminate].
  unfold_pick.
  destruct (MineGame.findOne filters (MineRoutes.rows w)) as [game|] eqn:Hfound;
    [|cbn; discriminate].
  destruct (findOne_In _ _ _ Hfound) as [r [Hin [Hgame _]]].
  assert (Hdatas : MineGame.datas game
                   = MineGame.buildDatasFromMasks (MineGame.mines_mask r)
                                                  (MineGame.revealed_mask r))
    by (rewrite Hgame; reflexivity).
  assert (Hid : MineGame.id game = MineGame.row_id r)
    by (rewrite Hgame; reflexivity).
  destruct (MinePick.requesterValid req && _); [cbn; discriminate|].
  destruct (negb (MineGame.statusEqb (MineGame.status game) MineGame.LIVE));
    [cbn; discriminate|].
  destruct (MinePick.tileIndexOf req) as [tile|]; [|cbn; discriminate].
  destruct (negb (MinePick.validTile tile)); [cbn; discriminate|].
  destruct (MineRoutes.findIndex _ _) as [slotIndex|]; [|cbn; discriminate].
  assert (Hopen : map MineGame.point (MineRoutes.setMined slotIndex (MineGame.datas game))
                  = zrange 0 25
                  /\ map MineGame.isBomb
                       (MineRoutes.setMined slotIndex (MineGame.datas game))
                     = map (MineGame.maskHas (MineGame.mines_mask r)) (zrange 0 25)).
  { rewrite (proj1 (setMined_points _ _)), setMined_bombs, Hdatas.
    split; [apply decoded_points | apply decoded_bombs]. }
  assert (Hclosed : map MineGame.point (MineGame.datas game) = zrange 0 25
                    /\ map MineGame.isBomb (MineGame.datas game)
                       = map (MineGame.maskHas (MineGame.mines_mask r))
                             (zrange 0 25)).
  { rewrite Hdatas. split; [apply decoded_points | apply decoded_bombs]. }
  destruct (MinePick.minedAt _ _).
  { cbn [fst]. intros H. injection H as _ _ <- _ _ <-.
    exists r. split; [exact Hin|]. split; [symmetry; exact Hid | exact Hclosed]. }
  destruct (MinePick.bombAt _ _).
  { cbn [fst]. intros H. injection H as _ _ <- _ _ <-.
    exists r. split; [exact Hin|]. split; [symmetry; exact Hid | exact Hopen]. }
  destruct (forallb _ _); cbn [fst]; intros H; injection H as _ _ <- _ _ <-;
    exists r; (split; [exact Hin|]); (split; [symmetry; exact Hid | exact Hopen]).
Qed.

Lemma pick_answer_carries_layout_witness :
  exists r,
    In r (MineRoutes.rows world1)
    /\ MineGame.row_id r = 1
    /\ map MineGame.isBomb (map (openCell 10) (MineGame.buildDatasFromMasks 7 248))
       = map (MineGame.maskHas (MineGame.mines_mask r)) (zrange 0 25).
Proof.
  destruct (pick_answer_carries_layout pickRequest1 world1 200 "BET" 1
              [3; 4; 5; 6; 7; 10] false
              (map (openCell 10) (MineGame.buildDatasFromMasks 7 248))
              ltac:(vm_compute; reflexivity))
    as [r [Hin [Hid [_ Hbombs]]]].
  exists r. split; [exact Hin|]. split; [exact Hid | exact Hbombs].
Defined.

(** X25: [/status] never writes, and an answer with [success: true] is the
    LIVE, unexpired session of the requester's wallet, with the whole
    layout: the tag of each of the 25 cells, opened or not, tells whether
    the stored mines mask has a mine there. *)
Theorem status_answer (req : MineStatus.StatusRequest) (w : MineRoutes.World) :
  snd (MineStatus.checkStatus req w) = w
  /\ forall cells amount mines gameId,
       MineStatus.statusBody (fst (MineStatus.checkStatus req w))
       = MineStatus.StatusActive cells amount mines gameId ->
       Validation.isValidQubicPublicId (MineStatus.statusRequester req) = true
       /\ exists r expires,
            In r (MineRoutes.rows w)
            /\ MineGame.row_id r = gameId
            /\ MineGame.wallet_public_key r = MineStatus.statusRequester req
            /\ MineGame.row_status r = MineGame.LIVE
            /\ MineGame.expires_at r = Some expires
            /\ MineStatus.status_now req < expires
            /\ MineGame.bet_amount r = amount
            /\ MineGame.mines_count r = mines
            /\ cells = MineGame.buildDatasFromMasks (MineGame.mines_mask r)
                                                    (MineGame.revealed_mask r)
            /\ map MineGame.isBomb cells
               = map (MineGame.maskHas (MineGame.mines_mask r)) (zrange 0 25).
Proof.
  unfold MineStatus.checkStatus, MineStatus.statusHandlerBody,
    MineStatus.statusAnswer.
  cbv beta iota zeta delta
    [MineRoutes.tryCatch MineRoutes.bind MineRoutes.ret MineRoutes.dbFindOne].
  destruct (Validation.isValidQubicPublicId (MineStatus.statusRequester req))
    eqn:Hvalid; cbn [negb].
  2:{ split; [reflexivity|]. cbn. discriminate. }
  destruct (MineGame.findOne _ (MineRoutes.rows w)) as [game|] eqn:Hfound.
  2:{ split; [reflexivity|]. cbn. discriminate. }
  split; [reflexivity|].
  cbn [fst MineStatus.statusBody]. intros cells amount mines gameId H.
  injection H as <- <- <- <-. split; [reflexivity|].
  destruct (findOne_In _ _ _ Hfound) as [r [Hin [Hgame Hmatch]]].
  unfold MineGame.rowMatches in Hmatch.
  cbn [MineGame.f_id MineGame.f_publicKey MineGame.f_status
       MineGame.f_payoutStatus MineGame.f_expiresAfter
       MineGame.optionMatches andb] in Hmatch.
  apply andb_prop in Hmatch. destruct Hmatch as [Hmatch Hexp].
  apply andb_prop in Hmatch. destruct Hmatch as [Hmatch _].
  apply andb_prop in Hmatch. destruct Hmatch as [Hkey Hst].
  apply String.eqb_eq in Hkey.
  destruct (MineGame.expires_at r) as [expires|] eqn:Hexpires;
    [|discriminate Hexp].
  apply Z.ltb_lt in Hexp.
  exists r, expires. rewrite Hgame.
  cbn [MineGame.gameOfRow MineGame.id MineGame.amount MineGame.mines
       MineGame.datas].
  split; [exact Hin|]. split; [reflexivity|]. split; [symmetry; exact Hkey|].
  split; [destruct (MineGame.row_status r); try discriminate Hst; reflexivity|].
  split; [exact Hexpires|]. split; [exact Hexp|].
  split; [reflexivity|]. split; [reflexivity|]. split; [reflexivity|].
  apply decoded_bombs.
Qed.

Lemma status_answer_witness :
  MineStatus.checkStatus statusRequest1 world1
  = (MineStatus.mkStatusResponse 200
       (MineStatus.StatusActive (MineGame.buildDatasFromMasks 7 248) 1000 3 1),
     world1)
  /\ exists r,
       In r (MineRoutes.rows world1)
       /\ map MineGame.isBomb (MineGame.buildDatasFromMasks 7 248)
          = map (MineGame.maskHas (MineGame.mines_mask r)) (zrange 0 25).
Proof.
  split; [vm_compute; reflexivity|].
  destruct (proj2 (status_answer statusRequest1 world1)
              (MineGame.buildDatasFromMasks 7 248) 1000 3 1
              ltac:(vm_compute; reflexivity))
    as [_ [r [expires [Hin [_ [_ [_ [_ [_ [_ [_ [_ Hbombs]]]]]]]]]]]].
  exists r. split; [exact Hin | exact Hbombs].
Defined.

(** ** The functions of [/autobet] *)

Lemma idFilter_byId (gameId : Z) :
  gameId <> 0 -> MineInternal.idFilter gameId = MineSpec.byId gameId.
Proof.
  intros H. unfold MineInternal.idFilter, MineSpec.byId.
  destruct (Z.eqb_spec gameId 0); [contradiction | reflexivity].
Qed.

(** Opening a cell that is open changes nothing. *)
Lemma openCell_opened (minesMask revealedMask t : Z) :
  MineGame.maskHas revealedMask t = true ->
  map (openCell t) (MineGame.buildDatasFromMasks minesMask revealedMask)
  = MineGame.buildDatasFromMasks minesMask revealedMask.
Proof.
  intros Hopen. unfold MineGame.buildDatasFromMasks. rewrite map_map.
  apply map_ext. intros i. unfold openCell. cbn [MineGame.point MineGame.mine].
  destruct (Z.eqb_spec i t) as [-> | Hne]; [|reflexivity].
  rewrite Hopen. reflexivity.
Qed.

Lemma findIndex_decoded (minesMask revealedMask t : Z) (k : nat) :
  MineRoutes.findIndex t (MineGame.buildDatasFromMasks minesMask revealedMask)
  = Some k ->
  0 <= t < 25.
Proof.
  intros H. pose proof (findIndex_spec t
    (MineGame.buildDatasFromMasks minesMask revealedMask)) as Hspec.
  rewrite H in Hspec. destruct Hspec as [c [Hnth Hpoint]].
  apply nth_error_In in Hnth.
  apply (in_map MineGame.point) in Hnth. rewrite decoded_points in Hnth.
  apply zrange_In in Hnth. lia.
Qed.

(** X26: an internal pick stores what it returns.  A pick that throws
    changes nothing.  After a pick that returns, the session found by its
    id has the cells of the result (the layout survives its storage as
    masks), with the cell picked among the opened ones, is ENDED exactly
    when the result says END and LIVE otherwise, and one move is recorded;
    no transfer is requested. *)
Theorem internal_pick_stored (now : Z) (publicId : string) (gameId index : Z)
    (w : MineRoutes.World) :
  gameId <> 0 ->
  match MineInternal.pickMineTileInternal now publicId gameId index w with
  | (inl thrown, w') => w' = w
  | (inr (result, returnedId), w') =>
      returnedId = gameId
      /\ 0 <= index < 25
      /\ (exists game',
            MineGame.findOne (MineSpec.byId gameId) (MineRoutes.rows w')
            = Some game'
            /\ MineGame.datas game' = MinePick.po_datas result
            /\ MineGame.publicKey game' = publicId
            /\ MineGame.status game'
               = (if (MinePick.po_status result =? "END")%string
                  then MineGame.ENDED else MineGame.LIVE)
            /\ MineGame.maskHas (MineGame.revealedMask game') index = true)
      /\ MineRoutes.moves w'
         = MineRoutes.moves w
           ++ [MineRoutes.mkMove gameId index (MinePick.po_hitMine result)]
      /\ MineRoutes.transfers w' = MineRoutes.transfers w
  end.
Proof.
  intros Hnz. unfold MineInternal.pickMineTileInternal.
  rewrite (idFilter_byId _ Hnz).
  destruct (MineGame.findOne (MineSpec.byId gameId) (MineRoutes.rows w))
    as [game|] eqn:Hfound; [|reflexivity].
  destruct (findOne_row _ _ _ Hfound) as [r [Hrow [Hgame Hid]]].
  destruct (String.eqb_spec (MineGame.publicKey game) publicId) as [Hkey | Hkey];
    cbn [negb]; [|reflexivity].
  destruct (MineGame.status game) eqn:Hst; cbn [MineGame.statusEqb negb];
    try reflexivity.
  destruct (match MineGame.expiresAt game with
            | Some t => t <=? now
            | None => false
            end); [reflexivity|].
  assert (Hdatas : MineGame.datas game
                   = MineGame.buildDatasFromMasks (MineGame.mines_mask r)
                                                  (MineGame.revealed_mask r))
    by (rewrite Hgame; reflexivity).
  assert (Hgid : MineGame.id game = gameId) by (rewrite Hgame; exact Hid).
  assert (Hlive : MineGame.row_status r = MineGame.LIVE)
    by (rewrite Hgame in Hst; exact Hst).
  assert (Hkey' : MineGame.wallet_public_key r = publicId)
    by (rewrite Hgame in Hkey; exact Hkey).
  unfold MinePick.applyPickToDatas. rewrite Hdatas.
  destruct (MineRoutes.findIndex index _) as [slotIndex|] eqn:Hidx;
    [|reflexivity].
  pose proof (findIndex_decoded _ _ _ _ Hidx) as Hrange.
  destruct (datas_cell (MineGame.mines_mask r) (MineGame.revealed_mask r)
              index Hrange) as [Hidx' [Hnth Hset]].
  rewrite Hidx' in Hidx. injection Hidx as <-.
  unfold MinePick.minedAt, MinePick.bombAt. rewrite Hnth, Hset.
  cbn [MineGame.mined].
  (* what the table holds after the update of the cells *)
  assert (Hstored : forall st cells,
    cells = map (openCell index)
                (MineGame.buildDatasFromMasks (MineGame.mines_mask r)
                                              (MineGame.revealed_mask r)) ->
    exists game',
      MineGame.findOne (MineSpec.byId gameId)
        (MineGame.findByIdAndUpdate (MineGame.id game)
           (MineGame.mkUpdates st (Some cells) None None None None None)
           (MineRoutes.rows w))
      = Some game'
      /\ MineGame.datas game' = cells
      /\ MineGame.publicKey game' = publicId
      /\ MineGame.status game' = MineGame.orKeep st MineGame.LIVE
      /\ MineGame.maskHas (MineGame.revealedMask game') index = true).
  { intros st cells Hcells. rewrite Hgid. unfold MineGame.findOne.
    rewrite find_findByIdAndUpdate, Hrow. cbn [option_map].
    eexists. split; [reflexivity|].
    cbn [MineGame.gameOfRow MineGame.datas MineGame.publicKey MineGame.status
         MineGame.revealedMask MineGame.applyUpdates MineGame.u_datas
         MineGame.u_status MineGame.mines_mask MineGame.revealed_mask
         MineGame.wallet_public_key MineGame.row_status].
    rewrite Hcells, Hlive.
    split; [apply reopen_decode|]. split; [exact Hkey'|].
    split; [reflexivity|]. apply reopen_bit. exact Hrange. }
  destruct (MineGame.maskHas (MineGame.revealed_mask r) index) eqn:Hopen.
  - (* already opened: the current state is returned, and stored again *)
    cbn [MinePick.po_status MinePick.po_datas MinePick.po_hitMine String.eqb
         Ascii.eqb Bool.eqb fst snd MineRoutes.recordMineMove
         MineRoutes.dbUpdate MineRoutes.rows MineRoutes.moves
         MineRoutes.transfers].
    split; [exact Hgid|]. split; [exact Hrange|].
    split; [|split; [rewrite Hgid; reflexivity | reflexivity]].
    destruct (Hstored None _ (eq_sym (openCell_opened _ _ _ Hopen)))
      as [game' H].
    exists game'. exact H.
  - match goal with
    | |- context [nth_error ?cells (Z.to_nat index)] =>
        assert (Hnth' : nth_error cells (Z.to_nat index)
                        = Some (MineGame.mkCell index
                                  (Some (if MineGame.maskHas (MineGame.mines_mask r) index
                                         then MineGame.BOMB else MineGame.GEM))
                                  true))
    end.
    { rewrite <- Hset. rewrite (setMined_nth _ _ _ Hnth). reflexivity. }
    rewrite Hnth'. unfold MineGame.isBomb at 1. cbn [MineGame.mine].
    destruct (MineGame.maskHas (MineGame.mines_mask r) index).
    + cbn [MinePick.po_status MinePick.po_datas MinePick.po_hitMine
           fst snd MineRoutes.recordMineMove
           MineRoutes.dbUpdate MineRoutes.rows MineRoutes.moves
           MineRoutes.transfers].
      change (("END" =? "END")%string) with true. cbv iota.
      split; [exact Hgid|]. split; [exact Hrange|].
      split; [|split; [rewrite Hgid; reflexivity | reflexivity]].
      destruct (Hstored (Some MineGame.ENDED) _ eq_refl) as [game' H].
      exists game'. exact H.
    + destruct (forallb MineGame.mined _);
        cbn [MinePick.po_status MinePick.po_datas MinePick.po_hitMine
             fst snd MineRoutes.recordMineMove
             MineRoutes.dbUpdate MineRoutes.rows MineRoutes.moves
             MineRoutes.transfers].
      * change (("END" =? "END")%string) with true. cbv iota.
        split; [exact Hgid|]. split; [exact Hrange|].
        split; [|split; [rewrite Hgid; reflexivity | reflexivity]].
        destruct (Hstored (Some MineGame.ENDED) _ eq_refl) as [game' H].
        exists game'. exact H.
      * change (("BET" =? "END")%string) with false. cbv iota.
        split; [exact Hgid|]. split; [exact Hrange|].
        split; [|split; [rewrite Hgid; reflexivity | reflexivity]].
        destruct (Hstored None _ eq_refl) as [game' H].
        exists game'. exact H.
Qed.

Lemma internal_pick_stored_witness :
  exists result w',
    MineInternal.pickMineTileInternal 500 walletA 1 10 world1
    = (inr (result, 1), w')
    /\ option_map MineGame.datas
         (MineGame.findOne (MineSpec.byId 1) (MineRoutes.rows w'))
       = Some (MinePick.po_datas result).
Proof.
  pose proof (internal_pick_stored 500 walletA 1 10 world1 ltac:(discriminate))
    as H.
  destruct (MineInternal.pickMineTileInternal 500 walletA 1 10 world1)
    as [[thrown | [result returnedId]] w'] eqn:Hpick;
    [vm_compute in Hpick; discriminate Hpick|].
  destruct H as [-> [_ [[game' [Hfound [Hdatas _]]] _]]].
  exists result, w'. split; [reflexivity|].
  rewrite Hfound. cbn [option_map]. rewrite Hdatas. reflexivity.
Defined.

Lemma callTransfer_module (net : QubicPayout.Network) (to : string)
    (amount : float) (w : MineRoutes.World) :
  MineRoutes.callTransfer net MineRoutes.moduleScope "payFromCasinoToUser"
                          to amount w
  = (match QubicPayout.payFromCasinoToUser net
             (List.length (MineRoutes.transfers w)) to amount with
     | inr receipt => MineRoutes.Return receipt
     | inl e => MineRoutes.Throw e
     end,
     MineRoutes.mkWorld (MineRoutes.rows w)
       (MineRoutes.transfers w
        ++ [MineRoutes.mkTransferCall to amount (MineRoutes.rows w)])
       (MineRoutes.moves w)).
Proof.
  unfold MineRoutes.callTransfer, MineRoutes.bind, MineRoutes.evalIdent.
  replace (Js.bound MineRoutes.moduleScope "payFromCasinoToUser") with true
    by reflexivity.
  replace (("payFromCasinoToUser" =? "payFromCasinoToUser")%string) with true
    by reflexivity.
  destruct (QubicPayout.payFromCasinoToUser _ _ _ _); reflexivity.
Qed.

(** An integer that is not [<= 0] is [> 0]. *)
Lemma integer_not_leb_zero (x : float) :
  JsNumber.isInteger x = true -> PrimFloat.leb x 0 = false ->
  PrimFloat.ltb 0 x = true.
Proof.
  intros Hint Hnle.
  unfold JsNumber.isInteger, JsNumber.isFinite, PrimFloat.is_finite in Hint.
  apply andb_prop in Hint. destruct Hint as [Hfin _].
  apply negb_true_iff, orb_false_iff in Hfin. destruct Hfin as [Hnan _].
  unfold PrimFloat.is_nan in Hnan. apply negb_false_iff in Hnan.
  rewrite FloatAxioms.eqb_spec in Hnan.
  rewrite FloatAxioms.leb_spec in Hnle. rewrite FloatAxioms.ltb_spec.
  change (Prim2SF 0) with (S754_zero false) in *.
  destruct (Prim2SF x) as [s | s | | s m e]; try destruct s;
    cbn in *; congruence.
Qed.

(** X27: an internal cashout pays once.  When it returns, it has requested
    one transfer, to the caller and of the amount it returns, a positive
    integer; the session found by its id is ENDED with payout status SENT,
    this amount and the id of the transfer; and a second internal cashout
    of the session is refused with 409, requests no transfer and changes
    nothing, whatever the network and the house edge. *)
Theorem internal_cashout_once (HOUSE_EDGE HOUSE_EDGE' : float)
    (net net' : QubicPayout.Network) (publicId : string) (gameId : Z)
    (w w' : MineRoutes.World) (result : MineInternal.CashoutResult) :
  gameId <> 0 ->
  MineInternal.cashoutMineGameInternal HOUSE_EDGE net publicId gameId w
  = (inr result, w') ->
  (exists rowsAtCall,
     MineRoutes.transfers w'
     = MineRoutes.transfers w
       ++ [MineRoutes.mkTransferCall publicId
             (MineInternal.cr_payoutAmount result) rowsAtCall])
  /\ JsNumber.isInteger (MineInternal.cr_payoutAmount result) = true
  /\ PrimFloat.ltb 0 (MineInternal.cr_payoutAmount result) = true
  /\ (exists game',
        MineGame.findOne (MineSpec.byId gameId) (MineRoutes.rows w') = Some game'
        /\ MineGame.status game' = MineGame.ENDED
        /\ MineGame.payoutStatus game' = MineGame.SENT
        /\ MineGame.payoutAmount game'
           = Some (MineInternal.cr_payoutAmount result)
        /\ MineGame.payoutTxId game'
           = Some (MineInternal.cr_payoutTxId result))
  /\ MineInternal.cashoutMineGameInternal HOUSE_EDGE' net' publicId gameId w'
     = (inl (MineInternal.withStatus 409 "Game already cashed out"), w').
Proof.
  intros Hnz. unfold MineInternal.cashoutMineGameInternal at 1.
  rewrite (idFilter_byId _ Hnz).
  destruct (MineGame.findOne (MineSpec.byId gameId) (MineRoutes.rows w))
    as [game|] eqn:Hfound; [|discriminate].
  destruct (findOne_row _ _ _ Hfound) as [r [Hrow [Hgame Hid]]].
  destruct (String.eqb_spec (MineGame.publicKey game) publicId) as [Hkey | Hkey];
    cbn [negb]; [|discriminate].
  destruct (negb (MineGame.statusEqb (MineGame.status game) MineGame.LIVE)
            && negb (MineGame.statusEqb (MineGame.status game) MineGame.ENDED));
    [discriminate|].
  destruct (MineInternal.alreadyPaid game); [discriminate|].
  set (amount := MinesPayout.payoutAmount (MineRoutes.payoutOf HOUSE_EDGE game)).
  destruct (PrimFloat.leb amount 0); [discriminate|].
  rewrite callTransfer_module.
  cbn [snd MineRoutes.dbUpdate MineRoutes.rows MineRoutes.transfers
       MineRoutes.moves].
  destruct (QubicPayout.payFromCasinoToUser net _ publicId amount)
    as [e | receipt] eqn:Hpay; [discriminate|].
  destruct (payFromCasinoToUser_sent _ _ _ _ _ Hpay) as [Hint [Hnle Htx]].
  intros H. injection H as <- <-.
  cbn [MineInternal.cr_payoutAmount MineInternal.cr_payoutTxId
       MineRoutes.transfers MineRoutes.rows].
  assert (Hgid : MineGame.id game = gameId) by (rewrite Hgame; exact Hid).
  rewrite Hgid.
  set (uEnded := MineGame.mkUpdates (Some MineGame.ENDED) None (Some amount)
                   None None None None).
  set (uSent := MineGame.mkUpdates None None None
                  (Some (Some (QubicPayout.receiptTxId receipt)))
                  (Some MineGame.SENT) (Some None) None).
  set (final := MineGame.applyUpdates uSent (MineGame.applyUpdates uEnded r)).
  assert (Hfinal : MineGame.findOne (MineSpec.byId gameId)
                     (MineGame.findByIdAndUpdate gameId uSent
                        (MineGame.findByIdAndUpdate gameId uEnded
                           (MineRoutes.rows w)))
                   = Some (MineGame.gameOfRow final)).
  { unfold MineGame.findOne. rewrite !find_findByIdAndUpdate, Hrow. reflexivity. }
  assert (Hamount : MineGame.payoutAmount (MineGame.gameOfRow final) = Some amount).
  { subst final uSent uEnded.
    cbn [MineGame.gameOfRow MineGame.payoutAmount MineGame.applyUpdates
         MineGame.u_payoutAmount MineGame.payout_amount Js.numberOrNull].
    rewrite (positive_integer_truthy amount Hint Hnle). reflexivity. }
  assert (HtxId : MineGame.payoutTxId (MineGame.gameOfRow final)
                  = Some (QubicPayout.receiptTxId receipt)).
  { subst final uSent uEnded.
    cbn [MineGame.gameOfRow MineGame.payoutTxId MineGame.applyUpdates
         MineGame.u_payoutTxId MineGame.payout_tx_id].
    rewrite !(orString_truthy _ Htx). reflexivity. }
  split; [eexists; reflexivity|]. split; [exact Hint|].
  split; [exact (integer_not_leb_zero _ Hint Hnle)|].
  split.
  { exists (MineGame.gameOfRow final). split; [exact Hfinal|].
    split; [reflexivity|]. split; [reflexivity|].
    split; [exact Hamount | exact HtxId]. }
  unfold MineInternal.cashoutMineGameInternal.
  rewrite (idFilter_byId _ Hnz). cbn [MineRoutes.rows]. rewrite Hfinal.
  assert (Hkey' : MineGame.publicKey (MineGame.gameOfRow final) = publicId)
    by (rewrite Hgame in Hkey; exact Hkey).
  rewrite Hkey', String.eqb_refl. cbn [negb].
  assert (Hst : MineGame.status (MineGame.gameOfRow final) = MineGame.ENDED)
    by reflexivity.
  rewrite Hst. cbn [MineGame.statusEqb negb andb].
  unfold MineInternal.alreadyPaid. rewrite Hamount, HtxId.
  rewrite (positive_integer_truthy amount Hint Hnle),
    (integer_not_leb_zero _ Hint Hnle).
  cbn [andb MineRoutes.truthyOption]. rewrite Htx. reflexivity.
Qed.

Lemma internal_cashout_once_witness :
  exists result w',
    MineInternal.cashoutMineGameInternal MinesPayout.HOUSE_EDGE_default
      networkUp walletA 1 world1
    = (inr result, w')
    /\ MineInternal.cashoutMineGameInternal MinesPayout.HOUSE_EDGE_default
         networkUp walletA 1 w'
       = (inl (MineInternal.withStatus 409 "Game already cashed out"), w').
Proof.
  destruct (MineInternal.cashoutMineGameInternal MinesPayout.HOUSE_EDGE_default
              networkUp walletA 1 world1)
    as [[thrown | result] w'] eqn:Hcash;
    [vm_compute in Hcash; discriminate Hcash|].
  exists result, w'. split; [reflexivity|].
  exact (proj2 (proj2 (proj2 (proj2
           (internal_cashout_once MinesPayout.HOUSE_EDGE_default
              MinesPayout.HOUSE_EDGE_default networkUp networkUp walletA 1
              world1 w' result ltac:(discriminate) Hcash))))).
Defined.

(** X28: an internal cashout that throws.  An error with a status code
    means a refusal: no transfer was requested and nothing has changed.
    An error without one means that the transfer was requested, to the
    caller, and failed: the session found by its id is then LIVE, also
    when it was ENDED before, with payout status FAILED, the text of the
    error, and the amount that was due still recorded. *)
Theorem internal_cashout_thrown (HOUSE_EDGE : float)
    (net : QubicPayout.Network) (publicId : string) (gameId : Z)
    (w w' : MineRoutes.World) (thrown : MineInternal.Thrown) :
  gameId <> 0 ->
  MineInternal.cashoutMineGameInternal HOUSE_EDGE net publicId gameId w
  = (inl thrown, w') ->
  match MineInternal.thrownStatus thrown with
  | Some code => w' = w
  | None =>
      exists game game' rowsAtCall,
        MineGame.findOne (MineSpec.byId gameId) (MineRoutes.rows w) = Some game
        /\ MineGame.publicKey game = publicId
        /\ (MineGame.status game = MineGame.LIVE
            \/ MineGame.status game = MineGame.ENDED)
        /\ MineRoutes.transfers w'
           = MineRoutes.transfers w
             ++ [MineRoutes.mkTransferCall publicId
                   (MinesPayout.payoutAmount (MineRoutes.payoutOf HOUSE_EDGE game))
                   rowsAtCall]
        /\ MineGame.findOne (MineSpec.byId gameId) (MineRoutes.rows w')
           = Some game'
        /\ MineGame.status game' = MineGame.LIVE
        /\ MineGame.payoutStatus game' = MineGame.FAILED
        /\ MineGame.payoutError game'
           = Some (MineRoutes.errorText (MineInternal.thrownError thrown))
        /\ MineGame.payoutAmount game'
           = Js.numberOrNull
               (Some (MinesPayout.payoutAmount
                        (MineRoutes.payoutOf HOUSE_EDGE game)))
        /\ MineGame.payoutTxId game' = MineGame.payoutTxId game
  end.
Proof.
  intros Hnz. unfold MineInternal.cashoutMineGameInternal.
  rewrite (idFilter_byId _ Hnz).
  destruct (MineGame.findOne (MineSpec.byId gameId) (MineRoutes.rows w))
    as [game|] eqn:Hfound;
    [|intros H; injection H as <- <-; reflexivity].
  destruct (findOne_row _ _ _ Hfound) as [r [Hrow [Hgame Hid]]].
  destruct (String.eqb_spec (MineGame.publicKey game) publicId) as [Hkey | Hkey];
    cbn [negb]; [|intros H; injection H as <- <-; reflexivity].
  destruct (MineGame.status game) eqn:Hst; cbn [MineGame.statusEqb negb andb];
    try (intros H; injection H as <- <-; reflexivity).
  all: destruct (MineInternal.alreadyPaid game);
    [intros H; injection H as <- <-; reflexivity|].
  all: set (amount := MinesPayout.payoutAmount (MineRoutes.payoutOf HOUSE_EDGE game)).
  all: destruct (PrimFloat.leb amount 0);
    [intros H; injection H as <- <-; reflexivity|].
  all: rewrite callTransfer_module.
  all: cbn [snd MineRoutes.dbUpdate MineRoutes.rows MineRoutes.transfers
            MineRoutes.moves].
  all: destruct (QubicPayout.payFromCasinoToUser net _ publicId amount)
    as [e | receipt] eqn:Hpay; [|discriminate].
  all: intros H; injection H as <- <-.
  all: cbn [MineInternal.thrownStatus MineInternal.thrownError
            MineRoutes.transfers MineRoutes.rows].
  all: assert (Hgid : MineGame.id game = gameId) by (rewrite Hgame; exact Hid).
  all: rewrite Hgid.
  all: exists game; eexists; eexists.
  all: split; [reflexivity|]. 
  all: split; [exact Hkey|].
  all: split; [first [left; exact Hst | right; exact Hst]|].
  all: split; [reflexivity|].
  all: unfold MineGame.findOne; rewrite !find_findByIdAndUpdate, Hrow.
  all: cbn [option_map].
  all: split; [reflexivity|].
  all: split; [reflexivity|]. 
  all: split; [reflexivity|].
  all: split;
    [cbn [MineGame.gameOfRow MineGame.payoutError MineGame.applyUpdates
          MineGame.u_payoutError MineGame.payout_error];
     rewrite !(orString_truthy _ (payFromCasinoToUser_failed _ _ _ _ _ Hpay));
     reflexivity|].
  all: split; [reflexivity|].
  all: rewrite Hgame; reflexivity.
Qed.

Lemma internal_cashout_thrown_witness :
  exists thrown w',
    MineInternal.cashoutMineGameInternal MinesPayout.HOUSE_EDGE_default
      networkDown walletA 1 world1
    = (inl thrown, w')
    /\ MineInternal.thrownStatus thrown = None
    /\ option_map MineGame.payoutStatus
         (MineGame.findOne (MineSpec.byId 1) (MineRoutes.rows w'))
       = Some MineGame.FAILED.
Proof.
  destruct (MineInternal.cashoutMineGameInternal MinesPayout.HOUSE_EDGE_default
              networkDown walletA 1 world1)
    as [[thrown | result] w'] eqn:Hcash;
    [|vm_compute in Hcash; discriminate Hcash].
  pose proof (internal_cashout_thrown MinesPayout.HOUSE_EDGE_default
                networkDown walletA 1 world1 w' thrown ltac:(discriminate) Hcash)
    as H.
  assert (Hcode : MineInternal.thrownStatus thrown = None).
  { vm_compute in Hcash. injection Hcash as <- _. reflexivity. }
  rewrite Hcode in H.
  destruct H as [game [game' [rowsAtCall [_ [_ [_ [_ [Hfound [_ [Hfailed _]]]]]]]]]].
  exists thrown, w'. split; [reflexivity|]. split; [exact Hcode|].
  rewrite Hfound. cbn [option_map]. rewrite Hfailed. reflexivity.
Defined.

(** ** Normalised public ids *)

Lemma trimStart_headClean (s : string) :
  ValidationSpec.headClean (list_ascii_of_string (Validation.trimStart s))
  /\ exists spaces,
       list_ascii_of_string s
       = spaces ++ list_ascii_of_string (Validation.trimStart s).
Proof.
  induction s as [|c s [IH1 [spaces IH2]]]; cbn [Validation.trimStart].
  - split; [exact I | exists []; reflexivity].
  - destruct (Validation.isSpace c) eqn:Hc.
    + split; [exact IH1|]. exists (c :: spaces).
      cbn [list_ascii_of_string app]. rewrite IH2. reflexivity.
    + split; [exact Hc | exists []; reflexivity].
Qed.

Lemma trimStart_fixed (s : string) :
  ValidationSpec.headClean (list_ascii_of_string s) -> Validation.trimStart s = s.
Proof.
  destruct s as [|c s]; [reflexivity|].
  cbn [list_ascii_of_string ValidationSpec.headClean Validation.trimStart].
  intros ->. reflexivity.
Qed.

Lemma reverse_list (s : string) :
  list_ascii_of_string (Validation.reverse s) = rev (list_ascii_of_string s).
Proof.
  unfold Validation.reverse. apply list_ascii_of_string_of_list_ascii.
Qed.

Lemma reverse_involutive (s : string) :
  Validation.reverse (Validation.reverse s) = s.
Proof.
  unfold Validation.reverse at 1. rewrite reverse_list, rev_involutive.
  apply string_of_list_ascii_of_string.
Qed.

(** [trim] leaves no white space at either end. *)
Lemma trim_clean (s : string) : ValidationSpec.clean (Validation.trim s).
Proof.
  unfold Validation.trim, ValidationSpec.clean.
  destruct (trimStart_headClean s) as [Ha _].
  set (a := Validation.trimStart s) in *.
  destruct (trimStart_headClean (Validation.reverse a)) as [Hb [spaces Hsp]].
  set (b := Validation.trimStart (Validation.reverse a)) in *.
  rewrite reverse_list, rev_involutive. split; [|exact Hb].
  rewrite reverse_list in Hsp.
  assert (Hl : list_ascii_of_string a
               = rev (list_ascii_of_string b) ++ rev spaces).
  { rewrite <- rev_app_distr, <- Hsp, rev_involutive. reflexivity. }
  destruct (rev (list_ascii_of_string b)) as [|x rest]; [exact I|].
  rewrite Hl in Ha. exact Ha.
Qed.

(** [trim] changes no string that has no white space at either end. *)
Lemma trim_of_clean (s : string) :
  ValidationSpec.clean s -> Validation.trim s = s.
Proof.
  intros [Hhead Hlast]. unfold Validation.trim.
  rewrite (trimStart_fixed s Hhead).
  rewrite (trimStart_fixed (Validation.reverse s))
    by (rewrite reverse_list; exact Hlast).
  apply reverse_involutive.
Qed.

Lemma toUpperCase_list (s : string) :
  list_ascii_of_string (Validation.toUpperCase s)
  = map Validation.upperChar (list_ascii_of_string s).
Proof.
  induction s as [|c s IH]; [reflexivity|].
  cbn [Validation.toUpperCase list_ascii_of_string map]. rewrite IH.
  reflexivity.
Qed.

Lemma upperChar_cases (c : ascii) :
  Validation.upperChar (Validation.upperChar c) = Validation.upperChar c
  /\ Validation.isSpace (Validation.upperChar c) = Validation.isSpace c
  /\ (Validation.isUpperAZ c = true -> Validation.upperChar c = c).
Proof.
  destruct c as [[|] [|] [|] [|] [|] [|] [|] [|]];
    (split; [vm_compute; reflexivity|]);
    (split; [vm_compute; reflexivity|]);
    vm_compute; (reflexivity || discriminate).
Qed.

Lemma headClean_upper (l : list ascii) :
  ValidationSpec.headClean l ->
  ValidationSpec.headClean (map Validation.upperChar l).
Proof.
  destruct l as [|c l]; [exact (fun H => H)|].
  cbn [map ValidationSpec.headClean].
  rewrite (proj1 (proj2 (upperChar_cases c))). exact (fun H => H).
Qed.

Lemma toUpperCase_clean (s : string) :
  ValidationSpec.clean s -> ValidationSpec.clean (Validation.toUpperCase s).
Proof.
  unfold ValidationSpec.clean. rewrite toUpperCase_list, <- map_rev.
  intros [H1 H2]. split; apply headClean_upper; assumption.
Qed.

Lemma toUpperCase_idempotent (s : string) :
  Validation.toUpperCase (Validation.toUpperCase s) = Validation.toUpperCase s.
Proof.
  induction s as [|c s IH]; [reflexivity|].
  cbn [Validation.toUpperCase].
  rewrite IH, (proj1 (upperChar_cases c)). reflexivity.
Qed.

Lemma toUpperCase_upper (s : string) :
  forallb Validation.isUpperAZ (list_ascii_of_string s) = true ->
  Validation.toUpperCase s = s.
Proof.
  induction s as [|c s IH]; [reflexivity|].
  cbn [list_ascii_of_string forallb Validation.toUpperCase].
  intros H. apply andb_prop in H. destruct H as [Hc Hs].
  rewrite (IH Hs), (proj2 (proj2 (upperChar_cases c)) Hc). reflexivity.
Qed.



